(** * EvaluatingImages: the scale/quality sweep of [evaluate.py]

    A shallow embedding of [src/evaluate.py] and the properties its
    specification states about it.

    - Python [float] is IEEE-754 binary64, taken from the Standard Library's
      [SpecFloat] (precision 53, maximal exponent 1024, round to nearest even).
    - Python [int] is [Z]; [str] is [string], read as a sequence of code points
      below 256; a [dict] is an association list in insertion order.
    - An exception is an [outcome] that is [Raise e]; every [try]/[except] of
      the source is a [match] on an outcome.
    - The file system, the image codec, the HTTP endpoint and the clock are the
      oracles of a [World] and of a [FileSystem]: opening, encoding, posting,
      writing a document, saving an artifact and making a directory may each
      raise. *)

From Stdlib Require Import ZArith List String Ascii Bool Lia DecimalString.
From Stdlib Require Import SpecFloat.
From Stdlib Require Import Reals Lra.
Import ListNotations.
Local Open Scope string_scope.
Local Open Scope list_scope.
Local Open Scope Z_scope.

Local Infix "^^" := String.append (at level 60, right associativity).

(* ================================================================= *)
(** ** Python numbers *)

Module PyFloat.

Definition prec : Z := 53.
Definition emax : Z := 1024.

Definition float : Type := spec_float.

Definition mul : float -> float -> float := SFmul prec emax.
Definition div : float -> float -> float := SFdiv prec emax.
Definition add : float -> float -> float := SFadd prec emax.
Definition sub : float -> float -> float := SFsub prec emax.
Definition eqb : float -> float -> bool := SFeqb.

(** [float(z)]: the double nearest to the integer [z]. *)
Definition of_int (z : Z) : float := binary_normalize prec emax z 0 false.

(** A decimal literal [n/d] denotes the double nearest to that quotient. *)
Definition literal (n d : Z) : float := div (of_int n) (of_int d).

(** [int(x)] on a finite double: truncation toward zero. *)
Definition to_int (x : float) : option Z :=
  match x with
  | S754_zero _ => Some 0
  | S754_finite s m e =>
      let a := match e with
               | Z0 => Zpos m
               | Zpos _ => Zpos m * 2 ^ e
               | Zneg _ => Zpos m / 2 ^ (- e)
               end in
      Some (if s then - a else a)
  | S754_infinity _ | S754_nan => None
  end.

End PyFloat.
Import PyFloat.

(* ================================================================= *)
(** ** Exceptions *)

Inductive exn : Type :=
| ZeroDivisionError
| OverflowError
| ValueError
| TypeError
| AttributeError
| IndexError
| KeyError (key : string)
| OSError (msg : string)
| RequestException (msg : string).

Inductive outcome (A : Type) : Type :=
| Ret (a : A)
| Raise (e : exn).
Arguments Ret {A} a.
Arguments Raise {A} e.

Definition bind {A B : Type} (m : outcome A) (k : A -> outcome B) : outcome B :=
  match m with
  | Ret a => k a
  | Raise e => Raise e
  end.

Notation "x <- m ;; k" := (bind m (fun x => k))
  (at level 61, m at next level, right associativity).
Notation "' pat <- m ;; k" := (bind m (fun x => match x with pat => k end))
  (at level 61, pat pattern, m at next level, right associativity).

(** [float(z)] as Python performs it when an [int] meets a [float]. *)
Definition to_float (z : Z) : outcome float :=
  match of_int z with
  | S754_infinity _ | S754_nan => Raise OverflowError
  | x => Ret x
  end.

(** [int(x)]. *)
Definition py_int (x : float) : outcome Z :=
  match to_int x with
  | Some z => Ret z
  | None => match x with S754_nan => Raise ValueError | _ => Raise OverflowError end
  end.

(** [z * x] for an [int] [z] and a [float] [x]. *)
Definition int_mul_float (z : Z) (x : float) : outcome float :=
  y <- to_float z ;; Ret (mul y x).

(** [a / b] on two [int]s.  For operands below [2^53], whose conversion is
    exact, this is the binary64 quotient of the converted operands. *)
Definition truediv (a b : Z) : outcome float :=
  if b =? 0 then Raise ZeroDivisionError
  else x <- to_float a ;; y <- to_float b ;; Ret (div x y).

(* ================================================================= *)
(** ** Python strings and [os.path] *)

Definition len (s : string) : Z := Z.of_nat (String.length s).

Definition nonempty (s : string) : bool :=
  match s with EmptyString => false | String _ _ => true end.

(** [str(z)] for an [int]. *)
Definition str_of_int (z : Z) : string := NilZero.string_of_int (Z.to_int z).

Definition newline : ascii := "010"%char.
Definition slash : ascii := "/"%char.
Definition dot : ascii := "."%char.

(** [s.split(c)] for a one-character separator. *)
Fixpoint split_on (c : ascii) (s : string) : list string :=
  match s with
  | EmptyString => [EmptyString]
  | String a rest =>
      if Ascii.eqb a c then EmptyString :: split_on c rest
      else match split_on c rest with
           | h :: t => String a h :: t
           | [] => [String a EmptyString]
           end
  end.

(** The code points below 256 for which [str.isspace] holds. *)
Definition is_space (c : ascii) : bool :=
  let n := nat_of_ascii c in
  (((9 <=? n) && (n <=? 13)) || ((28 <=? n) && (n <=? 32))
   || (n =? 133) || (n =? 160))%nat.

(** [s.split()]: the maximal runs of non-space characters. *)
Fixpoint py_split (s : string) : list string :=
  match s with
  | EmptyString => []
  | String a rest =>
      if is_space a then py_split rest
      else match rest with
           | EmptyString => [String a EmptyString]
           | String b _ =>
               if is_space b then String a EmptyString :: py_split rest
               else match py_split rest with
                    | w :: ws => String a w :: ws
                    | [] => [String a EmptyString]
                    end
           end
  end.

(** [k in s] for two strings. *)
Fixpoint substring_in (k s : string) : bool :=
  String.prefix k s
  || match s with
     | EmptyString => false
     | String _ rest => substring_in k rest
     end.

(** [(p[:i], p[i:])] for [i = p.rfind(c) + 1]. *)
Fixpoint split_last (c : ascii) (p : string) : string * string :=
  match p with
  | EmptyString => (EmptyString, EmptyString)
  | String a rest =>
      let '(h, t) := split_last c rest in
      match h with
      | EmptyString =>
          if Ascii.eqb a c then (String a EmptyString, t) else (EmptyString, String a t)
      | String _ _ => (String a h, t)
      end
  end.

Fixpoint all_char (c : ascii) (s : string) : bool :=
  match s with
  | EmptyString => true
  | String a rest => Ascii.eqb a c && all_char c rest
  end.

(** [s.rstrip(c)]. *)
Fixpoint rstrip (c : ascii) (s : string) : string :=
  match s with
  | EmptyString => EmptyString
  | String a rest =>
      match rstrip c rest with
      | EmptyString => if Ascii.eqb a c then EmptyString else String a EmptyString
      | r => String a r
      end
  end.

(** [s[:-1]]. *)
Fixpoint drop_last (s : string) : string :=
  match s with
  | EmptyString => EmptyString
  | String a EmptyString => EmptyString
  | String a rest => String a (drop_last rest)
  end.

Definition starts_with (c : ascii) (s : string) : bool :=
  match s with
  | EmptyString => false
  | String a _ => Ascii.eqb a c
  end.

Fixpoint ends_with (c : ascii) (s : string) : bool :=
  match s with
  | EmptyString => false
  | String a EmptyString => Ascii.eqb a c
  | String _ rest => ends_with c rest
  end.

Module os_path.

Definition basename (p : string) : string := snd (split_last slash p).

Definition dirname (p : string) : string :=
  let head := fst (split_last slash p) in
  if nonempty head && negb (all_char slash head) then rstrip slash head else head.

(** The extension starts at the last dot of the last component, unless only
    dots precede it there. *)
Definition splitext (p : string) : string * string :=
  let '(dir, base) := split_last slash p in
  let '(pre, suf) := split_last dot base in
  match pre with
  | EmptyString => (p, EmptyString)
  | String _ _ =>
      let root := drop_last pre in
      if all_char dot root then (p, EmptyString)
      else (dir ^^ root, String dot suf)
  end.

(** [join(a, b)]: an absolute [b] replaces [a]; otherwise one slash separates
    them unless [a] is empty or already ends with one. *)
Definition join (a b : string) : string :=
  if starts_with slash b then b
  else if negb (nonempty a) || ends_with slash a then a ^^ b
  else a ^^ "/" ^^ b.

End os_path.

(* ================================================================= *)
(** ** Python values *)

#[local] Unset Elimination Schemes.
Inductive value : Type :=
| VNone
| VBool (b : bool)
| VInt (z : Z)
| VFloat (x : float)
| VStr (s : string)
| VList (l : list value)
| VDict (d : list (string * value)).
#[local] Set Elimination Schemes.

Definition dict : Type := list (string * value).

Fixpoint dict_get (d : dict) (k : string) : option value :=
  match d with
  | [] => None
  | (k', v) :: rest => if String.eqb k' k then Some v else dict_get rest k
  end.

(** [d[k] = v]: replaces in place, or appends a new key. *)
Fixpoint dict_set (d : dict) (k : string) (v : value) : dict :=
  match d with
  | [] => [(k, v)]
  | (k', v') :: rest =>
      if String.eqb k' k then (k', v) :: rest else (k', v') :: dict_set rest k v
  end.

Definition keys (d : dict) : list string := map fst d.

(** [d.get(k, default)] on a dict. *)
Definition dict_get_default (d : dict) (k : string) (default : value) : value :=
  match dict_get d k with Some v => v | None => default end.

(** [d[k]] on a dict. *)
Definition dict_item (d : dict) (k : string) : outcome value :=
  match dict_get d k with Some v => Ret v | None => Raise (KeyError k) end.

(** [k in v]. *)
Definition py_contains (k : string) (v : value) : outcome bool :=
  match v with
  | VDict d => Ret (match dict_get d k with Some _ => true | None => false end)
  | VList l => Ret (existsb (fun x => match x with VStr s => String.eqb s k | _ => false end) l)
  | VStr s => Ret (substring_in k s)
  | VNone | VBool _ | VInt _ | VFloat _ => Raise TypeError
  end.

(** [v[k]] for a string [k]. *)
Definition py_getitem (v : value) (k : string) : outcome value :=
  match v with
  | VDict d => dict_item d k
  | _ => Raise TypeError
  end.

(** [v[0]]. *)
Definition py_first (v : value) : outcome value :=
  match v with
  | VList (x :: _) => Ret x
  | VList [] => Raise IndexError
  | VStr (String a _) => Ret (VStr (String a EmptyString))
  | VStr EmptyString => Raise IndexError
  | VDict _ => Raise (KeyError "0")
  | VNone | VBool _ | VInt _ | VFloat _ => Raise TypeError
  end.

(** [len(v)]. *)
Definition py_len (v : value) : outcome Z :=
  match v with
  | VDict d => Ret (Z.of_nat (List.length d))
  | VList l => Ret (Z.of_nat (List.length l))
  | VStr s => Ret (len s)
  | VNone | VBool _ | VInt _ | VFloat _ => Raise TypeError
  end.

(** [v.get(k, default)]. *)
Definition py_get (v : value) (k : string) (default : value) : outcome value :=
  match v with
  | VDict d => Ret (dict_get_default d k default)
  | _ => Raise AttributeError
  end.

(** Truth value of [v]. *)
Definition truthy (v : value) : bool :=
  match v with
  | VNone => false
  | VBool b => b
  | VInt z => negb (z =? 0)
  | VFloat x => negb (eqb x (of_int 0))
  | VStr s => nonempty s
  | VList l => match l with [] => false | _ => true end
  | VDict d => match d with [] => false | _ => true end
  end.

(** [v == x] for a float [x]. *)
Definition eq_float (v : value) (x : float) : bool :=
  match v with
  | VFloat y => eqb y x
  | VInt z => eqb (of_int z) x
  | VBool b => eqb (of_int (if b then 1 else 0)) x
  | _ => false
  end.

(** [v == z] for an int [z]. *)
Definition eq_int (v : value) (z : Z) : bool :=
  match v with
  | VInt y => y =? z
  | VFloat y => eqb y (of_int z)
  | VBool b => (if b then 1 else 0) =? z
  | _ => false
  end.

(** [s * n] for a string [s]: [n] copies, none when [n] is not positive. *)
Fixpoint repeat_str (n : nat) (s : string) : string :=
  match n with
  | O => EmptyString
  | S k => s ^^ repeat_str k s
  end.

(** The code points below 256 that [int] skips around a literal. *)
Definition is_int_space (c : ascii) : bool :=
  let n := nat_of_ascii c in
  (((9 <=? n) && (n <=? 13)) || (n =? 32) || (n =? 133) || (n =? 160))%nat.

(** The value of a decimal digit; no other code point below 256 is one. *)
Definition digit_of (c : ascii) : option Z :=
  let n := nat_of_ascii c in
  (if (48 <=? n) && (n <=? 57) then Some (Z.of_nat (n - 48)) else None)%nat.

Fixpoint lstrip_int (s : string) : string :=
  match s with
  | EmptyString => EmptyString
  | String c rest => if is_int_space c then lstrip_int rest else s
  end.

Fixpoint all_int_space (s : string) : bool :=
  match s with
  | EmptyString => true
  | String c rest => is_int_space c && all_int_space rest
  end.

(** The digits of a literal, from a digit on: single underscores may stand
    between two digits, and only spaces may follow the last digit.  Returns the
    value, from the value [acc] of the digits already read, and the number of
    digits. *)
Fixpoint int_digits (s : string) (acc count : Z) : option (Z * Z) :=
  match s with
  | EmptyString => Some (acc, count)
  | String c rest =>
      match digit_of c with
      | Some d => int_digits rest (10 * acc + d) (count + 1)
      | None =>
          if Ascii.eqb c "_"%char then
            match rest with
            | String c' _ =>
                match digit_of c' with
                | Some _ => int_digits rest acc count
                | None => None
                end
            | EmptyString => None
            end
          else if all_int_space s then Some (acc, count) else None
      end
  end.

(** [int(s)] for a string: spaces, a sign, digits, spaces.  A literal of more
    than [max_str_digits] digits is refused when that limit is positive
    ([sys.get_int_max_str_digits()], 0 for no limit). *)
Definition int_of_str (max_str_digits : Z) (s : string) : outcome Z :=
  let text := lstrip_int s in
  let '(negative, digits) :=
    match text with
    | String "+"%char rest => (false, rest)
    | String "-"%char rest => (true, rest)
    | _ => (false, text)
    end in
  match digits with
  | EmptyString => Raise ValueError
  | String c _ =>
      match digit_of c with
      | None => Raise ValueError
      | Some _ =>
          match int_digits digits 0 0 with
          | None => Raise ValueError
          | Some (z, count) =>
              if (0 <? max_str_digits) && (max_str_digits <? count) then Raise ValueError
              else Ret (if negative then - z else z)
          end
      end
  end.

(** [int(z * v)] for an int [z]: a number is scaled and truncated; a string is
    repeated and read as a literal; a repeated list is no number. *)
Definition int_times (max_str_digits : Z) (z : Z) (v : value) : outcome Z :=
  match v with
  | VFloat x => y <- int_mul_float z x ;; py_int y
  | VInt k => Ret (z * k)
  | VBool b => Ret (z * (if b then 1 else 0))
  | VStr s => int_of_str max_str_digits (repeat_str (Z.to_nat z) s)
  | VNone | VList _ | VDict _ => Raise TypeError
  end.

(** [int(v * z)] for an int [z]. *)
Definition times_int (max_str_digits : Z) (v : value) (z : Z) : outcome Z :=
  match v with
  | VFloat x => y <- to_float z ;; py_int (mul x y)
  | VInt k => Ret (k * z)
  | VBool b => Ret ((if b then 1 else 0) * z)
  | VStr s => int_of_str max_str_digits (repeat_str (Z.to_nat z) s)
  | VNone | VList _ | VDict _ => Raise TypeError
  end.

(* ================================================================= *)
(** ** The environment *)

Record World : Type := {
  (** [os.makedirs] of the directory and [Image.open]: the size of the image. *)
  w_open : string -> outcome (Z * Z);
  (** Resize to the given size, flatten transparency, save as JPEG at the
      quality, encode in base64. *)
  w_encode : string -> Z * Z -> Z -> outcome string;
  (** [requests.post], [raise_for_status] and [response.json()], for the call
      on this file, quality and scale. *)
  w_post : string -> Z -> float -> value -> outcome value;
  (** [time.time()] at the start and the end of the call. *)
  w_time_start : string -> Z -> float -> float;
  w_time_end : string -> Z -> float -> float;
  (** [datetime.now().isoformat()]. *)
  w_now : string -> Z -> float -> string;
  (** [str(e)] of a caught exception. *)
  w_str_exn : exn -> string;
  (** [str(v)] of a value that is neither an int nor a string. *)
  w_str : value -> string;
  (** [format(v, ".2f")]. *)
  w_format_2f : value -> outcome string;
  (** Resize the original for display, create the canvas, paste, draw and save
      under the path. *)
  w_compose : string -> Z * Z -> string -> outcome unit;
  (** [open(json_path, "w")] and [json.dump] of the document into it. *)
  w_write_json : string -> list (string * value) -> outcome unit;
  (** [sys.get_int_max_str_digits()]: the longest literal [int] reads, 0 for no
      limit. *)
  w_max_str_digits : Z
}.

Definition py_str (w : World) (v : value) : string :=
  match v with
  | VInt z => str_of_int z
  | VStr s => s
  | _ => w_str w v
  end.

(* ================================================================= *)
(** ** [ImageProcessor] *)

(** The side that is not pinned to the bound: [int(side * (bound / long))]. *)
Definition scaled_side (side bound long : Z) : outcome Z :=
  q <- truediv bound long ;;
  x <- int_mul_float side q ;;
  py_int x.

(** [(new_width, new_height)] of [process_image], or the size unchanged. *)
Definition constrain_size (width height effective_max_dimension : Z) : outcome (Z * Z) :=
  if (width >? effective_max_dimension) || (height >? effective_max_dimension) then
    if width >? height then
      new_height <- scaled_side height effective_max_dimension width ;;
      Ret (effective_max_dimension, new_height)
    else
      new_width <- scaled_side width effective_max_dimension height ;;
      Ret (new_width, effective_max_dimension)
  else Ret (width, height).

(** [int(max_dimension * scale_factor)]. *)
Definition effective_max_dimension (max_dimension : Z) (scale_factor : float) : outcome Z :=
  x <- int_mul_float max_dimension scale_factor ;; py_int x.

(** [int(scale_factor*100)]. *)
Definition scale_percent (scale_factor : float) : outcome Z :=
  y <- to_float 100 ;; py_int (mul scale_factor y).

(** The stem of the file name: [os.path.splitext(os.path.basename(p))[0]]. *)
Definition stem (file_path : string) : string :=
  fst (os_path.splitext (os_path.basename file_path)).

Definition output_path_of (file_path : string) (quality : Z) (scale_factor : float)
  : outcome string :=
  pct <- scale_percent scale_factor ;;
  Ret (os_path.join (os_path.dirname file_path)
         (stem file_path ^^ "_q" ^^ str_of_int quality ^^ "_s" ^^ str_of_int pct ^^ ".jpg")).

Definition process_image_body (w : World) (max_dimension : Z)
    (file_path : string) (quality : Z) (scale_factor : float) : outcome (string * string) :=
  '(width, height) <- w_open w file_path ;;
  bound <- effective_max_dimension max_dimension scale_factor ;;
  size <- constrain_size width height bound ;;
  img_base64 <- w_encode w file_path size quality ;;
  output_path <- output_path_of file_path quality scale_factor ;;
  Ret (img_base64, output_path).

(** [ImageProcessor.process_image]: [(None, None)] on any exception. *)
Definition process_image (w : World) (max_dimension : Z)
    (file_path : string) (quality : Z) (scale_factor : float) : option (string * string) :=
  match process_image_body w max_dimension file_path quality scale_factor with
  | Ret r => Some r
  | Raise _ => None
  end.

(* ================================================================= *)
(** ** [LLMProcessor] *)

Definition system_instruction : string := "You are a helpful image capable model".
Definition instruction : string :=
  "Describe the image. Make sure to list every object that can be recognized and the location of that object. If there is any writing, transcribe it separately.".

Definition temperature : float := literal 1 10.
Definition min_p : float := literal 1 10.

Definition payload_of (image_base64 : string) : value :=
  VDict [ ("messages",
           VList [ VDict [("role", VStr "system"); ("content", VStr system_instruction)];
                   VDict [("role", VStr "user");
                          ("content",
                           VList [ VDict [("type", VStr "text"); ("text", VStr instruction)];
                                   VDict [("type", VStr "image_url");
                                          ("image_url",
                                           VDict [("url", VStr ("data:image/jpeg;base64," ^^ image_base64))])] ])] ]);
          ("max_tokens", VInt 1024);
          ("temperature", VFloat temperature);
          ("top_p", VInt 1);
          ("top_k", VInt 0);
          ("rep_pen", VInt 1);
          ("min_p", VFloat min_p) ].

(** The lines that read the reply: the new value of [result["response"]], or
    [None] when the field is left as initialised. *)
Definition extract_response (response_json : value) : outcome (option value) :=
  has_choices <- py_contains "choices" response_json ;;
  nonempty_choices <-
    (if has_choices
     then (choices <- py_getitem response_json "choices" ;;
           n <- py_len choices ;; Ret (n >? 0))
     else Ret false) ;;
  if nonempty_choices then
    choices <- py_getitem response_json "choices" ;;
    first <- py_first choices ;;
    has_message <- py_contains "message" first ;;
    if has_message then
      message <- py_getitem first "message" ;;
      content <- py_getitem message "content" ;;
      Ret (Some content)
    else
      text <- py_get first "text" (VStr "") ;;
      Ret (Some text)
  else Ret None.

Definition failure (w : World) (error : string)
    (file_path : string) (quality : Z) (scale_factor : float) : dict :=
  [ ("success", VBool false);
    ("error", VStr error);
    ("file_path", VStr file_path);
    ("quality", VInt quality);
    ("scale_factor", VFloat scale_factor);
    ("timestamp", VStr (w_now w file_path quality scale_factor)) ].

Definition request (w : World) (file_path output_path image_base64 : string)
    (quality : Z) (scale_factor : float) : outcome dict :=
  let payload := payload_of image_base64 in
  response_json <- w_post w file_path quality scale_factor payload ;;
  let processing_time :=
    sub (w_time_end w file_path quality scale_factor)
        (w_time_start w file_path quality scale_factor) in
  let result :=
    [ ("success", VBool true);
      ("file_path", VStr file_path);
      ("output_path", VStr output_path);
      ("quality", VInt quality);
      ("scale_factor", VFloat scale_factor);
      ("timestamp", VStr (w_now w file_path quality scale_factor));
      ("processing_time", VFloat processing_time);
      ("payload", payload);
      ("response", VNone) ] in
  response <- extract_response response_json ;;
  match response with
  | Some v => Ret (dict_set result "response" v)
  | None => Ret result
  end.

(** [LLMProcessor.process_file], with [max_dimension=896]. *)
Definition process_file (w : World) (file_path : string) (quality : Z) (scale_factor : float)
  : dict :=
  match process_image w 896 file_path quality scale_factor with
  | None => failure w "Failed to process image" file_path quality scale_factor
  | Some (image_base64, output_path) =>
      if negb (nonempty image_base64)
      then failure w "Failed to process image" file_path quality scale_factor
      else match request w file_path output_path image_base64 quality scale_factor with
           | Ret result => result
           | Raise e => failure w (w_str_exn w e) file_path quality scale_factor
           end
  end.

(* ================================================================= *)
(** ** [create_side_by_side_image] *)

Definition font_size : Z := 14.

(** [font_size * 0.6], the estimated width of a glyph. *)
Definition glyph_width : float := mul (of_int font_size) (literal 6 10).

(** [int(n * (font_size * 0.6))], the estimated rendered width of [n]
    characters. *)
Definition estimate (n : Z) : outcome Z :=
  x <- int_mul_float n glyph_width ;; py_int x.

Definition text_px (s : string) : outcome Z := estimate (len s).

Definition or_zero (m : outcome Z) : Z :=
  match m with Ret z => z | Raise _ => 0 end.

(** [int(font_size * 1.2)] and [int(font_size * 1.5)]. *)
Definition line_height : Z := or_zero (x <- int_mul_float font_size (literal 12 10) ;; py_int x).
Definition settings_step : Z := or_zero (x <- int_mul_float font_size (literal 15 10) ;; py_int x).

(** The size at which the original is displayed. *)
Definition display_size (width height effective_max_dimension : Z) : outcome (Z * Z) :=
  if width >? height then
    if width >? effective_max_dimension then
      display_height <- scaled_side height effective_max_dimension width ;;
      Ret (effective_max_dimension, display_height)
    else Ret (width, height)
  else
    if height >? effective_max_dimension then
      display_width <- scaled_side width effective_max_dimension height ;;
      Ret (display_width, effective_max_dimension)
    else Ret (width, height).

(** One [draw.text] call: the ordinate and the text. *)
Definition drawn : Type := (Z * string)%type.

(** The inner [for word in words] loop and the flush that follows it.  Returns
    the texts drawn, in order, and the ordinate reached. *)
Fixpoint wrap_words (text_width : Z) (words : list string) (current_line : string)
    (y_position : Z) : outcome (list drawn * Z) :=
  match words with
  | [] =>
      if nonempty current_line
      then Ret ([(y_position, current_line)], y_position + line_height)
      else Ret ([], y_position)
  | word :: rest =>
      let test_line :=
        if nonempty current_line then current_line ^^ " " ^^ word else word in
      px <- text_px test_line ;;
      if px <? text_width - 20 then wrap_words text_width rest test_line y_position
      else
        '(more, y') <- wrap_words text_width rest word (y_position + line_height) ;;
        Ret ((y_position, current_line) :: more, y')
  end.

(** The body of [for line in response_text.split('\n')]. *)
Definition draw_line (text_width : Z) (line : string) (y_position : Z)
  : outcome (list drawn * Z) :=
  px <- text_px line ;;
  if px >? text_width - 20 then wrap_words text_width (py_split line) EmptyString y_position
  else Ret ([(y_position, line)], y_position + line_height).

Fixpoint draw_lines (text_width : Z) (lines : list string) (y_position : Z)
  : outcome (list drawn * Z) :=
  match lines with
  | [] => Ret ([], y_position)
  | line :: rest =>
      '(first, y') <- draw_line text_width line y_position ;;
      '(more, y'') <- draw_lines text_width rest y' ;;
      Ret (first ++ more, y'')
  end.

(** The texts of the response panel, without their ordinates. *)
Definition wrapped (text_width : Z) (line : string) : outcome (list string) :=
  '(lines, _) <- draw_line text_width line 0 ;; Ret (map snd lines).

(** The settings lines, drawn from ordinate 10 on. *)
Fixpoint draw_settings (lines : list string) (y_position : Z) : list drawn * Z :=
  match lines with
  | [] => ([], y_position)
  | line :: rest =>
      let '(more, y') := draw_settings rest (y_position + settings_step) in
      ((y_position, line) :: more, y')
  end.

(** The tail of an artifact name after the stem, and of a JSON name. *)
Definition name_suffix (w : World) (scale_factor quality : value) : outcome string :=
  if eq_float scale_factor (of_int 1) && eq_int quality 100 then Ret "_original"
  else if eq_float scale_factor (of_int 1) then Ret ("_q" ^^ py_str w quality)
  else
    pct <- times_int (w_max_str_digits w) scale_factor 100 ;;
    Ret ("_s" ^^ str_of_int pct ^^ "_q" ^^ py_str w quality).

Definition output_filename (w : World) (original_path : string) (scale_factor quality : value)
  : outcome string :=
  suffix <- name_suffix w scale_factor quality ;;
  Ret (stem original_path ^^ suffix ^^ "_combined.jpg").

Record canvas : Type := {
  c_size : Z * Z;
  c_image : Z * Z;
  c_settings : list drawn;
  c_separator : Z;
  c_response : list drawn
}.

Definition render (w : World) (original_path : string) (result : dict) (output_dir : string)
  : outcome (string * canvas) :=
  '(width, height) <- w_open w original_path ;;
  let scale_factor := dict_get_default result "scale_factor" (VFloat (of_int 1)) in
  let quality := dict_get_default result "quality" (VInt 100) in
  bound <- int_times (w_max_str_digits w) 896 scale_factor ;;
  '(img_width, img_height) <- display_size width height bound ;;
  let text_width := img_width in
  let response_text := dict_get_default result "response" (VStr "No response") in
  pct <- times_int (w_max_str_digits w) scale_factor 100 ;;
  payload <- dict_item result "payload" ;;
  temp <- py_getitem payload "temperature" ;;
  processing_time <- dict_item result "processing_time" ;;
  time_text <- w_format_2f w processing_time ;;
  let settings_text :=
    "Quality: " ^^ py_str w quality ^^ "%" ^^ String newline
    ("Scale: " ^^ str_of_int pct ^^ "% (" ^^ str_of_int bound ^^ "px)" ^^ String newline
    ("Temperature: " ^^ py_str w temp ^^ String newline
    ("Time: " ^^ time_text ^^ "s"))) in
  response_lines <-
    match response_text with
    | VStr s => Ret (split_on newline s)
    | _ => Raise AttributeError
    end ;;
  x <- int_mul_float (Z.of_nat (List.length response_lines) * font_size) (literal 15 10) ;;
  y <- to_float 200 ;;
  text_height <- py_int (add x y) ;;
  let text_height := Z.max text_height img_height in
  let combined_width := img_width + text_width in
  let combined_height := Z.max img_height text_height in
  let '(settings, y_position) := draw_settings (split_on newline settings_text) 10 in
  let separator := y_position + 10 in
  '(response, _) <- draw_lines text_width response_lines (separator + 10) ;;
  output_filename <- output_filename w original_path scale_factor quality ;;
  let output_path := os_path.join output_dir output_filename in
  _ <- w_compose w original_path (img_width, img_height) output_path ;;
  Ret (output_path,
       {| c_size := (combined_width, combined_height);
          c_image := (img_width, img_height);
          c_settings := settings;
          c_separator := separator;
          c_response := response |}).

(** [create_side_by_side_image]: the path of the artifact, or [None] on any
    exception. *)
Definition create_side_by_side_image (w : World) (original_path : string) (result : dict)
    (output_dir : string) : option string :=
  match render w original_path result output_dir with
  | Ret (output_path, _) => Some output_path
  | Raise _ => None
  end.

(* ================================================================= *)
(** ** [run_full_quality_cycle] and the loop of [main] *)

(** What a run has done so far.  Each list is a log, oldest first, of the
    calls that returned: a write or a save that raises leaves no entry. *)
Record state : Type := {
  json_docs : list (string * dict);     (* the JSON documents written *)
  artifacts : list (string * canvas);   (* the comparison images saved *)
  console : list string;                (* the lines printed *)
  results : list dict;                  (* the values bound to [result] *)
  directories : list string             (* the directories [main] made sure of *)
}.

Definition initial : state :=
  {| json_docs := []; artifacts := []; console := []; results := []; directories := [] |}.

Definition print (st : state) (line : string) : state :=
  {| json_docs := json_docs st; artifacts := artifacts st;
     console := console st ++ [line]; results := results st;
     directories := directories st |}.

Definition record_result (st : state) (result : dict) : state :=
  {| json_docs := json_docs st; artifacts := artifacts st;
     console := console st; results := results st ++ [result];
     directories := directories st |}.

(** [with open(path, "w", encoding="utf-8") as f: json.dump(doc, f, indent=2)]:
    the document is there when both calls return; otherwise the exception
    leaves the statement. *)
Definition write_json (w : World) (st : state) (path : string) (doc : dict)
  : state * outcome unit :=
  match w_write_json w path doc with
  | Ret _ =>
      ({| json_docs := json_docs st ++ [(path, doc)]; artifacts := artifacts st;
          console := console st; results := results st;
          directories := directories st |}, Ret tt)
  | Raise e => (st, Raise e)
  end.

Definition save_image (st : state) (path : string) (c : canvas) : state :=
  {| json_docs := json_docs st; artifacts := artifacts st ++ [(path, c)];
     console := console st; results := results st;
     directories := directories st |}.

Definition make_directory (st : state) (path : string) : state :=
  {| json_docs := json_docs st; artifacts := artifacts st;
     console := console st; results := results st;
     directories := directories st ++ [path] |}.

Definition qualities : list Z := [100; 90; 70; 50; 30; 10].
Definition scales : list float := [of_int 1; literal 2 3; literal 1 3].

(** The banner printed before the qualities of a scale. *)
Definition scale_str (scale_factor : float) : outcome string :=
  if eqb scale_factor (of_int 1) then Ret "original (896px)"
  else
    effective_dimension <- effective_max_dimension 896 scale_factor ;;
    pct <- scale_percent scale_factor ;;
    Ret (str_of_int pct ^^ "% (" ^^ str_of_int effective_dimension ^^ "px)").

Definition json_filename (file_path : string) (quality : Z) (scale_factor : float)
  : outcome string :=
  if eqb scale_factor (of_int 1) && (quality =? 100) then Ret (stem file_path ^^ "_original.json")
  else if eqb scale_factor (of_int 1)
       then Ret (stem file_path ^^ "_q" ^^ str_of_int quality ^^ ".json")
  else
    pct <- scale_percent scale_factor ;;
    Ret (stem file_path ^^ "_s" ^^ str_of_int pct ^^ "_q" ^^ str_of_int quality ^^ ".json").

(** [{k: v for k, v in result.items() if k != 'image_base64'}]. *)
Definition result_for_json (result : dict) : dict :=
  filter (fun kv => negb (String.eqb (fst kv) "image_base64")) result.

(** What the call of [process_image] inside [process_file] does to the state:
    the line of its [except] block, when that is entered. *)
Definition process_image_effect (w : World) (file_path : string) (quality : Z)
    (scale_factor : float) (st : state) : state :=
  match process_image_body w 896 file_path quality scale_factor with
  | Ret _ => st
  | Raise e => print st ("Error processing image " ^^ file_path ^^ ": " ^^ w_str_exn w e)
  end.

(** What [create_side_by_side_image] does to the state: the artifact that is
    saved, or the line of its [except] block. *)
Definition create_side_by_side_image_effect (w : World) (original_path : string)
    (result : dict) (output_dir : string) (st : state) : state :=
  match render w original_path result output_dir with
  | Ret (path, c) => save_image st path c
  | Raise e => print st ("Error creating side-by-side image: " ^^ w_str_exn w e)
  end.

(** One iteration of [for quality in ...]: the state reached, and the exception
    that leaves the loop if one is raised. *)
Definition quality_step (w : World) (file_path output_dir : string) (scale_factor : float)
    (quality : Z) (st : state) : state * outcome unit :=
  let st := print st ("  Processing quality: " ^^ str_of_int quality ^^ "%") in
  let st := process_image_effect w file_path quality scale_factor st in
  let result := process_file w file_path quality scale_factor in
  let st := record_result st result in
  if truthy (dict_get_default result "success" VNone) then
    match json_filename file_path quality scale_factor with
    | Raise e => (st, Raise e)
    | Ret name =>
        let json_path := os_path.join output_dir name in
        match write_json w st json_path (result_for_json result) with
        | (st, Raise e) => (st, Raise e)
        | (st, Ret _) =>
            let st := create_side_by_side_image_effect w file_path result output_dir st in
            let side_by_side_path :=
              create_side_by_side_image w file_path result output_dir in
            (print st ("    Created: " ^^ match side_by_side_path with
                                          | Some path => os_path.basename path
                                          | None => "Failed"
                                          end),
             Ret tt)
        end
    end
  else
    (print st ("    Failed: " ^^ py_str w (dict_get_default result "error" (VStr "Unknown error"))),
     Ret tt).

Fixpoint quality_loop (w : World) (file_path output_dir : string) (scale_factor : float)
    (qs : list Z) (st : state) : state * outcome unit :=
  match qs with
  | [] => (st, Ret tt)
  | quality :: rest =>
      match quality_step w file_path output_dir scale_factor quality st with
      | (st', Ret _) => quality_loop w file_path output_dir scale_factor rest st'
      | (st', Raise e) => (st', Raise e)
      end
  end.

Definition run_full_quality_cycle (w : World) (file_path output_dir : string)
    (scale_factor : float) (st : state) : state * outcome unit :=
  match scale_str scale_factor with
  | Raise e => (st, Raise e)
  | Ret banner =>
      quality_loop w file_path output_dir scale_factor qualities
        (print st (String newline ("===== Processing scale: " ^^ banner ^^ " =====")))
  end.

Fixpoint scale_loop (w : World) (file_path output_dir : string)
    (ss : list float) (st : state) : state * outcome unit :=
  match ss with
  | [] => (st, Ret tt)
  | scale :: rest =>
      match run_full_quality_cycle w file_path output_dir scale st with
      | (st', Ret _) => scale_loop w file_path output_dir rest st'
      | (st', Raise e) => (st', Raise e)
      end
  end.

(** The body of [for i, file_path in enumerate(image_files)], with its
    [try]/[except]. *)
Definition sweep (w : World) (file_path output_dir : string) (st : state) : state :=
  match scale_loop w file_path output_dir scales st with
  | (st', Ret _) => st'
  | (st', Raise e) => print st' ("Error processing " ^^ file_path ^^ ": " ^^ w_str_exn w e)
  end.

Fixpoint process_images (w : World) (image_files : list string) (output_dir : string)
    (i total : Z) (st : state) : state :=
  match image_files with
  | [] => st
  | file_path :: rest =>
      let st := print st ("[" ^^ str_of_int (i + 1) ^^ "/" ^^ str_of_int total
                          ^^ "] Processing " ^^ file_path) in
      process_images w rest output_dir (i + 1) total (sweep w file_path output_dir st)
  end.

(* ================================================================= *)
(** ** [main] *)

(** [c.lower()] for a code point below 256: the letters A-Z and the accented
    capitals from 192 to 222, the multiplication sign apart, move up by 32. *)
Definition lower_char (c : ascii) : ascii :=
  let n := nat_of_ascii c in
  (if ((65 <=? n) && (n <=? 90)) || ((192 <=? n) && (n <=? 222) && negb (n =? 215))
   then ascii_of_nat (n + 32) else c)%nat.

(** [s.lower()]. *)
Fixpoint lower (s : string) : string :=
  match s with
  | EmptyString => EmptyString
  | String c rest => String (lower_char c) (lower rest)
  end.

(** [s.endswith(suffix)]. *)
Fixpoint endswith (s suffix : string) : bool :=
  String.eqb s suffix
  || match s with
     | EmptyString => false
     | String _ rest => endswith rest suffix
     end.

(** [file.lower().endswith(('.png', '.jpg', '.jpeg'))]. *)
Definition is_image_file (file : string) : bool :=
  let name := lower file in
  endswith name ".png" || endswith name ".jpg" || endswith name ".jpeg".

(** The parsed command line; [--output-dir] may be absent. *)
Record Args : Type := {
  arg_dir : string;
  arg_api_url : string;
  arg_api_password : string;
  arg_output_dir : option string
}.

(** What [main] asks of the file system: [os.path.isdir]; [os.makedirs] with
    [exist_ok=True]; and the [(root, files)] of each directory that [os.walk]
    visits, in its order, once the output directory has been made. *)
Record FileSystem : Type := {
  fs_isdir : string -> bool;
  fs_makedirs : string -> outcome unit;
  fs_walk : string -> list (string * list string)
}.

(** The two nested loops that fill [image_files]. *)
Definition image_files (fs : FileSystem) (dir : string) : list string :=
  flat_map (fun entry => map (os_path.join (fst entry)) (filter is_image_file (snd entry)))
           (fs_walk fs dir).

(** [args.output_dir] after the default is set. *)
Definition output_dir_of (args : Args) : string :=
  match arg_output_dir args with
  | Some (String c rest) => String c rest
  | Some EmptyString | None => rstrip slash (arg_dir args) ^^ "_results"
  end.

(** [main]: the final state, and the exit code or the exception that leaves
    [main].  The endpoint's address and password reach the code only through
    the requests, which [w_post] answers. *)
Definition main (fs : FileSystem) (w : World) (args : Args) : state * outcome Z :=
  if negb (fs_isdir fs (arg_dir args))
  then (print initial ("Error: " ^^ arg_dir args ^^ " is not a valid directory"), Ret 1)
  else
    let output_dir := output_dir_of args in
    match fs_makedirs fs output_dir with
    | Raise e => (initial, Raise e)
    | Ret _ =>
        let st := make_directory initial output_dir in
        let files := image_files fs (arg_dir args) in
        match files with
        | [] => (print st ("No image files found in " ^^ arg_dir args), Ret 1)
        | _ :: _ =>
            let total := Z.of_nat (List.length files) in
            let st := print st ("Found " ^^ str_of_int total ^^ " image files to process") in
            let st := process_images w files output_dir 0 total st in
            (print st ("Processing complete. Results saved to " ^^ output_dir), Ret 0)
        end
    end.

(** [sys.exit(main())]: the exit status of the process, 1 when an exception
    leaves [main]. *)
Definition exit_status (run : state * outcome Z) : Z :=
  match snd run with
  | Ret code => code
  | Raise _ => 1
  end.

(* ================================================================= *)
(** ** Notions used to state the properties *)

(** The real number a double denotes. *)
Definition F2R (x : float) : R :=
  match x with
  | S754_finite s m e => ((if s then -1 else 1) * IZR (Zpos m) * powerRZ 2 e)%R
  | _ => 0%R
  end.

(** Half a unit in the last place of a number in [[1,2)]: [2^-53]. *)
Definition ulp_half : R := (/ IZR (2 ^ 53))%R.

(** A positive normal double whose exponent lies in [[lo, hi]]. *)
Definition normal (lo hi : Z) (x : float) : Prop :=
  exists m e, x = S754_finite false m e /\ 2 ^ 52 <= Zpos m < 2 ^ 53 /\ lo <= e <= hi.

(** The shift record [mrs] is the quotient [n / d] together with the position
    of [n / d] between two integers: the round bit says whether the fraction
    reaches one half, the sticky bit whether anything lies beyond that. *)
Definition located (n d : Z) (mrs : shr_record) : Prop :=
  0 < d /\ 0 <= n /\ shr_m mrs = n / d /\
  shr_r mrs = (d <=? 2 * (n mod d)) /\
  shr_s mrs = negb ((2 * (n mod d)) mod d =? 0).

(** The integer nearest to [n / d], ties to even. *)
Definition rne (n d : Z) : Z :=
  let q := n / d in
  match 2 * (n mod d) ?= d with
  | Lt => q
  | Eq => if Z.even q then q else q + 1
  | Gt => q + 1
  end.

(** [n] characters are estimated at least as wide as the usable width. *)
Definition overflows (text_width n : Z) : Prop :=
  exists px, estimate n = Ret px /\ text_width - 20 <= px.

(** [n] characters are estimated narrower than the usable width. *)
Definition fits (text_width n : Z) : Prop :=
  exists px, estimate n = Ret px /\ px < text_width - 20.

(** The panel takes [N] characters on a line and no more. *)
Definition usable_chars (text_width N : Z) : Prop :=
  0 <= N /\ fits text_width N /\ overflows text_width (N + 1).

(** The characters of the words of a line, one separator counted per word. *)
Definition total_width (words : list string) : Z :=
  fold_right (fun word acc => len word + 1 + acc) 0 words.

(** The (scale, quality) pairs of a sweep, scale by scale. *)
Definition pairs : list (float * Z) := list_prod scales qualities.

Definition succeeded (result : dict) : bool :=
  truthy (dict_get_default result "success" VNone).

Definition success_fields : list string :=
  ["success"; "file_path"; "output_path"; "quality"; "scale_factor"; "timestamp";
   "processing_time"; "payload"; "response"].

Definition failure_fields : list string :=
  ["success"; "error"; "file_path"; "quality"; "scale_factor"; "timestamp"].

(** A world in which every oracle answers and the endpoint returns one choice
    holding the given text. *)
Definition answering (text : string) : World :=
  {| w_open := fun _ => Ret (1920, 1080);
     w_encode := fun _ _ _ => Ret "/9j/4AAQ";
     w_post := fun _ _ _ _ =>
       Ret (VDict [("choices",
                    VList [VDict [("message", VDict [("content", VStr text)])]])]);
     w_time_start := fun _ _ _ => of_int 1;
     w_time_end := fun _ _ _ => of_int 3;
     w_now := fun _ _ _ => "2025-01-01T00:00:00";
     w_str_exn := fun _ => "error";
     w_str := fun _ => "0.1";
     w_format_2f := fun _ => Ret "2.00";
     w_compose := fun _ _ _ => Ret tt;
     w_write_json := fun _ _ => Ret tt;
     w_max_str_digits := 4300 |}.


(** The same world, except that the request of the pair (2/3, 50) fails in
    transport. *)
Definition flaky : World :=
  {| w_open := w_open (answering "");
     w_encode := w_encode (answering "");
     w_post := fun file_path quality scale_factor payload =>
       if (quality =? 50) && eqb scale_factor (literal 2 3)
       then Raise (RequestException "connection refused")
       else w_post (answering "a cat") file_path quality scale_factor payload;
     w_time_start := w_time_start (answering "");
     w_time_end := w_time_end (answering "");
     w_now := w_now (answering "");
     w_str_exn := w_str_exn (answering "");
     w_str := w_str (answering "");
     w_format_2f := w_format_2f (answering "");
     w_compose := w_compose (answering "");
     w_write_json := w_write_json (answering "");
     w_max_str_digits := w_max_str_digits (answering "") |}.

(** The same world, except that the endpoint replies with an empty object. *)
Definition choiceless : World :=
  {| w_open := w_open (answering "");
     w_encode := w_encode (answering "");
     w_post := fun _ _ _ _ => Ret (VDict []);
     w_time_start := w_time_start (answering "");
     w_time_end := w_time_end (answering "");
     w_now := w_now (answering "");
     w_str_exn := w_str_exn (answering "");
     w_str := w_str (answering "");
     w_format_2f := w_format_2f (answering "");
     w_compose := w_compose (answering "");
     w_write_json := w_write_json (answering "");
     w_max_str_digits := w_max_str_digits (answering "") |}.

(** The record [process_file] returns after a reply, with the given response. *)
Definition success_record (w : World) (file_path output_path image_base64 : string)
    (quality : Z) (scale_factor : float) (response : value) : dict :=
  [ ("success", VBool true);
    ("file_path", VStr file_path);
    ("output_path", VStr output_path);
    ("quality", VInt quality);
    ("scale_factor", VFloat scale_factor);
    ("timestamp", VStr (w_now w file_path quality scale_factor));
    ("processing_time",
     VFloat (sub (w_time_end w file_path quality scale_factor)
                 (w_time_start w file_path quality scale_factor)));
    ("payload", payload_of image_base64);
    ("response", response) ].

(** The result of a pair and the documents its iteration writes. *)
Definition result_of (w : World) (file_path : string) (sq : float * Z) : dict :=
  process_file w file_path (snd sq) (fst sq).

Definition json_path_of (file_path output_dir : string) (sq : float * Z) : string :=
  match json_filename file_path (snd sq) (fst sq) with
  | Ret name => os_path.join output_dir name
  | Raise _ => EmptyString
  end.

(** The document of a pair: its path and its content. *)
Definition document_of (w : World) (file_path output_dir : string) (sq : float * Z)
  : string * dict :=
  (json_path_of file_path output_dir sq, result_for_json (result_of w file_path sq)).

(** Writing the document of a pair returns. *)
Definition written (w : World) (file_path output_dir : string) (sq : float * Z) : bool :=
  match w_write_json w (fst (document_of w file_path output_dir sq))
                       (snd (document_of w file_path output_dir sq)) with
  | Ret _ => true
  | Raise _ => false
  end.

(** The pair has a document after its iteration: its result is a success and
    the write returned. *)
Definition kept (w : World) (file_path output_dir : string) (sq : float * Z) : bool :=
  succeeded (result_of w file_path sq) && written w file_path output_dir sq.

(** The iteration of the pair is left by an exception: its result is a success
    and the write raised. *)
Definition write_fails (w : World) (file_path output_dir : string) (sq : float * Z) : bool :=
  succeeded (result_of w file_path sq) && negb (written w file_path output_dir sq).

Definition persisted (w : World) (file_path output_dir : string) (sq : float * Z)
  : list (string * dict) :=
  if kept w file_path output_dir sq then [document_of w file_path output_dir sq] else [].

(** The elements of a list up to the first that stops a loop, that one
    included. *)
Fixpoint reached {A : Type} (stops : A -> bool) (l : list A) : list A :=
  match l with
  | [] => []
  | x :: rest => if stops x then [x] else x :: reached stops rest
  end.

(** The pairs whose iteration the sweep of an image enters. *)
Definition entered (w : World) (file_path output_dir : string) : list (float * Z) :=
  reached (write_fails w file_path output_dir) pairs.

(** The pairs of an image that have a document after its sweep. *)
Definition documented (w : World) (file_path output_dir : string) : list (float * Z) :=
  filter (kept w file_path output_dir) (entered w file_path output_dir).


(** The naming rule of the artifact in the words of the specification: the
    scale suffix is left out at scale 1.0, the quality suffix at quality 100,
    and ["original"] stands for both left out. *)
Definition spec_output_filename (name : string) (scale_factor : float) (quality : Z)
  : outcome string :=
  if eqb scale_factor (of_int 1) && (quality =? 100)
  then Ret (name ^^ "_original_combined.jpg")
  else
    pct <- scale_percent scale_factor ;;
    Ret (name
         ^^ (if eqb scale_factor (of_int 1) then "" else "_s" ^^ str_of_int pct)
         ^^ (if quality =? 100 then "" else "_q" ^^ str_of_int quality)
         ^^ "_combined.jpg").

(** The names of the 18 artifacts of an image, after the stem. *)
Definition artifact_suffixes : list string :=
  [ "_original"; "_q90"; "_q70"; "_q50"; "_q30"; "_q10";
    "_s66_q100"; "_s66_q90"; "_s66_q70"; "_s66_q50"; "_s66_q30"; "_s66_q10";
    "_s33_q100"; "_s33_q90"; "_s33_q70"; "_s33_q50"; "_s33_q30"; "_s33_q10" ].

(** A scale for which the banner and the file names can be computed. *)
Definition printable (scale_factor : float) : Prop :=
  (exists d, effective_max_dimension 896 scale_factor = Ret d) /\
  (exists p, scale_percent scale_factor = Ret p).

(** [n] characters are estimated at most as wide as the usable width: the
    test under which a line is drawn without wrapping. *)
Definition within (text_width n : Z) : Prop :=
  exists px, estimate n = Ret px /\ px <= text_width - 20.

(** No character of [s] is a space. *)
Fixpoint spaceless (s : string) : bool :=
  match s with
  | EmptyString => true
  | String c rest => negb (is_space c) && spaceless rest
  end.

(** The character [c] does not occur in [s]. *)
Fixpoint lacks (c : ascii) (s : string) : bool :=
  match s with
  | EmptyString => true
  | String a rest => negb (Ascii.eqb a c) && lacks c rest
  end.

(** The extensions [main] takes for images. *)
Definition image_extensions : list string := [".png"; ".jpg"; ".jpeg"].

(** The artifact of a pair, when rendering its result returns. *)
Definition rendering (w : World) (file_path output_dir : string) (sq : float * Z)
  : list (string * canvas) :=
  match render w file_path (result_of w file_path sq) output_dir with
  | Ret artifact => [artifact]
  | Raise _ => []
  end.

(** The artifact that the iteration of a pair saves, if any. *)
Definition saved (w : World) (file_path output_dir : string) (sq : float * Z)
  : list (string * canvas) :=
  if kept w file_path output_dir sq then rendering w file_path output_dir sq else [].

(** The state [st'] is [st] after the iterations of the pairs [l]. *)
Definition advanced (w : World) (file_path output_dir : string) (l : list (float * Z))
    (st st' : state) : Prop :=
  results st' = results st ++ map (result_of w file_path) l /\
  json_docs st' = json_docs st ++ flat_map (persisted w file_path output_dir) l /\
  artifacts st' = artifacts st ++ flat_map (saved w file_path output_dir) l /\
  directories st' = directories st.

(** A loop ends normally, or by an exception when an iteration stopped it. *)
Definition left_by (stopped : bool) (out : outcome unit) : Prop :=
  if stopped then exists e, out = Raise e else out = Ret tt.

(** What the specification says of the response of a successful result: the
    content of the message of the first choice of the reply; the text of that
    choice when it has no message, or the empty string when it has no text
    either; and [None] when the reply has no first choice. *)
Inductive carried (reply : value) : value -> Prop :=
| carried_nothing :
    py_contains "choices" reply = Ret false -> carried reply VNone
| carried_no_choice (choices : value) :
    py_getitem reply "choices" = Ret choices -> py_len choices = Ret 0 ->
    carried reply VNone
| carried_content (choices first message content : value) :
    py_getitem reply "choices" = Ret choices -> py_first choices = Ret first ->
    py_getitem first "message" = Ret message ->
    py_getitem message "content" = Ret content ->
    carried reply content
| carried_text (choices first text : value) :
    py_getitem reply "choices" = Ret choices -> py_first choices = Ret first ->
    py_contains "message" first = Ret false ->
    py_get first "text" (VStr "") = Ret text ->
    carried reply text.

(** The ordinates [ys] start at [y] and step by the line height. *)
Fixpoint evenly_spaced (y : Z) (ys : list Z) : Prop :=
  match ys with
  | [] => True
  | y0 :: rest => y0 = y /\ evenly_spaced (y + line_height) rest
  end.

(** The results of the images of a run, image by image, when every sweep runs
    through. *)
Definition results_of (w : World) (files : list string) : list dict :=
  flat_map (fun file_path => map (result_of w file_path) pairs) files.

(** The results of the images of a run, image by image. *)
Definition results_of_run (w : World) (output_dir : string) (files : list string)
  : list dict :=
  flat_map (fun file_path => map (result_of w file_path) (entered w file_path output_dir))
           files.

(** The same world as [answering], except that no document can be written. *)
Definition unwritable : World :=
  {| w_open := w_open (answering "");
     w_encode := w_encode (answering "");
     w_post := w_post (answering "a cat");
     w_time_start := w_time_start (answering "");
     w_time_end := w_time_end (answering "");
     w_now := w_now (answering "");
     w_str_exn := w_str_exn (answering "");
     w_str := w_str (answering "");
     w_format_2f := w_format_2f (answering "");
     w_compose := w_compose (answering "");
     w_write_json := fun _ _ => Raise (OSError "[Errno 36] File name too long");
     w_max_str_digits := w_max_str_digits (answering "") |}.

(** The value of an outcome that did not raise. *)
Definition returned {A : Type} (default : A) (m : outcome A) : A :=
  match m with Ret a => a | Raise _ => default end.

Definition blank : canvas :=
  {| c_size := (0, 0); c_image := (0, 0); c_settings := []; c_separator := 0;
     c_response := [] |}.

(** A response with a word too long for the panel of a 298-pixel image. *)
Definition long_response : string :=
  "a cat on a supercalifragilisticexpialidociousandmorewords mat".

(** A directory with two images, in two sub-directories, and a text file. *)
Definition two_images : FileSystem :=
  {| fs_isdir := fun dir => String.eqb dir "imgs";
     fs_makedirs := fun _ => Ret tt;
     fs_walk := fun _ => [("imgs/a", ["cat.PNG"; "notes.txt"]); ("imgs/b", ["cat.jpeg"])] |}.

Definition plain_args : Args :=
  {| arg_dir := "imgs"; arg_api_url := "http://localhost:5001";
     arg_api_password := ""; arg_output_dir := None |}.

(** A world whose endpoint answers with the given reply. *)
Definition replying (reply : value) : World :=
  {| w_open := w_open (answering "");
     w_encode := w_encode (answering "");
     w_post := fun _ _ _ _ => Ret reply;
     w_time_start := w_time_start (answering "");
     w_time_end := w_time_end (answering "");
     w_now := w_now (answering "");
     w_str_exn := fun e => match e with KeyError k => "'" ^^ k ^^ "'" | _ => "error" end;
     w_str := w_str (answering "");
     w_format_2f := w_format_2f (answering "");
     w_compose := w_compose (answering "");
     w_write_json := w_write_json (answering "");
     w_max_str_digits := w_max_str_digits (answering "") |}.

(* ================================================================= *)
(** ** Binary64 arithmetic: rounding and its error *)

(** [digits2_pos p] is the number of binary digits of [p]. *)
Lemma digits2_pos_bounds (p : positive) :
  2 ^ (Zpos (digits2_pos p) - 1) <= Zpos p < 2 ^ (Zpos (digits2_pos p)).
Proof.
  induction p as [p IH|p IH|]; cbn [digits2_pos].
  - rewrite Pos2Z.inj_succ.
    replace (Z.succ (Zpos (digits2_pos p)) - 1) with (Z.succ (Zpos (digits2_pos p) - 1)) by lia.
    rewrite !Z.pow_succ_r by lia. lia.
  - rewrite Pos2Z.inj_succ.
    replace (Z.succ (Zpos (digits2_pos p)) - 1) with (Z.succ (Zpos (digits2_pos p) - 1)) by lia.
    rewrite !Z.pow_succ_r by lia. lia.
  - cbn. lia.
Qed.

(** One right shift halves the mantissa, moves its last bit into the round
    bit and the old round bit into the sticky bit. *)
Lemma shr_1_nonneg (m : Z) (r s : bool) :
  0 <= m ->
  shr_1 (Build_shr_record m r s) = Build_shr_record (m / 2) (Z.odd m) (r || s).
Proof.
  intros Hm. destruct m as [|[p|p|]|]; try lia; cbn [shr_1].
  - reflexivity.
  - f_equal. rewrite (Pos2Z.inj_xI p). 
    rewrite Z.add_comm, Z.mul_comm, Z.div_add by lia. reflexivity.
  - f_equal. rewrite (Pos2Z.inj_xO p). rewrite Z.mul_comm, Z.div_mul by lia. reflexivity.
  - reflexivity.
Qed.

(** A right shift keeps the record located, for a denominator twice as large. *)
Lemma located_shr_1 (n d : Z) (mrs : shr_record) :
  located n d mrs -> located n (2 * d) (shr_1 mrs).
Proof.
  destruct mrs as [m r s]. intros (Hd & Hn & Hm & Hr & Hs). cbn [shr_m shr_r shr_s] in *.
  assert (Hm0 : 0 <= m) by (subst m; apply Z.div_pos; lia).
  rewrite shr_1_nonneg by exact Hm0. 
  pose proof (Z.div_mod n d ltac:(lia)) as E1.
  pose proof (Z.mod_pos_bound n d Hd) as B1.
  pose proof (Z.div_mod m 2 ltac:(lia)) as E2.
  pose proof (Z.mod_pos_bound m 2 ltac:(lia)) as B2.
  assert (Hq : n / (2 * d) = m / 2).
  { subst m. rewrite (Z.mul_comm 2 d), Z.div_div by lia. reflexivity. }
  assert (Hmod : n mod (2 * d) = (m mod 2) * d + n mod d).
  { pose proof (Z.div_mod n (2 * d) ltac:(lia)) as E3. rewrite Hq in E3. subst m. nia. }
  split; [lia|]. split; [lia|]. cbn [shr_m shr_r shr_s].
  split; [symmetry; exact Hq|]. split.
  - rewrite Hmod. rewrite Zodd_mod. 
    destruct (Z.eqb_spec (m mod 2) 1) as [H1|H1].
    + symmetry. apply Z.leb_le. nia.
    + symmetry. apply Z.leb_gt. assert (m mod 2 = 0) by lia. nia.
  - rewrite Hmod. rewrite Hr, Hs.
    assert (Hx : (2 * (m mod 2 * d + n mod d)) mod (2 * d) = 2 * (n mod d)).
    { assert (m mod 2 = 0 \/ m mod 2 = 1) as [H0|H0] by lia; rewrite H0.
      - rewrite Z.mod_small by lia. lia.
      - replace (2 * (1 * d + n mod d)) with (2 * (n mod d) + 1 * (2 * d)) by lia.
        rewrite Z.mod_add by lia. rewrite Z.mod_small by lia. lia. }
    rewrite Hx.
    destruct (Z.leb_spec d (2 * (n mod d))) as [L|L]; cbn [orb].
    + destruct (Z.eqb_spec (2 * (n mod d)) 0); [lia|reflexivity].
    + rewrite (Z.mod_small (2 * (n mod d)) d) by lia. reflexivity.
Qed.

(** So do [k] right shifts, for the denominator [d * 2^k]. *)
Lemma located_iter (k : positive) : forall n d mrs,
  located n d mrs -> located n (d * 2 ^ Zpos k) (SpecFloat.iter_pos shr_1 k mrs).
Proof.
  induction k as [k IH|k IH|]; intros n d mrs H; cbn [SpecFloat.iter_pos].
  - apply located_shr_1 in H. apply IH in H. apply IH in H.
    replace (d * 2 ^ Zpos k~1) with (2 * d * 2 ^ Zpos k * 2 ^ Zpos k); [exact H|].
    replace (Zpos k~1) with (1 + Zpos k + Zpos k) by lia.
    rewrite !Z.pow_add_r by lia. lia.
  - apply IH in H. apply IH in H.
    replace (d * 2 ^ Zpos k~0) with (d * 2 ^ Zpos k * 2 ^ Zpos k); [exact H|].
    replace (Zpos k~0) with (Zpos k + Zpos k) by lia.
    rewrite !Z.pow_add_r by lia. lia.
  - apply located_shr_1 in H. 
    replace (d * 2 ^ 1) with (2 * d) by lia. exact H.
Qed.

(** A number between [2^(k-1)] and [2^k] has [k] digits. *)
Lemma digits2_pos_unique (q : positive) (k : Z) :
  2 ^ (k - 1) <= Zpos q < 2 ^ k -> Zpos (digits2_pos q) = k.
Proof.
  intros [Hlo Hhi]. pose proof (digits2_pos_bounds q) as [Blo Bhi].
  set (dg := Zpos (digits2_pos q)) in *.
  assert (0 < dg) by (unfold dg; lia).
  assert (0 < k).
  { destruct (Z_lt_le_dec 0 k); [assumption|].
    assert (2 ^ k <= 2 ^ 0) by (apply Z.pow_le_mono_r; lia). 
    change (2 ^ 0) with 1 in *. lia. }
  destruct (Z.lt_trichotomy dg k) as [L|[E|G]]; [|exact E|].
  - assert (2 ^ dg <= 2 ^ (k - 1)) by (apply Z.pow_le_mono_r; lia). lia.
  - assert (2 ^ k <= 2 ^ (dg - 1)) by (apply Z.pow_le_mono_r; lia). lia.
Qed.

(** Rounding a located record to nearest even gives the nearest integer to
    the quotient it locates. *)
Lemma round_located (n d : Z) (mrs : shr_record) :
  located n d mrs ->
  round_nearest_even (shr_m mrs) (loc_of_shr_record mrs) = rne n d.
Proof.
  destruct mrs as [m r s]. intros (Hd & Hn & Hm & Hr & Hs). cbn [shr_m shr_r shr_s] in *.
  pose proof (Z.mod_pos_bound n d Hd) as B1.
  unfold rne. rewrite <- Hm.
  destruct (Z.compare_spec (2 * (n mod d)) d) as [E|L|G].
  - assert (r = true) by (rewrite Hr; apply Z.leb_le; lia).
    assert (s = false) by (rewrite Hs, E, Z.mod_same by lia; reflexivity).
    clear Hr Hs; subst r s. reflexivity.
  - assert (r = false) by (rewrite Hr; apply Z.leb_gt; lia).
    clear Hr; subst r. cbn. destruct s; reflexivity.
  - assert (r = true) by (rewrite Hr; apply Z.leb_le; lia).
    assert (s = true).
    { rewrite Hs. replace (2 * (n mod d)) with ((2 * (n mod d) - d) + 1 * d) by lia.
      rewrite Z.mod_add, Z.mod_small by lia.
      destruct (Z.eqb_spec (2 * (n mod d) - d) 0); [lia|reflexivity]. }
    clear Hr Hs; subst r s. reflexivity.
Qed.

(** The nearest integer is within one half of the quotient. *)
Lemma rne_bounds (n d : Z) :
  0 < d -> 0 <= n ->
  n / d <= rne n d <= n / d + 1 /\
  2 * rne n d * d - d <= 2 * n <= 2 * rne n d * d + d.
Proof.
  intros Hd Hn. pose proof (Z.mod_pos_bound n d Hd) as B1.
  pose proof (Z.div_mod n d ltac:(lia)) as E1.
  unfold rne. 
  destruct (Z.compare_spec (2 * (n mod d)) d) as [E|L|G];
    [destruct (Z.even (n / d))| |]; split; nia.
Qed.

(** In the normal range the exponent of a number of magnitude [e] is [e - 53]. *)
Lemma fexp_normal (e : Z) : -1021 <= e -> fexp 53 1024 e = e - 53.
Proof. intros H. unfold fexp, emin. lia. Qed.

(** [shr] by [k >= 0] positions. *)
Lemma located_shr (n d : Z) (mrs : shr_record) (e k : Z) :
  located n d mrs -> 0 <= k ->
  located n (d * 2 ^ k) (fst (shr mrs e k)) /\ snd (shr mrs e k) = e + k.
Proof.
  intros H Hk. destruct k as [|q|q]; try lia; cbn [shr fst snd].
  - rewrite Z.mul_1_r. split; [exact H|lia].
  - split; [apply located_iter; exact H|reflexivity].
Qed.

(** An integer mantissa locates itself. *)
Lemma located_exact (m : Z) : 0 <= m -> located m 1 (shr_record_of_loc m loc_Exact).
Proof.
  intros H. unfold located; cbn. rewrite Z.div_1_r, Z.mod_1_r. 
  repeat split; try lia.
Qed.

(** [binary_round_aux] on a mantissa of at least 53 digits, away from overflow
    and underflow: the result is the quotient rounded to 53 digits, renormalised
    when the rounding carries into a 54th digit. *)
Lemma round_aux_Z (p : positive) (ex : Z) (lx : location) (n d : Z) :
  located n d (shr_record_of_loc (Zpos p) lx) ->
  2 ^ 52 <= Zpos p ->
  -1000 <= ex -> ex + Zpos (digits2_pos p) <= 1000 ->
  let k := Zpos (digits2_pos p) - 53 in
  let m1 := rne n (d * 2 ^ k) in
  0 <= k /\ 2 ^ 52 <= n / (d * 2 ^ k) < 2 ^ 53 /\
  exists m e,
    binary_round_aux 53 1024 false (Zpos p) ex lx = S754_finite false m e /\
    2 ^ 52 <= Zpos m < 2 ^ 53 /\
    ((e = ex + k /\ Zpos m = m1) \/ (e = ex + k + 1 /\ m1 = 2 ^ 53 /\ Zpos m = 2 ^ 52)).
Proof.
  intros Hloc Hp Hlo Hhi k m1.
  pose proof (digits2_pos_bounds p) as [Dlo Dhi].
  set (dg := Zpos (digits2_pos p)) in *.
  assert (Hk : 0 <= k).
  { unfold k. destruct (Z_lt_le_dec dg 53) as [L|L]; [|lia].
    assert (2 ^ dg <= 2 ^ 52) by (apply Z.pow_le_mono_r; lia). lia. }
  assert (Hd : 0 < d) by apply Hloc.
  assert (Hn : 0 <= n) by apply Hloc.
  assert (Hmx : Zpos p = n / d).
  { destruct Hloc as (_ & _ & Hm & _). destruct lx as [|[| |]]; exact Hm. }
  assert (Hpow : 0 < 2 ^ k) by (apply Z.pow_pos_nonneg; lia).
  assert (Hq : n / (d * 2 ^ k) = Zpos p / 2 ^ k).
  { rewrite Hmx, Z.div_div by lia. reflexivity. }
  assert (Hdg : 2 ^ (dg - 1) = 2 ^ 52 * 2 ^ k /\ 2 ^ dg = 2 ^ 53 * 2 ^ k).
  { unfold k. rewrite <- !Z.pow_add_r by lia. split; f_equal; lia. }
  destruct Hdg as [Hdg1 Hdg2].
  assert (Hrange : 2 ^ 52 <= n / (d * 2 ^ k) < 2 ^ 53).
  { rewrite Hq. split.
    - apply Z.div_le_lower_bound; lia.
    - apply Z.div_lt_upper_bound; lia. }
  split; [exact Hk|]. split; [exact Hrange|].
  unfold binary_round_aux, shr_fexp. cbn [Zdigits2]. fold dg.
  rewrite fexp_normal by lia.
  replace (dg + ex - 53 - ex) with k by (unfold k; lia).
  destruct (located_shr n d _ ex k Hloc Hk) as [Hloc1 He1].
  destruct (shr (shr_record_of_loc (Zpos p) lx) ex k) as [mrs1 e1].
  cbn [fst snd] in Hloc1, He1. subst e1.
  rewrite (round_located _ _ _ Hloc1). fold m1.
  assert (Hmul : 0 < d * 2 ^ k) by nia.
  destruct (rne_bounds n (d * 2 ^ k) Hmul Hn) as [Hb _]. fold m1 in Hb.
  assert (Hm1 : 2 ^ 52 <= m1 <= 2 ^ 53) by lia.
  destruct m1 as [|q|q] eqn:Em1; try lia.
  cbn [Zdigits2].
  destruct (Z.eq_dec (Zpos q) (2 ^ 53)) as [Etop|Ntop].
  - (* the rounding carried into a 54th bit *)
    assert (Hdq : Zpos (digits2_pos q) = 54) by (apply digits2_pos_unique; rewrite Etop; cbn; lia).
    rewrite Hdq. rewrite fexp_normal by lia.
    replace (54 + (ex + k) - 53 - (ex + k)) with 1 by lia.
    cbn [shr SpecFloat.iter_pos shr_record_of_loc]. rewrite shr_1_nonneg by lia.
    cbn [shr_m]. rewrite Etop. change (2 ^ 53 / 2) with (Zpos 4503599627370496).
    replace (ex + k + 1 <=? 1024 - 53) with true by (symmetry; apply Z.leb_le; unfold k; lia).
    eexists _, _. split; [reflexivity|]. split; [cbn; lia|]. right. 
    split; [reflexivity|]. split; reflexivity.
  - assert (Hdq : Zpos (digits2_pos q) = 53) by (apply digits2_pos_unique; lia).
    rewrite Hdq. rewrite fexp_normal by lia.
    replace (53 + (ex + k) - 53 - (ex + k)) with 0 by lia.
    cbn [shr shr_record_of_loc shr_m].
    replace (ex + k <=? 1024 - 53) with true by (symmetry; apply Z.leb_le; unfold k; lia).
    eexists _, _. split; [reflexivity|]. split; [lia|]. left. split; reflexivity.
Qed.

Lemma powerRZ_2_pos (e : Z) : (0 < powerRZ 2 e)%R.
Proof. apply powerRZ_lt. lra. Qed.

(** Powers of two, as integers and as reals. *)
Lemma IZR_pow2 (k : Z) : 0 <= k -> IZR (2 ^ k) = powerRZ 2 k.
Proof.
  intros Hk. destruct k as [|q|q]; try lia.
  - reflexivity.
  - change (2 ^ Zpos q) with (Z.pow_pos 2 q). apply Zpower_pos_powerRZ.
Qed.

(** The same in the reals: the result is within the relative error [2^-53] of
    the number [n / d * 2^ex] that was rounded. *)
Lemma round_aux_R (p : positive) (ex : Z) (lx : location) (n d : Z) :
  located n d (shr_record_of_loc (Zpos p) lx) ->
  2 ^ 52 <= Zpos p ->
  -1000 <= ex -> ex + Zpos (digits2_pos p) <= 1000 ->
  let k := Zpos (digits2_pos p) - 53 in
  let X := (IZR n / IZR d * powerRZ 2 ex)%R in
  exists m e,
    binary_round_aux 53 1024 false (Zpos p) ex lx = S754_finite false m e /\
    2 ^ 52 <= Zpos m < 2 ^ 53 /\
    ex + k <= e <= ex + k + 1 /\
    (Rabs (IZR (Zpos m) * powerRZ 2 e - X) <= X * ulp_half)%R.
Proof.
  intros Hloc Hp Hlo Hhi k X.
  destruct (round_aux_Z p ex lx n d Hloc Hp Hlo Hhi) as (Hk & Hrange & m & e & Heq & Hm & Hcase).
  fold k in Hk, Hrange, Hcase.
  assert (Hd : 0 < d) by apply Hloc.
  assert (Hn : 0 <= n) by apply Hloc.
  assert (Hpow : 0 < 2 ^ k) by (apply Z.pow_pos_nonneg; lia).
  assert (HD : 0 < d * 2 ^ k) by nia.
  destruct (rne_bounds n (d * 2 ^ k) HD Hn) as [_ [Hb1 Hb2]].
  set (m1 := rne n (d * 2 ^ k)) in *.
  assert (Hnlow : 2 ^ 52 * (d * 2 ^ k) <= n).
  { pose proof (Z.mul_div_le n (d * 2 ^ k) HD). nia. }
  exists m, e. split; [exact Heq|]. split; [exact Hm|]. split; [lia|].
  assert (HV : (IZR (Zpos m) * powerRZ 2 e = IZR m1 * (powerRZ 2 ex * IZR (2 ^ k)))%R).
  { rewrite (IZR_pow2 k Hk). rewrite <- powerRZ_add by lra.
    destruct Hcase as [[He Hm1]|[He [Hm1 Hm52]]].
    - rewrite He, Hm1. reflexivity.
    - rewrite He, Hm1, Hm52. rewrite powerRZ_add by lra.
      change (powerRZ 2 1) with (2 * 1)%R. 
      change (2 ^ 53) with (2 ^ 52 * 2). rewrite mult_IZR. lra. }
  rewrite HV. unfold X, ulp_half.
  set (P := powerRZ 2 ex). assert (HP : (0 < P)%R) by apply powerRZ_2_pos.
  set (K := IZR (2 ^ k)). assert (HK : (0 < K)%R) by (apply IZR_lt; exact Hpow).
  set (dR := IZR d). assert (HdR : (0 < dR)%R) by (apply IZR_lt; exact Hd).
  set (nR := IZR n). set (mR := IZR m1).
  assert (Hz1 : (2 * mR * (dR * K) - dR * K <= 2 * nR)%R).
  { unfold mR, dR, K, nR. rewrite <- !mult_IZR, <- minus_IZR. apply IZR_le. lia. }
  assert (Hz2 : (2 * nR <= 2 * mR * (dR * K) + dR * K)%R).
  { unfold mR, dR, K, nR. rewrite <- !mult_IZR, <- plus_IZR. apply IZR_le. lia. }
  assert (Hz3 : (IZR (2 ^ 52) * (dR * K) <= nR)%R).
  { unfold dR, K, nR. rewrite <- !mult_IZR. apply IZR_le. lia. }
  set (t := (P / dR)%R). assert (Ht : (0 < t)%R) by (apply Rdiv_lt_0_compat; assumption).
  replace (mR * (P * K) - nR / dR * P)%R with (t * (mR * (dR * K) - nR))%R
    by (unfold t; field; lra).
  replace (nR / dR * P * / IZR (2 ^ 53))%R with (t * (nR / IZR (2 ^ 53)))%R
    by (unfold t; field; split; [apply not_0_IZR; lia | lra]).
  rewrite Rabs_mult, (Rabs_pos_eq t) by lra.
  apply Rmult_le_compat_l; [lra|].
  set (W := (dR * K)%R) in *.
  change (2 ^ 52) with 4503599627370496 in Hz3.
  change (2 ^ 53) with 9007199254740992.
  apply Rabs_le. lra.
Qed.

Lemma normal_pos lo hi x : normal lo hi x -> (0 < F2R x)%R.
Proof.
  intros (m & e & -> & Hm & _). cbn [F2R].
  pose proof (powerRZ_2_pos e). assert (0 < IZR (Zpos m))%R by (apply IZR_lt; lia). nra.
Qed.

Lemma iter_xO (d p : positive) : Zpos (Pos.iter xO p d) = Zpos p * 2 ^ Zpos d.
Proof.
  induction d as [|d IH] using Pos.peano_ind.
  - cbn. lia.
  - rewrite Pos.iter_succ, Pos2Z.inj_succ, Z.pow_succ_r by lia.
    rewrite Pos2Z.inj_xO, IH. lia.
Qed.

Lemma rne_exact (n : Z) : rne n 1 = n.
Proof. unfold rne. rewrite Z.mod_1_r, Z.div_1_r. reflexivity. Qed.

(** An integer below [2^53] converts exactly. *)
Lemma of_int_spec (z : Z) :
  0 < z < 2 ^ 53 -> normal (-52) 0 (of_int z) /\ F2R (of_int z) = IZR z.
Proof.
  intros [Hz0 Hz1]. destruct z as [|p|p]; try lia.
  unfold of_int, binary_normalize, binary_round, prec, emax.
  pose proof (digits2_pos_bounds p) as [Dlo Dhi].
  set (dg := Zpos (digits2_pos p)) in *.
  assert (Hdg1 : 1 <= dg) by (unfold dg; lia).
  assert (Hdg : dg <= 53).
  { destruct (Z_lt_le_dec 53 dg) as [L|L]; [|lia].
    assert (2 ^ 53 <= 2 ^ (dg - 1)) by (apply Z.pow_le_mono_r; lia). lia. }
  rewrite Z.add_0_r. rewrite fexp_normal by lia.
  unfold shl_align.
  assert (Hal : exists mz, 
     (match dg - 53 - 0 with Zneg d => (Pos.iter xO p d, dg - 53) | _ => (p, 0) end) = (mz, dg - 53)
     /\ Zpos mz = Zpos p * 2 ^ (53 - dg)).
  { destruct (dg - 53 - 0) as [|q|q] eqn:Eq; try lia.
    - exists p. replace (dg - 53) with 0 by lia. replace (53 - dg) with 0 by lia.
      split; [reflexivity|lia].
    - exists (Pos.iter xO p q). split; [reflexivity|].
      rewrite iter_xO. f_equal. f_equal. lia. }
  destruct Hal as (mz & -> & Hmz).
  assert (Hpw : 2 ^ 52 = 2 ^ (dg - 1) * 2 ^ (53 - dg) /\ 2 ^ 53 = 2 ^ dg * 2 ^ (53 - dg)).
  { rewrite <- !Z.pow_add_r by lia. split; f_equal; lia. }
  destruct Hpw as [Hpw1 Hpw2].
  assert (Hs : 0 < 2 ^ (53 - dg)) by (apply Z.pow_pos_nonneg; lia).
  assert (Hmzr : 2 ^ 52 <= Zpos mz < 2 ^ 53) by (rewrite Hmz, Hpw1, Hpw2; nia).
  assert (Hdz : Zpos (digits2_pos mz) = 53) by (apply digits2_pos_unique; exact Hmzr).
  destruct (round_aux_Z mz (dg - 53) loc_Exact (Zpos mz) 1 (located_exact (Zpos mz) ltac:(lia))
              ltac:(lia) ltac:(lia) ltac:(lia))
    as (_ & _ & m & e & Heq & Hm & Hcase).
  rewrite Hdz in Hcase. change (53 - 53) with 0 in Hcase. 
  rewrite Z.mul_1_l, rne_exact in Hcase. rewrite Heq.
  destruct Hcase as [[He Hm1]|[He [Hm1 _]]]; [|lia].
  split.
  - exists m, e. split; [reflexivity|]. split; [exact Hm|lia].
  - cbn [F2R]. rewrite Hm1, Hmz, He, Z.add_0_r, mult_IZR, IZR_pow2 by lia.
    rewrite Rmult_1_l, Rmult_assoc, <- powerRZ_add by lra.
    replace (53 - dg + (dg - 53)) with 0 by lia. cbn. lra.
Qed.

(** The product of two normal doubles is their real product rounded once. *)
Lemma mul_spec (x y : float) (lo1 hi1 lo2 hi2 : Z) :
  normal lo1 hi1 x -> normal lo2 hi2 y ->
  -400 <= lo1 -> hi1 <= 400 -> -400 <= lo2 -> hi2 <= 400 ->
  normal (lo1 + lo2 + 52) (hi1 + hi2 + 54) (mul x y) /\
  (Rabs (F2R (mul x y) - F2R x * F2R y) <= F2R x * F2R y * ulp_half)%R.
Proof.
  intros (mx & ex & -> & Hmx & Hex) (my & ey & -> & Hmy & Hey) B1 B2 B3 B4.
  unfold mul, SFmul, prec, emax. cbn [xorb].
  pose proof (digits2_pos_bounds (mx * my)) as [Dlo Dhi].
  set (dg := Zpos (digits2_pos (mx * my))) in *.
  assert (Hprod : 2 ^ 104 <= Zpos (mx * my) < 2 ^ 106).
  { rewrite Pos2Z.inj_mul. change (2 ^ 104) with (2 ^ 52 * 2 ^ 52).
    change (2 ^ 106) with (2 ^ 53 * 2 ^ 53). nia. }
  assert (Hdg : 105 <= dg <= 106).
  { assert (0 < dg) by (unfold dg; lia). split.
    - destruct (Z_lt_le_dec dg 105) as [L|L]; [|lia].
      assert (2 ^ dg <= 2 ^ 104) by (apply Z.pow_le_mono_r; lia). lia.
    - destruct (Z_lt_le_dec 106 dg) as [L|L]; [|lia].
      assert (2 ^ 106 <= 2 ^ (dg - 1)) by (apply Z.pow_le_mono_r; lia). lia. }
  destruct (round_aux_R (mx * my) (ex + ey) loc_Exact (Zpos (mx * my)) 1
              (located_exact (Zpos (mx * my)) ltac:(lia)))
    as (m & e & Heq & Hm & He & Herr).
  { apply Z.le_trans with (2 ^ 104); [discriminate|apply Hprod]. }
  { lia. }
  { fold dg. lia. }
  fold dg in He. rewrite Heq. split.
  - exists m, e. split; [reflexivity|]. split; [exact Hm|lia].
  - cbn [F2R]. rewrite Pos2Z.inj_mul, mult_IZR, powerRZ_add in Herr by lra.
    replace (1 * IZR (Zpos mx) * powerRZ 2 ex * (1 * IZR (Zpos my) * powerRZ 2 ey))%R
      with (IZR (Zpos mx) * IZR (Zpos my) / 1 * (powerRZ 2 ex * powerRZ 2 ey))%R by (field; lra).
    rewrite Rmult_1_l. exact Herr.
Qed.

(** The location computed by the division locates the quotient. *)
Lemma located_new_location (n d : Z) :
  0 <= n -> 0 < d ->
  located n d (shr_record_of_loc (n / d) (new_location d (n mod d))).
Proof.
  intros Hn Hd. pose proof (Z.mod_pos_bound n d Hd) as B.
  set (r := n mod d) in *.
  assert (Hgoal : forall l, 
     shr_r (shr_record_of_loc (n / d) l) = (d <=? 2 * r) ->
     shr_s (shr_record_of_loc (n / d) l) = negb ((2 * r) mod d =? 0) ->
     located n d (shr_record_of_loc (n / d) l)).
  { intros l H1 H2. unfold located. fold r. repeat split; try lia; try assumption.
    destruct l as [|[| |]]; reflexivity. }
  apply Hgoal; unfold new_location, new_location_even, new_location_odd;
    destruct (Z.even d) eqn:Ev; destruct (Z.eqb_spec r 0) as [E0|N0];
    try (rewrite E0; cbn [shr_r shr_s shr_record_of_loc]; symmetry; apply Z.leb_gt; lia);
    try (rewrite E0; cbn [shr_r shr_s shr_record_of_loc]; reflexivity).
  - destruct (Z.compare_spec (2 * r) d); cbn [shr_r shr_s shr_record_of_loc]; symmetry;
      (apply Z.leb_le; lia) || (apply Z.leb_gt; lia).
  - destruct (Z.compare_spec (2 * r + 1) d); cbn [shr_r shr_s shr_record_of_loc]; symmetry;
      (apply Z.leb_gt; lia) || (apply Z.leb_le; lia).
  - destruct (Z.compare_spec (2 * r) d) as [E|L|G]; cbn [shr_r shr_s shr_record_of_loc].
    + rewrite E, Z.mod_same by lia. reflexivity.
    + rewrite Z.mod_small by lia. destruct (Z.eqb_spec (2 * r) 0); [lia|reflexivity].
    + replace (2 * r) with (2 * r - d + 1 * d) by lia.
      rewrite Z.mod_add, Z.mod_small by lia.
      destruct (Z.eqb_spec (2 * r - d) 0); [lia|reflexivity].
  - assert (Hodd : d mod 2 = 1).
    { rewrite Zeven_mod in Ev. pose proof (Z.mod_pos_bound d 2 ltac:(lia)).
      destruct (Z.eqb_spec (d mod 2) 0); [discriminate|lia]. }
    pose proof (Z.div_mod d 2 ltac:(lia)) as Ed.
    destruct (Z.compare_spec (2 * r + 1) d) as [E|L|G]; cbn [shr_r shr_s shr_record_of_loc].
    + rewrite Z.mod_small by lia. destruct (Z.eqb_spec (2 * r) 0); [lia|reflexivity].
    + rewrite Z.mod_small by lia. destruct (Z.eqb_spec (2 * r) 0); [lia|reflexivity].
    + replace (2 * r) with (2 * r - d + 1 * d) by lia.
      rewrite Z.mod_add, Z.mod_small by lia.
      destruct (Z.eqb_spec (2 * r - d) 0); [lia|reflexivity].
Qed.

(** The quotient of two normal doubles is their real quotient rounded once. *)
Lemma div_spec (x y : float) (lo1 hi1 lo2 hi2 : Z) :
  normal lo1 hi1 x -> normal lo2 hi2 y ->
  -400 <= lo1 -> hi1 <= 400 -> -400 <= lo2 -> hi2 <= 400 ->
  normal (lo1 - hi2 - 53) (hi1 - lo2 - 51) (div x y) /\
  (Rabs (F2R (div x y) - F2R x / F2R y) <= F2R x / F2R y * ulp_half)%R.
Proof.
  intros (mx & ex & -> & Hmx & Hex) (my & ey & -> & Hmy & Hey) B1 B2 B3 B4.
  unfold div, SFdiv, SFdiv_core_binary, prec, emax. cbn [xorb Zdigits2].
  rewrite (digits2_pos_unique mx 53 Hmx), (digits2_pos_unique my 53 Hmy).
  rewrite fexp_normal by lia.
  replace (Z.min (53 + ex - (53 + ey) - 53) (ex - ey)) with (ex - ey - 53) by lia.
  replace (ex - ey - (ex - ey - 53)) with 53 by lia.
  rewrite Z.shiftl_mul_pow2 by lia.
  set (n := Zpos mx * 2 ^ 53).
  assert (Hn : 2 ^ 105 <= n < 2 ^ 106).
  { unfold n. change (2 ^ 105) with (2 ^ 52 * 2 ^ 53). change (2 ^ 106) with (2 ^ 53 * 2 ^ 53).
    nia. }
  assert (Hn0 : 0 <= n) by (unfold n; lia).
  pose proof (located_new_location n (Zpos my) Hn0 ltac:(lia)) as Hloc.
  unfold Z.div, Z.modulo in Hloc.
  pose proof (Z.div_mod n (Zpos my) ltac:(lia)) as Edm.
  pose proof (Z.mod_pos_bound n (Zpos my) ltac:(lia)) as Bm.
  unfold Z.div, Z.modulo in Edm, Bm.
  destruct (Z.div_eucl n (Zpos my)) as [q r].
  assert (Hq : 2 ^ 52 <= q < 2 ^ 54).
  { change (2 ^ 105) with (2 ^ 52 * 2 ^ 53) in Hn. change (2 ^ 106) with (2 ^ 52 * 2 ^ 54) in Hn.
    nia. }
  destruct q as [|pq|pq]; try lia.
  pose proof (digits2_pos_bounds pq) as [Dlo Dhi].
  set (dg := Zpos (digits2_pos pq)) in *.
  assert (Hdg : 53 <= dg <= 54).
  { assert (0 < dg) by (unfold dg; lia). split.
    - destruct (Z_lt_le_dec dg 53) as [L|L]; [|lia].
      assert (2 ^ dg <= 2 ^ 52) by (apply Z.pow_le_mono_r; lia). lia.
    - destruct (Z_lt_le_dec 54 dg) as [L|L]; [|lia].
      assert (2 ^ 54 <= 2 ^ (dg - 1)) by (apply Z.pow_le_mono_r; lia). lia. }
  destruct (round_aux_R pq (ex - ey - 53) _ n (Zpos my) Hloc)
    as (m & e & Heq & Hm & He & Herr); [lia|lia|fold dg; lia|].
  fold dg in He. rewrite Heq. split.
  - exists m, e. split; [reflexivity|]. split; [exact Hm|lia].
  - cbn [F2R]. 
    replace (1 * IZR (Zpos mx) * powerRZ 2 ex / (1 * IZR (Zpos my) * powerRZ 2 ey))%R
      with (IZR n / IZR (Zpos my) * powerRZ 2 (ex - ey - 53))%R; [rewrite Rmult_1_l; exact Herr|].
    unfold n. rewrite mult_IZR, IZR_pow2 by lia.
    replace (ex - ey - 53) with (ex + (- ey + - 53)) by lia.
    rewrite !powerRZ_add by lra.
    assert (H1 : (powerRZ 2 53 * powerRZ 2 (-53) = 1)%R) by (rewrite <- powerRZ_add by lra; reflexivity).
    assert (H2 : (powerRZ 2 ey * powerRZ 2 (- ey) = 1)%R).
    { rewrite <- powerRZ_add by lra. rewrite Z.add_opp_diag_r. reflexivity. }
    pose proof (powerRZ_2_pos ey). pose proof (powerRZ_2_pos (- ey)).
    pose proof (powerRZ_2_pos 53). pose proof (powerRZ_2_pos (- 53)).
    assert (0 < IZR (Zpos my))%R by (apply IZR_lt; lia).
    apply Rmult_eq_reg_r with (IZR (Zpos my) * powerRZ 2 ey)%R; [|nra].
    transitivity (IZR (Zpos mx) * powerRZ 2 ex * (powerRZ 2 53 * powerRZ 2 (-53)) * (powerRZ 2 ey * powerRZ 2 (- ey)))%R.
    + field. lra.
    + rewrite H1, H2. field. split; lra.
Qed.

(** [int(x)] of a positive double is its integer part. *)
Lemma to_int_spec (x : float) (lo hi : Z) :
  normal lo hi x ->
  exists k, to_int x = Some k /\ (IZR k <= F2R x < IZR k + 1)%R.
Proof.
  intros (m & e & -> & Hm & _). cbn [to_int F2R]. rewrite Rmult_1_l.
  destruct e as [|p|p].
  - exists (Zpos m). split; [reflexivity|]. cbn. lra.
  - exists (Zpos m * 2 ^ Zpos p). split; [reflexivity|].
    rewrite mult_IZR, IZR_pow2 by lia. lra.
  - exists (Zpos m / 2 ^ (- Zneg p)). split; [reflexivity|].
    set (c := 2 ^ (- Zneg p)). assert (Hc : 0 < c) by (apply Z.pow_pos_nonneg; lia).
    assert (Hpc : (powerRZ 2 (Zneg p) * IZR c = 1)%R).
    { unfold c. rewrite IZR_pow2, <- powerRZ_add by (lra || lia).
      rewrite Z.add_opp_diag_r. reflexivity. }
    pose proof (Z.div_mod (Zpos m) c ltac:(lia)) as Edm.
    pose proof (Z.mod_pos_bound (Zpos m) c Hc) as Bm.
    set (k := Zpos m / c) in *.
    assert (HcR : (0 < IZR c)%R) by (apply IZR_lt; exact Hc).
    assert (Hk1 : (IZR k * IZR c <= IZR (Zpos m))%R).
    { rewrite <- mult_IZR. apply IZR_le. lia. }
    assert (Hk2 : (IZR (Zpos m) < (IZR k + 1) * IZR c)%R).
    { replace ((IZR k + 1) * IZR c)%R with (IZR ((k + 1) * c)) by (rewrite mult_IZR, plus_IZR; reflexivity).
      apply IZR_lt. lia. }
    set (P := powerRZ 2 (Zneg p)) in *. assert (HP : (0 < P)%R) by apply powerRZ_2_pos.
    split.
    + apply Rmult_le_reg_r with (IZR c); [exact HcR|]. 
      rewrite Rmult_assoc, Hpc. lra.
    + apply Rmult_lt_reg_r with (IZR c); [exact HcR|].
      rewrite Rmult_assoc, Hpc. lra.
Qed.

Lemma Rabs_le_inv' (a b c : R) : (Rabs (a - b) <= c)%R -> (b - c <= a <= b + c)%R.
Proof. unfold Rabs. destruct (Rcase_abs (a - b)); lra. Qed.

Lemma to_float_exact (z : Z) : 0 < z < 2 ^ 53 -> to_float z = Ret (of_int z).
Proof.
  intros Hz. destruct (of_int_spec z Hz) as [(m & e & Heq & _) _].
  unfold to_float. rewrite Heq. reflexivity.
Qed.

Lemma py_int_some (x : float) (k : Z) : to_int x = Some k -> py_int x = Ret k.
Proof. intros H. unfold py_int. rewrite H. reflexivity. Qed.

(** The scaled side is the exact quotient [side * bound / long] cut down to an
    integer: never above it, and less than a pixel below, up to the case of an
    exact quotient that the two roundings place just under an integer. *)
Lemma scaled_side_spec (side bound long : Z) :
  0 < side < 2 ^ 53 -> 0 < bound < 2 ^ 53 -> 0 < long < 2 ^ 53 ->
  side * bound < 2 ^ 51 ->
  exists k, scaled_side side bound long = Ret k /\
            k * long <= side * bound <= (k + 1) * long.
Proof.
  intros Hs Hb Hl Hsb.
  destruct (of_int_spec side Hs) as [Ns Vs].
  destruct (of_int_spec bound Hb) as [Nb Vb].
  destruct (of_int_spec long Hl) as [Nl Vl].
  destruct (div_spec _ _ _ _ _ _ Nb Nl ltac:(lia) ltac:(lia) ltac:(lia) ltac:(lia)) as [Nx Ex].
  destruct (mul_spec _ _ _ _ _ _ Ns Nx ltac:(lia) ltac:(lia) ltac:(lia) ltac:(lia)) as [Nf Ef].
  destruct (to_int_spec _ _ _ Nf) as (k & Hk & Bk).
  exists k. split.
  { unfold scaled_side, truediv, int_mul_float.
    replace (long =? 0) with false by (symmetry; apply Z.eqb_neq; lia).
    rewrite (to_float_exact bound Hb), (to_float_exact long Hl). cbn [bind].
    rewrite (to_float_exact side Hs). cbn [bind].
    apply py_int_some. exact Hk. }
  rewrite Vs in Ef. rewrite Vb, Vl in Ex.
  set (x := F2R (div (of_int bound) (of_int long))) in *.
  set (f := F2R (mul (of_int side) (div (of_int bound) (of_int long)))) in *.
  apply Rabs_le_inv' in Ex, Ef.
  set (s := IZR side) in *. set (b := IZR bound) in *. set (l := IZR long) in *.
  assert (Hs0 : (0 < s)%R) by (apply IZR_lt; lia).
  assert (Hb0 : (0 < b)%R) by (apply IZR_lt; lia).
  assert (Hl0 : (0 < l)%R) by (apply IZR_lt; lia).
  assert (Hsb' : (s * b <= IZR (2 ^ 51))%R).
  { unfold s, b. rewrite <- mult_IZR. apply IZR_le. lia. }
  change (2 ^ 51) with 2251799813685248 in Hsb'.
  unfold ulp_half in *. change (2 ^ 53) with 9007199254740992 in Ex, Ef.
  set (u := (/ 9007199254740992)%R) in *.
  assert (Hu : (u = 1 / 9007199254740992)%R) by (unfold u; lra).
  set (Y := (b / l)%R) in *.
  assert (HY : (Y * l = b)%R) by (unfold Y; field; lra).
  assert (HY0 : (0 < Y)%R) by (unfold Y; apply Rdiv_lt_0_compat; assumption).
  assert (Hx0 : (0 <= x)%R) by nra.
  assert (Hu01 : (0 < u < 1 / 4)%R) by lra.
  (* f * l lies within s * b * (1 +- 3u) *)
  assert (Hup : (f * l <= s * b + 3 * u * (s * b))%R).
  { assert (H1 : (s * x <= s * (Y + Y * u))%R) by (apply Rmult_le_compat_l; lra).
    assert (H2 : (s * x * (1 + u) <= s * (Y + Y * u) * (1 + u))%R)
      by (apply Rmult_le_compat_r; lra).
    assert (H3 : (f * l <= s * (Y + Y * u) * (1 + u) * l)%R)
      by (apply Rmult_le_compat_r; lra).
    replace (s * (Y + Y * u) * (1 + u) * l)%R with (s * (Y * l) * ((1 + u) * (1 + u)))%R in H3 by ring.
    rewrite HY in H3.
    assert (H4 : ((1 + u) * (1 + u) <= 1 + 3 * u)%R) by nra.
    assert (H5 : (s * b * ((1 + u) * (1 + u)) <= s * b * (1 + 3 * u))%R)
      by (apply Rmult_le_compat_l; nra).
    lra. }
  assert (Hdn : (s * b - 3 * u * (s * b) <= f * l)%R).
  { assert (H1 : (s * (Y - Y * u) <= s * x)%R) by (apply Rmult_le_compat_l; lra).
    assert (H2 : (s * (Y - Y * u) * (1 - u) <= s * x * (1 - u))%R)
      by (apply Rmult_le_compat_r; lra).
    assert (H3 : (s * (Y - Y * u) * (1 - u) * l <= f * l)%R)
      by (apply Rmult_le_compat_r; lra).
    replace (s * (Y - Y * u) * (1 - u) * l)%R with (s * (Y * l) * ((1 - u) * (1 - u)))%R in H3 by ring.
    rewrite HY in H3.
    assert (H4 : (1 - 3 * u <= (1 - u) * (1 - u))%R) by nra.
    assert (H5 : (s * b * (1 - 3 * u) <= s * b * ((1 - u) * (1 - u)))%R)
      by (apply Rmult_le_compat_l; nra).
    lra. }
  assert (Herr : (3 * u * (s * b) < 1)%R) by (unfold u; lra).
  split.
  - apply Z.lt_succ_r. apply lt_IZR. unfold Z.succ. rewrite plus_IZR, !mult_IZR.
    fold s b l. nra.
  - apply Z.lt_succ_r. apply lt_IZR. unfold Z.succ. rewrite plus_IZR, !mult_IZR, plus_IZR.
    fold s b l. nra.
Qed.

(** The doubles of the program, as CPython prints their mantissas. *)
Example scale_two_thirds : literal 2 3 = S754_finite false 6004799503160661 (-53).
Proof. vm_compute. reflexivity. Qed.

Example scale_one_third : literal 1 3 = S754_finite false 6004799503160661 (-54).
Proof. vm_compute. reflexivity. Qed.

Example effective_bounds :
  map (effective_max_dimension 896) scales = [Ret 896; Ret 597; Ret 298].
Proof. vm_compute. reflexivity. Qed.

Example line_steps : line_height = 16 /\ settings_step = 21.
Proof. vm_compute. split; reflexivity. Qed.

(* ================================================================= *)
(** ** The resize arithmetic *)

(** [display_size] branches in another order than [constrain_size] and
    computes the same size. *)
Lemma display_size_constrain_size (width height bound : Z) :
  display_size width height bound = constrain_size width height bound.
Proof.
  unfold display_size, constrain_size.
  destruct (Z.gtb_spec width height), (Z.gtb_spec width bound), (Z.gtb_spec height bound);
    cbn [orb]; try reflexivity; lia.
Qed.

(** The size after a resize: the longer side is the bound, the other side the
    scaled one. *)
Lemma constrain_size_resized (width height bound : Z) :
  0 < width < 2 ^ 31 -> 0 < height < 2 ^ 31 -> 0 < bound < 2 ^ 20 ->
  bound < Z.max width height ->
  exists k,
    constrain_size width height bound
      = Ret (if width >? height then (bound, k) else (k, bound)) /\
    k * Z.max width height <= Z.min width height * bound <= (k + 1) * Z.max width height.
Proof.
  intros Hw Hh Hb Hlong.
  assert (P31 : 2 ^ 31 < 2 ^ 53) by reflexivity.
  assert (P51 : 2 ^ 31 * 2 ^ 20 = 2 ^ 51) by reflexivity.
  unfold constrain_size.
  replace ((width >? bound) || (height >? bound)) with true.
  2:{ symmetry. apply orb_true_iff. rewrite !Z.gtb_gt. lia. }
  destruct (Z.gtb_spec width height) as [G|G].
  - rewrite Z.max_l, Z.min_r by lia.
    destruct (scaled_side_spec height bound width) as (k & Hk & Bk); try lia; try nia.
    exists k. rewrite Hk. split; [reflexivity|exact Bk].
  - rewrite Z.max_r, Z.min_l by lia.
    destruct (scaled_side_spec width bound height) as (k & Hk & Bk); try lia; try nia.
    exists k. rewrite Hk. split; [reflexivity|exact Bk].
Qed.

(** C2. For image sides below [2^31] and a bound below [2^20], the size
    computed by [process_image] has both sides at most the bound, keeps the
    aspect ratio to within one pixel, pins the longer side to the bound when a
    side exceeds it, and is the input size when both sides are within the
    bound. *)
Theorem C2_constrain_size (width height bound : Z) :
  0 < width < 2 ^ 31 -> 0 < height < 2 ^ 31 -> 0 < bound < 2 ^ 20 ->
  exists new_width new_height,
    constrain_size width height bound = Ret (new_width, new_height) /\
    (new_width <= bound /\ new_height <= bound) /\
    Z.abs (new_width * height - new_height * width) <= Z.max width height /\
    (bound < width \/ bound < height ->
       (height < width -> new_width = bound) /\ (width <= height -> new_height = bound)) /\
    (width <= bound -> height <= bound -> new_width = width /\ new_height = height).
Proof.
  intros Hw Hh Hb.
  destruct (Z_lt_le_dec bound (Z.max width height)) as [Hlong|Hfit].
  - destruct (constrain_size_resized width height bound Hw Hh Hb Hlong) as (k & Hk & Bk).
    destruct (Z.gtb_spec width height) as [G|G].
    + rewrite Z.max_l, Z.min_r in * by lia.
      exists bound, k. split; [exact Hk|]. repeat split; try nia; lia.
    + rewrite Z.max_r, Z.min_l in * by lia.
      exists k, bound. split; [exact Hk|]. repeat split; try nia; lia.
  - exists width, height. unfold constrain_size.
    replace ((width >? bound) || (height >? bound)) with false.
    2:{ destruct (Z.gtb_spec width bound), (Z.gtb_spec height bound); try reflexivity; lia. }
    split; [reflexivity|]. repeat split; try lia.
Qed.

(** C2 at a 1920x1080 image and the bound 298. *)
Lemma C2_constrain_size_witness :
  exists new_width new_height,
    constrain_size 1920 1080 298 = Ret (new_width, new_height) /\
    (new_width <= 298 /\ new_height <= 298) /\
    Z.abs (new_width * 1080 - new_height * 1920) <= Z.max 1920 1080 /\
    (298 < 1920 \/ 298 < 1080 ->
       (1080 < 1920 -> new_width = 298) /\ (1920 <= 1080 -> new_height = 298)) /\
    (1920 <= 298 -> 1080 <= 298 -> new_width = 1920 /\ new_height = 1080).
Proof.
  apply (C2_constrain_size 1920 1080 298); cbn; lia.
Defined.

(** C3, as the code has it.  When a resize occurs the shorter side is the
    product [short * (bound / long)] cut down to an integer, never rounded up:
    it is at most the exact scaled length and within a pixel of it.  The
    bound at scale 1/3 is 298, a 1920x1080 image becomes 298x167, and its
    variant at quality 30 is named [name_q30_s33.jpg]. *)
Theorem C3_shorter_side_truncated (width height bound : Z) :
  0 < width < 2 ^ 31 -> 0 < height < 2 ^ 31 -> 0 < bound < 2 ^ 20 ->
  bound < Z.max width height ->
  (exists short,
     constrain_size width height bound
       = Ret (if width >? height then (bound, short) else (short, bound)) /\
     short * Z.max width height <= Z.min width height * bound
       <= (short + 1) * Z.max width height) /\
  effective_max_dimension 896 (literal 1 3) = Ret 298 /\
  constrain_size 1920 1080 298 = Ret (298, 167) /\
  output_path_of "dir/name.png" 30 (literal 1 3) = Ret "dir/name_q30_s33.jpg".
Proof.
  intros Hw Hh Hb Hlong. split.
  - apply constrain_size_resized; assumption.
  - repeat split; vm_compute; reflexivity.
Qed.

(** C3 at a 1920x1080 image and the bound 298. *)
Lemma C3_shorter_side_truncated_witness :
  (exists short,
     constrain_size 1920 1080 298
       = Ret (if 1920 >? 1080 then (298, short) else (short, 298)) /\
     short * Z.max 1920 1080 <= Z.min 1920 1080 * 298
       <= (short + 1) * Z.max 1920 1080) /\
  effective_max_dimension 896 (literal 1 3) = Ret 298 /\
  constrain_size 1920 1080 298 = Ret (298, 167) /\
  output_path_of "dir/name.png" 30 (literal 1 3) = Ret "dir/name_q30_s33.jpg".
Proof.
  apply (C3_shorter_side_truncated 1920 1080 298); cbn; lia.
Defined.

(** C3 as stated fails: rounding to nearest would give 168 rows, the code
    gives 167. *)
Lemma C3_counterexample :
  constrain_size 1920 1080 298 = Ret (298, 167) /\
  constrain_size 1920 1080 298 <> Ret (298, 168).
Proof.
  split; [vm_compute; reflexivity | vm_compute; discriminate].
Qed.

(** A square image whose scaled side is exactly the bound can lose a pixel to
    the two roundings: the product lands just under the integer. *)
Example constrain_size_square_49 : constrain_size 49 49 1 = Ret (0, 1).
Proof. vm_compute. reflexivity. Qed.

(* ================================================================= *)
(** ** [process_file]: the shape of a result *)

(** A call either fails, with the six-field record, or succeeds after a reply,
    with the nine-field record whose response is what the reply carried. *)
Lemma process_file_cases (w : World) (file_path : string) (quality : Z) (scale_factor : float) :
  (exists error,
     process_file w file_path quality scale_factor
       = failure w error file_path quality scale_factor) \/
  (exists image_base64 output_path reply response,
     process_image w 896 file_path quality scale_factor = Some (image_base64, output_path) /\
     nonempty image_base64 = true /\
     w_post w file_path quality scale_factor (payload_of image_base64) = Ret reply /\
     extract_response reply = Ret response /\
     process_file w file_path quality scale_factor
       = success_record w file_path output_path image_base64 quality scale_factor
           (match response with Some v => v | None => VNone end)).
Proof.
  unfold process_file.
  destruct (process_image w 896 file_path quality scale_factor) as [[img out]|] eqn:Himg;
    [|left; eexists; reflexivity].
  destruct (nonempty img) eqn:Hne; cbn [negb]; [|left; eexists; reflexivity].
  unfold request.
  destruct (w_post w file_path quality scale_factor (payload_of img)) as [reply|e] eqn:Hpost;
    cbn [bind]; [|left; eexists; reflexivity].
  destruct (extract_response reply) as [response|e] eqn:Hresp;
    cbn [bind]; [|left; eexists; reflexivity].
  right. exists img, out, reply, response.
  repeat (split; [assumption || reflexivity|]).
  destruct response; reflexivity.
Qed.

Lemma keys_failure w error file_path quality scale_factor :
  keys (failure w error file_path quality scale_factor) = failure_fields.
Proof. reflexivity. Qed.

Lemma keys_success_record w file_path output_path image_base64 quality scale_factor response :
  keys (success_record w file_path output_path image_base64 quality scale_factor response)
  = success_fields.
Proof. reflexivity. Qed.

(** C10. A failed result, from the encoding path or the inference path alike,
    has exactly the fields success, error, file_path, quality, scale_factor
    and timestamp; output_path, processing_time, payload and response are not
    among them; a result that is not failed has the nine fields of a success,
    which are more. *)
Theorem C10_failure_fields (w : World) (file_path : string) (quality : Z) (scale_factor : float) :
  let result := process_file w file_path quality scale_factor in
  (dict_get result "success" = Some (VBool false) /\
   keys result = failure_fields /\
   dict_get result "output_path" = None /\
   dict_get result "processing_time" = None /\
   dict_get result "payload" = None /\
   dict_get result "response" = None /\
   (List.length (keys result) < List.length success_fields)%nat)
  \/
  (dict_get result "success" = Some (VBool true) /\ keys result = success_fields).
Proof.
  intros result. subst result.
  destruct (process_file_cases w file_path quality scale_factor)
    as [[error ->]|(img & out & reply & response & _ & _ & _ & _ & ->)].
  - left. repeat split; cbn; lia.
  - right. split; reflexivity.
Qed.

(** The field sets are not nested: a failure carries [error], which no
    success has. *)
Lemma failure_fields_not_included :
  In "error" failure_fields /\ ~ In "error" success_fields.
Proof.
  split; [cbn; tauto|].
  cbn. intros H. repeat (destruct H as [H|H]; [discriminate H|]). exact H.
Qed.

(** C6 as stated fails: a reply without [choices] gives a successful result
    whose response is [None]. *)
Lemma C6_counterexample :
  let result := process_file choiceless "imgs/name.png" 90 (of_int 1) in
  dict_get result "success" = Some (VBool true) /\
  dict_get result "response" = Some VNone.
Proof. vm_compute. split; reflexivity. Qed.

Lemma py_len_nonneg (v : value) (n : Z) : py_len v = Ret n -> 0 <= n.
Proof.
  destruct v; cbn [py_len]; intros H; try discriminate H; injection H as <-;
    unfold len; lia.
Qed.

(** The lines that read the reply give what the reply carries. *)
Lemma extract_response_carried (reply : value) (response : option value) :
  extract_response reply = Ret response ->
  carried reply (match response with Some v => v | None => VNone end).
Proof.
  unfold extract_response.
  destruct (py_contains "choices" reply) as [[|]|e] eqn:Hhas; cbn [bind];
    [|intros H; injection H as <-; apply carried_nothing; exact Hhas|discriminate].
  destruct (py_getitem reply "choices") as [choices|e] eqn:Hchoices; cbn [bind];
    [|discriminate].
  destruct (py_len choices) as [n|e] eqn:Hlen; cbn [bind]; [|discriminate].
  destruct (Z.gtb_spec n 0) as [Hpos|Hzero].
  - destruct (py_first choices) as [first|e] eqn:Hfirst; cbn [bind]; [|discriminate].
    destruct (py_contains "message" first) as [[|]|e] eqn:Hmsg; cbn [bind]; [| |discriminate].
    + destruct (py_getitem first "message") as [message|e] eqn:Hmessage; cbn [bind];
        [|discriminate].
      destruct (py_getitem message "content") as [content|e] eqn:Hcontent; cbn [bind];
        [|discriminate].
      intros H. injection H as <-.
      apply (carried_content reply choices first message content); assumption.
    + destruct (py_get first "text" (VStr "")) as [text|e] eqn:Htext; cbn [bind];
        [|discriminate].
      intros H. injection H as <-.
      apply (carried_text reply choices first text); assumption.
  - intros H. injection H as <-.
    apply (carried_no_choice reply choices); [exact Hchoices|].
    pose proof (py_len_nonneg choices n Hlen). rewrite Hlen. f_equal. lia.
Qed.

(** C6, as the code has it.  A successful result records the payload that was
    sent and answered, and its response field holds what the first choice of
    the reply carries: the content of its message, or its text (the empty
    string if it has none) when it has no message, or [None] when the reply has
    no non-empty [choices]; a failed result has no response field. *)
Theorem C6_result_invariant (w : World) (file_path : string) (quality : Z) (scale_factor : float) :
  let result := process_file w file_path quality scale_factor in
  (dict_get result "success" = Some (VBool true) /\
   exists image_base64 reply response,
     w_post w file_path quality scale_factor (payload_of image_base64) = Ret reply /\
     dict_get result "payload" = Some (payload_of image_base64) /\
     dict_get result "response" = Some response /\
     carried reply response)
  \/
  (dict_get result "success" = Some (VBool false) /\ dict_get result "response" = None).
Proof.
  intros result. subst result.
  destruct (process_file_cases w file_path quality scale_factor)
    as [[error ->]|(img & out & reply & response & _ & _ & Hpost & Hresp & ->)].
  - right. split; reflexivity.
  - left. split; [reflexivity|].
    exists img, reply, (match response with Some v => v | None => VNone end).
    split; [exact Hpost|]. split; [reflexivity|]. split; [reflexivity|].
    apply extract_response_carried. exact Hresp.
Qed.

(** A reply with no [choices] key, or an empty [choices], leaves the response
    as initialised. *)
Lemma extract_response_no_choices (d : dict) :
  dict_get d "choices" = None -> extract_response (VDict d) = Ret None.
Proof. intros H. unfold extract_response. cbn. rewrite H. reflexivity. Qed.

(** Every result echoes the pair it was computed for. *)
Lemma process_file_echo (w : World) (file_path : string) (quality : Z) (scale_factor : float) :
  let result := process_file w file_path quality scale_factor in
  dict_get result "scale_factor" = Some (VFloat scale_factor) /\
  dict_get result "quality" = Some (VInt quality).
Proof.
  intros result. subst result.
  destruct (process_file_cases w file_path quality scale_factor)
    as [[error ->]|(img & out & reply & response & _ & _ & _ & _ & ->)];
    split; reflexivity.
Qed.

(* ================================================================= *)
(** ** The sweep *)

(** The three scales of the sweep have a banner and a percentage. *)
Lemma printable_scales : Forall printable scales.
Proof.
  repeat constructor; (eexists; vm_compute; reflexivity).
Qed.

Lemma json_filename_ret (file_path : string) (quality : Z) (scale_factor : float) :
  (exists p, scale_percent scale_factor = Ret p) ->
  exists name, json_filename file_path quality scale_factor = Ret name.
Proof.
  intros [p Hp]. unfold json_filename. rewrite Hp. cbn [bind].
  destruct (eqb scale_factor (of_int 1)); cbn [andb];
    [destruct (quality =? 100)|]; eexists; reflexivity.
Qed.

(** The elements that a loop reaches. *)
Lemma reached_app {A : Type} (stops : A -> bool) (l1 l2 : list A) :
  reached stops (l1 ++ l2)
  = if existsb stops l1 then reached stops l1 else l1 ++ reached stops l2.
Proof.
  induction l1 as [|x l1 IH]; cbn [app reached existsb]; [reflexivity|].
  destruct (stops x); cbn [orb]; [reflexivity|]. rewrite IH.
  destruct (existsb stops l1); reflexivity.
Qed.

Lemma reached_all {A : Type} (stops : A -> bool) (l : list A) :
  existsb stops l = false -> reached stops l = l.
Proof.
  induction l as [|x l IH]; cbn [reached existsb]; [reflexivity|].
  destruct (stops x); cbn [orb]; [discriminate|]. intros H. rewrite IH by exact H. reflexivity.
Qed.

Lemma reached_prefix {A : Type} (stops : A -> bool) (l : list A) :
  exists rest, l = reached stops l ++ rest.
Proof.
  induction l as [|x l [rest IH]]; cbn [reached]; [exists []; reflexivity|].
  destruct (stops x).
  - exists l. reflexivity.
  - exists rest. cbn [app]. rewrite <- IH. reflexivity.
Qed.

Lemma reached_incl {A : Type} (stops : A -> bool) (l : list A) (x : A) :
  In x (reached stops l) -> In x l.
Proof.
  destruct (reached_prefix stops l) as [rest E]. intros H. rewrite E.
  apply in_or_app. left. exact H.
Qed.

Lemma existsb_false {A : Type} (stops : A -> bool) (l : list A) :
  (forall x, In x l -> stops x = false) -> existsb stops l = false.
Proof.
  induction l as [|x l IH]; cbn [existsb]; intros H; [reflexivity|].
  rewrite (H x (or_introl eq_refl)), IH; [reflexivity|].
  intros y Hy. apply H. right. exact Hy.
Qed.

(** The states that the iterations of pairs lead to. *)
Lemma advanced_nil (w : World) (file_path output_dir : string) (st : state) :
  advanced w file_path output_dir [] st st.
Proof. unfold advanced. cbn. rewrite !app_nil_r. repeat split. Qed.

Lemma advanced_app (w : World) (file_path output_dir : string) (l1 l2 : list (float * Z))
    (st st1 st2 : state) :
  advanced w file_path output_dir l1 st st1 ->
  advanced w file_path output_dir l2 st1 st2 ->
  advanced w file_path output_dir (l1 ++ l2) st st2.
Proof.
  unfold advanced. intros (Hr1 & Hd1 & Ha1 & Hm1) (Hr2 & Hd2 & Ha2 & Hm2).
  rewrite Hr2, Hr1, Hd2, Hd1, Ha2, Ha1, Hm2, Hm1, map_app, !flat_map_app, <- !app_assoc.
  repeat split.
Qed.

Lemma advanced_print (w : World) (file_path output_dir : string) (l : list (float * Z))
    (st st' : state) (line : string) :
  advanced w file_path output_dir l (print st line) st' ->
  advanced w file_path output_dir l st st'.
Proof. unfold advanced. cbn [print results json_docs artifacts directories]. tauto. Qed.

Lemma advanced_printed (w : World) (file_path output_dir : string) (l : list (float * Z))
    (st st' : state) (line : string) :
  advanced w file_path output_dir l st st' ->
  advanced w file_path output_dir l st (print st' line).
Proof. unfold advanced. cbn [print results json_docs artifacts directories]. tauto. Qed.

(** One iteration appends its result; for a success it writes the document and
    then saves the artifact; it raises exactly when that write does. *)
Lemma quality_step_spec (w : World) (file_path output_dir : string) (scale_factor : float)
    (quality : Z) (st : state) :
  (exists p, scale_percent scale_factor = Ret p) ->
  exists st' out,
    quality_step w file_path output_dir scale_factor quality st = (st', out) /\
    advanced w file_path output_dir [(scale_factor, quality)] st st' /\
    left_by (write_fails w file_path output_dir (scale_factor, quality)) out.
Proof.
  intros Hp. destruct (json_filename_ret file_path quality scale_factor Hp) as [name Hname].
  unfold quality_step, advanced, left_by, write_fails, persisted, saved, kept, written,
    document_of, rendering, json_path_of, succeeded, result_of, write_json,
    create_side_by_side_image_effect, process_image_effect.
  cbn [fst snd flat_map map]. rewrite Hname.
  set (result := process_file w file_path quality scale_factor).
  destruct (process_image_body w 896 file_path quality scale_factor) as [r|e0];
    cbn [print record_result results json_docs artifacts directories];
    (destruct (truthy (dict_get_default result "success" VNone)); cbn [andb negb];
     [destruct (w_write_json w (os_path.join output_dir name) (result_for_json result))
        as [[]|e]; cbn [negb];
      [destruct (render w file_path result output_dir) as [[path c]|e]|]|]);
    eexists _, _; (split; [reflexivity|]);
    cbn [print record_result save_image results json_docs artifacts directories app];
    rewrite ?app_nil_r; repeat split; eexists; reflexivity.
Qed.

Lemma quality_loop_spec (w : World) (file_path output_dir : string) (scale_factor : float)
    (qs : list Z) :
  (exists p, scale_percent scale_factor = Ret p) ->
  forall st, exists st' out,
    quality_loop w file_path output_dir scale_factor qs st = (st', out) /\
    advanced w file_path output_dir
      (reached (write_fails w file_path output_dir) (map (pair scale_factor) qs)) st st' /\
    left_by (existsb (write_fails w file_path output_dir) (map (pair scale_factor) qs)) out.
Proof.
  intros Hp. induction qs as [|q qs IH]; intros st;
    cbn [quality_loop map reached existsb].
  - exists st, (Ret tt). split; [reflexivity|]. split; [apply advanced_nil|reflexivity].
  - destruct (quality_step_spec w file_path output_dir scale_factor q st Hp)
      as (st1 & out1 & -> & Hadv1 & Hout1).
    unfold left_by in Hout1.
    destruct (write_fails w file_path output_dir (scale_factor, q)); cbn [orb].
    + destruct Hout1 as [e ->]. exists st1, (Raise e).
      split; [reflexivity|]. split; [exact Hadv1|]. exists e. reflexivity.
    + subst out1. destruct (IH st1) as (st2 & out2 & -> & Hadv2 & Hout2).
      exists st2, out2. split; [reflexivity|]. split; [|exact Hout2].
      apply (advanced_app w file_path output_dir [(scale_factor, q)] _ st st1 st2);
        assumption.
Qed.

Lemma run_full_quality_cycle_spec (w : World) (file_path output_dir : string)
    (scale_factor : float) (st : state) :
  printable scale_factor ->
  exists st' out,
    run_full_quality_cycle w file_path output_dir scale_factor st = (st', out) /\
    advanced w file_path output_dir
      (reached (write_fails w file_path output_dir) (map (pair scale_factor) qualities))
      st st' /\
    left_by (existsb (write_fails w file_path output_dir) (map (pair scale_factor) qualities))
            out.
Proof.
  intros [[d Hd] [p Hp]]. unfold run_full_quality_cycle.
  assert (Hbanner : exists banner, scale_str scale_factor = Ret banner).
  { unfold scale_str. rewrite Hd, Hp. cbn [bind].
    destruct (eqb scale_factor (of_int 1)); eexists; reflexivity. }
  destruct Hbanner as [banner ->].
  destruct (quality_loop_spec w file_path output_dir scale_factor qualities (ex_intro _ p Hp)
              (print st (String newline ("===== Processing scale: " ^^ banner ^^ " ====="))))
    as (st' & out & Hloop & Hadv & Hout).
  exists st', out. split; [exact Hloop|]. split; [|exact Hout].
  apply advanced_print in Hadv. exact Hadv.
Qed.

Lemma scale_loop_spec (w : World) (file_path output_dir : string) (ss : list float) :
  Forall printable ss ->
  forall st, exists st' out,
    scale_loop w file_path output_dir ss st = (st', out) /\
    advanced w file_path output_dir
      (reached (write_fails w file_path output_dir) (list_prod ss qualities)) st st' /\
    left_by (existsb (write_fails w file_path output_dir) (list_prod ss qualities)) out.
Proof.
  induction 1 as [|s ss Hs Hss IH]; intros st; cbn [scale_loop list_prod].
  - exists st, (Ret tt). split; [reflexivity|]. split; [apply advanced_nil|reflexivity].
  - destruct (run_full_quality_cycle_spec w file_path output_dir s st Hs)
      as (st1 & out1 & -> & Hadv1 & Hout1).
    rewrite reached_app, existsb_app. unfold left_by in Hout1.
    destruct (existsb (write_fails w file_path output_dir) (map (pair s) qualities))
      eqn:Hstop; cbn [orb].
    + destruct Hout1 as [e ->]. exists st1, (Raise e).
      split; [reflexivity|]. split; [exact Hadv1|]. exists e. reflexivity.
    + subst out1. destruct (IH st1) as (st2 & out2 & -> & Hadv2 & Hout2).
      exists st2, out2. split; [reflexivity|]. split; [|exact Hout2].
      rewrite (reached_all _ _ Hstop) in Hadv1.
      apply (advanced_app w file_path output_dir _ _ st st1 st2); assumption.
Qed.

(** The sweep of one image goes through the pairs up to the first whose
    document cannot be written, or through all of them. *)
Lemma sweep_spec (w : World) (file_path output_dir : string) (st : state) :
  advanced w file_path output_dir (entered w file_path output_dir) st
    (sweep w file_path output_dir st).
Proof.
  unfold sweep, entered.
  destruct (scale_loop_spec w file_path output_dir scales printable_scales st)
    as (st' & out & -> & Hadv & _).
  destruct out as [[]|e]; [exact Hadv|]. apply advanced_printed. exact Hadv.
Qed.

(** A sweep in which no write fails enters all 18 pairs. *)
Lemma entered_all (w : World) (file_path output_dir : string) :
  (forall sq, In sq pairs -> succeeded (result_of w file_path sq) = true ->
              written w file_path output_dir sq = true) ->
  entered w file_path output_dir = pairs.
Proof.
  intros H. apply reached_all, existsb_false. intros sq Hin. unfold write_fails.
  destruct (succeeded (result_of w file_path sq)) eqn:Hok; [|reflexivity].
  rewrite (H sq Hin Hok). reflexivity.
Qed.

(** The documents and the artifacts of a list of pairs are those of the pairs
    that are kept. *)
Lemma flat_map_persisted (w : World) (file_path output_dir : string) (l : list (float * Z)) :
  flat_map (persisted w file_path output_dir) l
  = map (document_of w file_path output_dir) (filter (kept w file_path output_dir) l).
Proof.
  induction l as [|sq l IH]; [reflexivity|]. cbn [flat_map filter]. unfold persisted at 1.
  destruct (kept w file_path output_dir sq); cbn [app map]; rewrite IH; reflexivity.
Qed.

Lemma flat_map_saved (w : World) (file_path output_dir : string) (l : list (float * Z)) :
  flat_map (saved w file_path output_dir) l
  = flat_map (rendering w file_path output_dir) (filter (kept w file_path output_dir) l).
Proof.
  induction l as [|sq l IH]; [reflexivity|]. cbn [flat_map filter]. unfold saved at 1.
  destruct (kept w file_path output_dir sq); cbn [app flat_map]; rewrite IH; reflexivity.
Qed.

(** [NoDup] of a list of closed terms, each pair of which differs by its
    constructors. *)
Ltac nodup_by_discriminate :=
  repeat (constructor;
          [cbn; intros H; repeat (destruct H as [H|H]; [discriminate H|]); exact H|]);
  constructor.

Lemma NoDup_qualities : NoDup qualities.
Proof.
  unfold qualities.
  nodup_by_discriminate.
Qed.

Lemma NoDup_scales : NoDup scales.
Proof.
  assert (E : scales = [S754_finite false 4503599627370496 (-52);
                        S754_finite false 6004799503160661 (-53);
                        S754_finite false 6004799503160661 (-54)])
    by (vm_compute; reflexivity).
  rewrite E.
  nodup_by_discriminate.
Qed.

Lemma NoDup_list_prod {A B : Type} (l : list A) (l' : list B) :
  NoDup l -> NoDup l' -> NoDup (list_prod l l').
Proof.
  intros Hl Hl'. induction Hl as [|x l Hx Hl IH]; cbn [list_prod]; [constructor|].
  apply NoDup_app.
  - apply NoDup_map_NoDup_ForallPairs; [|exact Hl'].
    intros a b _ _ E. congruence.
  - exact IH.
  - intros [a b] Hin1 Hin2. apply in_map_iff in Hin1. destruct Hin1 as (y & Ey & _).
    apply in_prod_iff in Hin2. destruct Hin2 as [Hin2 _]. congruence.
Qed.

Lemma NoDup_app_l {A : Type} (l1 l2 : list A) : NoDup (l1 ++ l2) -> NoDup l1.
Proof.
  induction l1 as [|x l1 IH]; cbn [app]; intros H; [constructor|].
  inversion H as [|y ys Hnotin Hrest]; subst. constructor; [|apply IH; exact Hrest].
  intros Hin. apply Hnotin. apply in_or_app. left. exact Hin.
Qed.

Lemma NoDup_pairs : NoDup pairs.
Proof. apply NoDup_list_prod; [apply NoDup_scales|apply NoDup_qualities]. Qed.

(** C1 as stated fails: when the document of the first pair cannot be written,
    the sweep of the image ends there, with one result and not 18. *)
Lemma C1_counterexample :
  let st := sweep unwritable "imgs/name.png" "out" initial in
  results st = [result_of unwritable "imgs/name.png" (of_int 1, 100)] /\
  List.length (results st) <> List.length pairs.
Proof. vm_compute. split; [reflexivity|discriminate]. Qed.

(** C1, as the code has it.  The sweep of one image calls [process_file] for
    the pairs of the cross product of the scales [1.0, 2/3, 1/3] and the
    qualities [100, 90, 70, 50, 30, 10] in nested order, all six qualities of a
    scale before the next scale, each pair at most once, and each call leaves
    one result, which carries its pair.  It goes through a beginning of that
    list: through all 18 pairs when every document of a successful pair can be
    written, and otherwise up to the first pair whose document cannot. *)
Theorem C1_sweep_enumeration (w : World) (file_path output_dir : string) (st : state) :
  let enumerated := entered w file_path output_dir in
  results (sweep w file_path output_dir st)
    = results st ++ map (result_of w file_path) enumerated /\
  (exists rest, pairs = enumerated ++ rest) /\
  ((forall sq, In sq pairs -> succeeded (result_of w file_path sq) = true ->
               written w file_path output_dir sq = true) ->
   enumerated = pairs /\
   List.length (map (result_of w file_path) enumerated) = 18%nat) /\
  (forall sq, In sq enumerated -> write_fails w file_path output_dir sq = true ->
              exists before, enumerated = before ++ [sq]) /\
  pairs = [ (of_int 1, 100); (of_int 1, 90); (of_int 1, 70);
            (of_int 1, 50); (of_int 1, 30); (of_int 1, 10);
            (literal 2 3, 100); (literal 2 3, 90); (literal 2 3, 70);
            (literal 2 3, 50); (literal 2 3, 30); (literal 2 3, 10);
            (literal 1 3, 100); (literal 1 3, 90); (literal 1 3, 70);
            (literal 1 3, 50); (literal 1 3, 30); (literal 1 3, 10) ] /\
  NoDup enumerated /\
  map (fun r => (dict_get r "scale_factor", dict_get r "quality"))
      (map (result_of w file_path) enumerated)
    = map (fun sq => (Some (VFloat (fst sq)), Some (VInt (snd sq)))) enumerated.
Proof.
  intros enumerated. subst enumerated.
  split; [apply sweep_spec|].
  split; [apply reached_prefix|].
  split.
  { intros H. rewrite (entered_all w file_path output_dir H), length_map.
    split; reflexivity. }
  split.
  { unfold entered. generalize pairs as l.
    induction l as [|x l IH]; cbn [reached]; intros sq Hin Hstop; [destruct Hin|].
    destruct (write_fails w file_path output_dir x) eqn:Hx.
    - destruct Hin as [<-|[]]. exists []. reflexivity.
    - destruct Hin as [<-|Hin]; [congruence|].
      destruct (IH sq Hin Hstop) as [before ->]. exists (x :: before). reflexivity. }
  split; [reflexivity|].
  split.
  { destruct (reached_prefix (write_fails w file_path output_dir) pairs) as [rest E].
    apply (NoDup_app_l _ rest). fold (entered w file_path output_dir) in E.
    rewrite <- E. apply NoDup_pairs. }
  rewrite map_map. apply map_ext. intros [s q]. unfold result_of. cbn [fst snd].
  destruct (process_file_echo w file_path q s) as [-> ->]. reflexivity.
Qed.

(** C1 in a world where every call returns: the 18 results of the image. *)
Lemma C1_sweep_enumeration_witness :
  results (sweep (answering "a cat") "imgs/name.png" "out" initial)
    = map (result_of (answering "a cat") "imgs/name.png") pairs /\
  List.length (map (result_of (answering "a cat") "imgs/name.png")
                   (entered (answering "a cat") "imgs/name.png" "out")) = 18%nat.
Proof.
  destruct (C1_sweep_enumeration (answering "a cat") "imgs/name.png" "out" initial)
    as (Hresults & _ & Hall & _).
  assert (Hwritten : forall sq, In sq pairs ->
            succeeded (result_of (answering "a cat") "imgs/name.png" sq) = true ->
            written (answering "a cat") "imgs/name.png" "out" sq = true).
  { intros sq _ _. reflexivity. }
  destruct (Hall Hwritten) as [Hentered Hlength].
  split; [|exact Hlength]. rewrite Hresults, Hentered. reflexivity.
Defined.

(* ================================================================= *)
(** ** The persisted documents *)

Lemma succeeded_failure w error file_path quality scale_factor :
  succeeded (failure w error file_path quality scale_factor) = false.
Proof. reflexivity. Qed.













(** A transport failure on the pair (2/3, 50) leaves 18 results, 17 of them
    successful, and 17 documents. *)
Example failure_isolation :
  let st := sweep flaky "imgs/name.png" "out" initial in
  List.length (results st) = 18%nat /\
  List.length (filter succeeded (results st)) = 17%nat /\
  List.length (json_docs st) = 17%nat /\
  map succeeded (map (result_of flaky "imgs/name.png") (map (pair (literal 2 3)) qualities))
    = [true; true; true; false; true; true].
Proof. vm_compute. repeat split. Qed.



(* ================================================================= *)
(** ** The comparison artifact *)

(** C9. A result whose response field is [None], as a successful result is
    when the reply had no [choices], makes the rendering fail inside: no
    artifact is returned, and no placeholder panel is drawn. *)
Theorem C9_render_without_response (w : World) (original_path : string) (result : dict)
    (output_dir : string) :
  dict_get result "response" = Some VNone ->
  create_side_by_side_image w original_path result output_dir = None.
Proof.
  intros H. unfold create_side_by_side_image, render.
  unfold dict_get_default at 3. rewrite H.
  destruct (w_open w original_path) as [[width height]|e]; cbn [bind]; [|reflexivity].
  destruct (int_times _ 896 _) as [bound|e]; cbn [bind]; [|reflexivity].
  destruct (display_size width height bound) as [[img_width img_height]|e];
    cbn [bind]; [|reflexivity].
  destruct (times_int _ _ 100) as [pct|e]; cbn [bind]; [|reflexivity].
  destruct (dict_item result "payload") as [payload|e]; cbn [bind]; [|reflexivity].
  destruct (py_getitem payload "temperature") as [temp|e]; cbn [bind]; [|reflexivity].
  destruct (dict_item result "processing_time") as [time|e]; cbn [bind]; [|reflexivity].
  destruct (w_format_2f w time) as [time_text|e]; cbn [bind]; reflexivity.
Qed.

(** C9 at the result of a reply without [choices]. *)
Lemma C9_render_without_response_witness :
  create_side_by_side_image choiceless "imgs/name.png"
    (process_file choiceless "imgs/name.png" 90 (of_int 1)) "out" = None.
Proof.
  apply (C9_render_without_response choiceless "imgs/name.png"
           (process_file choiceless "imgs/name.png" 90 (of_int 1)) "out").
  vm_compute. reflexivity.
Defined.

(** C4 as stated fails: at scale 2/3 and quality 100 the name keeps its
    quality suffix, where the rule of the specification leaves it out. *)
Lemma C4_counterexample :
  output_filename (answering "") "imgs/name.png" (VFloat (literal 2 3)) (VInt 100)
    = Ret "name_s66_q100_combined.jpg" /\
  spec_output_filename "name" (literal 2 3) 100 = Ret "name_s66_combined.jpg" /\
  output_filename (answering "") "imgs/name.png" (VFloat (literal 2 3)) (VInt 100)
    <> spec_output_filename (stem "imgs/name.png") (literal 2 3) 100.
Proof.
  split; [vm_compute; reflexivity|]. split; [vm_compute; reflexivity|].
  vm_compute. discriminate.
Qed.

(** C4, as the code has it.  The name of the artifact depends on the stem, the
    scale and the quality only: over the scales and qualities of the sweep it
    is the stem followed by ["_original"] at scale 1.0 and quality 100, by the
    quality suffix alone at scale 1.0 and another quality, and by the scale
    suffix and the quality suffix at the other scales, quality 100
    included. *)
Theorem C4_output_filename (w : World) (original_path : string) :
  map (fun sq => output_filename w original_path (VFloat (fst sq)) (VInt (snd sq))) pairs
  = map (fun suffix => Ret (stem original_path ^^ suffix ^^ "_combined.jpg"))
        artifact_suffixes.
Proof.
  unfold output_filename, name_suffix. generalize (stem original_path) as name. intros name.
  vm_compute. reflexivity.
Qed.

(** The three cases of the name, for any quality. *)
Lemma output_filename_cases (w : World) (original_path : string) (scale_factor : float)
    (quality pct : Z) :
  scale_percent scale_factor = Ret pct ->
  output_filename w original_path (VFloat scale_factor) (VInt quality)
  = Ret (stem original_path
         ^^ (if eqb scale_factor (of_int 1)
             then (if quality =? 100 then "_original" else "_q" ^^ str_of_int quality)
             else "_s" ^^ str_of_int pct ^^ "_q" ^^ str_of_int quality)
         ^^ "_combined.jpg").
Proof.
  intros Hp. unfold output_filename, name_suffix, eq_float, eq_int, py_str.
  change (times_int (w_max_str_digits w) (VFloat scale_factor) 100) with (scale_percent scale_factor).
  rewrite Hp.
  destruct (eqb scale_factor (of_int 1)); cbn [andb bind]; [|reflexivity].
  destruct (quality =? 100); reflexivity.
Qed.

(* ================================================================= *)
(** ** The path of a variant *)

Lemma scale_percent_values :
  scale_percent (of_int 1) = Ret 100 /\
  scale_percent (literal 2 3) = Ret 66 /\
  scale_percent (literal 1 3) = Ret 33.
Proof. repeat split; vm_compute; reflexivity. Qed.

(** C7 at the scales of the sweep.  The scale suffix is the scale times 100
    with its fraction dropped: 100 and 33, as rounding would give, and 66 at
    scale 2/3, where rounding gives 67. *)
Theorem C7_output_path (file_path : string) (quality : Z) :
  let place := os_path.join (os_path.dirname file_path) in
  let name := stem file_path ^^ "_q" ^^ str_of_int quality in
  output_path_of file_path quality (of_int 1) = Ret (place (name ^^ "_s100.jpg")) /\
  output_path_of file_path quality (literal 2 3) = Ret (place (name ^^ "_s66.jpg")) /\
  output_path_of file_path quality (literal 1 3) = Ret (place (name ^^ "_s33.jpg")) /\
  output_path_of "dir/name.png" 30 (literal 2 3) = Ret "dir/name_q30_s66.jpg".
Proof.
  intros place name. subst place name. unfold output_path_of.
  destruct scale_percent_values as (-> & -> & ->). cbn [bind].
  assert (E : forall a b c : string, (a ^^ b) ^^ c = a ^^ b ^^ c).
  { intros a b c. induction a as [|x a IH]; cbn; [reflexivity|]. rewrite IH. reflexivity. }
  rewrite !E. repeat split. 
Qed.

(* ================================================================= *)
(** ** The estimated width of a text *)

Lemma glyph_width_value : glyph_width = S754_finite false 4728779608739021 (-49).
Proof. vm_compute. reflexivity. Qed.

Lemma glyph_width_normal : normal (-49) (-49) glyph_width.
Proof.
  rewrite glyph_width_value. exists 4728779608739021%positive, (-49).
  split; [reflexivity|]. split; [split; [discriminate|reflexivity]|lia].
Qed.

(** A glyph is estimated between 8 and 9 pixels wide (8.4 in the source). *)
Lemma glyph_width_bounds : (8 < F2R glyph_width < 9)%R.
Proof.
  rewrite glyph_width_value. cbn [F2R]. rewrite Rmult_1_l.
  assert (H : (powerRZ 2 (-49) * IZR (2 ^ 49) = 1)%R).
  { rewrite IZR_pow2, <- powerRZ_add by (lra || lia). reflexivity. }
  change (2 ^ 49) with 562949953421312 in H.
  pose proof (powerRZ_2_pos (-49)) as Hpos.
  set (P := powerRZ 2 (-49)) in *. split; nra.
Qed.

(** The estimate of [n > 0] characters is [n] glyph widths, rounded once and
    cut down to an integer. *)
Lemma estimate_spec (n : Z) :
  0 < n < 2 ^ 53 ->
  exists k f,
    estimate n = Ret k /\
    (IZR k <= f < IZR k + 1)%R /\
    (IZR n * F2R glyph_width - IZR n * F2R glyph_width * ulp_half <= f
       <= IZR n * F2R glyph_width + IZR n * F2R glyph_width * ulp_half)%R.
Proof.
  intros Hn. destruct (of_int_spec n Hn) as [Nn Vn].
  destruct (mul_spec _ _ _ _ _ _ Nn glyph_width_normal
              ltac:(lia) ltac:(lia) ltac:(lia) ltac:(lia)) as [Nf Ef].
  destruct (to_int_spec _ _ _ Nf) as (k & Hk & Bk).
  exists k, (F2R (mul (of_int n) glyph_width)). split.
  - unfold estimate, int_mul_float. rewrite (to_float_exact n Hn). cbn [bind].
    apply py_int_some. exact Hk.
  - split; [exact Bk|]. rewrite Vn in Ef. apply Rabs_le_inv' in Ef. exact Ef.
Qed.

Lemma estimate_zero : estimate 0 = Ret 0.
Proof. vm_compute. reflexivity. Qed.

Lemma estimate_total (n : Z) : 0 <= n < 2 ^ 50 -> exists px, estimate n = Ret px.
Proof.
  intros Hn. destruct (Z.eq_dec n 0) as [->|Hne].
  - exists 0. apply estimate_zero.
  - assert (P : 2 ^ 50 < 2 ^ 53) by reflexivity.
    destruct (estimate_spec n ltac:(lia)) as (k & f & Hk & _). exists k. exact Hk.
Qed.

(** Longer texts are estimated strictly wider. *)
Lemma estimate_increasing (n m a b : Z) :
  0 <= n -> n < m -> m < 2 ^ 50 ->
  estimate n = Ret a -> estimate m = Ret b -> a < b.
Proof.
  intros Hn Hnm Hm Ha Hb.
  assert (P : 2 ^ 50 < 2 ^ 53) by reflexivity.
  destruct (estimate_spec m ltac:(lia)) as (b' & fm & Hb' & Bb & Em).
  rewrite Hb in Hb'. injection Hb' as <-.
  assert (Hm' : (IZR m <= 1125899906842624)%R)
    by (apply IZR_le; change (2 ^ 50) with 1125899906842624 in Hm; lia).
  assert (Hm0 : (1 <= IZR m)%R) by (apply IZR_le; lia).
  pose proof glyph_width_bounds as Hg.
  apply lt_IZR.
  destruct (Z.eq_dec n 0) as [->|Hne].
  - rewrite estimate_zero in Ha. injection Ha as <-.
    unfold ulp_half in *. change (2 ^ 53) with 9007199254740992 in *.
    set (g := F2R glyph_width) in *. clearbody g.
    assert (8 <= IZR m * g)%R by nra.
    set (Pm := (IZR m * g)%R) in *. clearbody Pm. lra.
  - destruct (estimate_spec n ltac:(lia)) as (a' & fn & Ha' & Ba & En).
    rewrite Ha in Ha'. injection Ha' as <-.
    assert (Hn0 : (1 <= IZR n)%R) by (apply IZR_le; lia).
    assert (Hstep : (IZR n + 1 <= IZR m)%R) by (rewrite <- plus_IZR; apply IZR_le; lia).
    unfold ulp_half in *. change (2 ^ 53) with 9007199254740992 in *.
    set (g := F2R glyph_width) in *. clearbody g.
    assert (Hpn : (IZR n * g <= 1125899906842624 * 9)%R) by (apply Rmult_le_compat; lra).
    assert (Hpm : (IZR n * g + g <= IZR m * g)%R) by nra.
    set (Pn := (IZR n * g)%R) in *. set (Pm := (IZR m * g)%R) in *.
    clearbody Pn Pm. lra.
Qed.

(** Hence the estimate is monotone. *)
Lemma estimate_monotone (n m a b : Z) :
  0 <= n -> n <= m -> m < 2 ^ 50 ->
  estimate n = Ret a -> estimate m = Ret b -> a <= b.
Proof.
  intros Hn Hnm Hm Ha Hb. destruct (Z.eq_dec n m) as [->|Hne].
  - rewrite Ha in Hb. injection Hb as <-. lia.
  - pose proof (estimate_increasing n m a b Hn ltac:(lia) Hm Ha Hb). lia.
Qed.

(** What is longer than an overflowing text overflows. *)
Lemma overflows_longer (text_width n m : Z) :
  0 <= n -> n <= m -> m < 2 ^ 50 -> overflows text_width n -> overflows text_width m.
Proof.
  intros Hn Hnm Hm (a & Ha & Hover).
  destruct (estimate_total m ltac:(lia)) as [b Hb].
  exists b. split; [exact Hb|].
  pose proof (estimate_monotone n m a b Hn Hnm Hm Ha Hb). lia.
Qed.

(* ================================================================= *)
(** ** Splitting a text *)

Lemma len_nonneg (s : string) : 0 <= len s.
Proof. unfold len. lia. Qed.

Lemma len_String (a : ascii) (s : string) : len (String a s) = 1 + len s.
Proof. unfold len. cbn [String.length]. lia. Qed.

Lemma len_append (a b : string) : len (a ^^ b) = len a + len b.
Proof.
  induction a as [|c a IH]; cbn [String.append].
  - unfold len. cbn. lia.
  - rewrite !len_String, IH. lia.
Qed.

Lemma len_zero (s : string) : len s = 0 -> s = EmptyString.
Proof. destruct s; [reflexivity|]. rewrite len_String. pose proof (len_nonneg s). lia. Qed.

Lemma append_empty_r (s : string) : s ^^ "" = s.
Proof. induction s as [|c s IH]; cbn; [reflexivity|]. rewrite IH. reflexivity. Qed.

Lemma split_on_len (c : ascii) (s line : string) :
  In line (split_on c s) -> len line <= len s.
Proof.
  revert line. induction s as [|a rest IH]; intros line Hin; cbn [split_on] in Hin.
  - destruct Hin as [<-|[]]. lia.
  - rewrite (len_String a rest). destruct (Ascii.eqb a c).
    + destruct Hin as [<-|Hin]; [pose proof (len_nonneg rest); change (len "") with 0; lia|].
      apply IH in Hin. lia.
    + destruct (split_on c rest) as [|h t] eqn:E.
      * destruct Hin as [<-|[]]. rewrite len_String. pose proof (len_nonneg rest).
        change (len "") with 0. lia.
      * destruct Hin as [<-|Hin].
        -- rewrite len_String. specialize (IH h (or_introl eq_refl)). lia.
        -- specialize (IH line (or_intror Hin)). lia.
Qed.

Lemma py_split_nonempty (s : string) : Forall (fun word => nonempty word = true) (py_split s).
Proof.
  induction s as [|a rest IH]; cbn [py_split]; [constructor|].
  destruct (is_space a); [exact IH|].
  destruct rest as [|b r]; [repeat constructor|].
  destruct (is_space b); [constructor; [reflexivity|exact IH]|].
  destruct (py_split (String b r)) as [|w0 ws]; [repeat constructor|].
  inversion IH; subst. constructor; [reflexivity|assumption].
Qed.

(** The words of a line and one separator each fit in the line and one more
    character; in the line itself when it starts with a space. *)
Lemma py_split_total (s : string) :
  total_width (py_split s) <= len s + 1 /\
  (forall b r, s = String b r -> is_space b = true -> total_width (py_split s) <= len s).
Proof.
  induction s as [|a rest [IH1 IH2]].
  - split; [cbn; lia|]. intros b r H. discriminate H.
  - rewrite len_String. cbn [py_split]. destruct (is_space a) eqn:Ha.
    + split; [lia|]. intros _ _ _ _. lia.
    + split; [|intros b r H Hb; injection H as -> ->; congruence].
      destruct rest as [|b r].
      * cbn. lia.
      * destruct (is_space b) eqn:Hb.
        -- specialize (IH2 b r eq_refl Hb). cbn [total_width fold_right].
           fold (total_width (py_split (String b r))). cbn [len String.length]. 
           change (len (String a "")) with 1. lia.
        -- destruct (py_split (String b r)) as [|w0 ws].
           ++ cbn [total_width fold_right]. change (len (String a "")) with 1.
              pose proof (len_nonneg (String b r)). rewrite len_String in *.
              pose proof (len_nonneg r). lia.
           ++ cbn [total_width fold_right] in *. rewrite len_String. lia.
Qed.

(** A word of a line is a piece of the line; the first word of a line that
    starts with no space is its beginning. *)
Lemma py_split_within (s : string) :
  (forall word, In word (py_split s) -> exists pre post, s = pre ^^ word ^^ post) /\
  (forall a r word ws, s = String a r -> is_space a = false ->
     py_split s = word :: ws -> exists post, s = word ^^ post).
Proof.
  induction s as [|a rest [IH1 IH2]].
  - split; [intros word []|]. intros a r word ws H. discriminate H.
  - cbn [py_split]. destruct (is_space a) eqn:Ha.
    + split.
      * intros word Hin. destruct (IH1 word Hin) as (pre & post & ->).
        exists (String a pre), post. reflexivity.
      * intros a' r word ws H Ha'. injection H as -> ->. congruence.
    + destruct rest as [|b r].
      * split.
        -- intros word [<-|[]]. exists "", "". reflexivity.
        -- intros a' r' word ws _ _ H. injection H as <- _. exists "". reflexivity.
      * destruct (is_space b) eqn:Hb.
        -- split.
           ++ intros word [<-|Hin]; [exists "", (String b r); reflexivity|].
              destruct (IH1 word Hin) as (pre & post & ->).
              exists (String a pre), post. reflexivity.
           ++ intros a' r' word ws _ _ H. injection H as <- _.
              exists (String b r). reflexivity.
        -- destruct (py_split (String b r)) as [|w0 ws0] eqn:E.
           ++ split.
              ** intros word [<-|[]]. exists "", (String b r). reflexivity.
              ** intros a' r' word ws _ _ H. injection H as <- _.
                 exists (String b r). reflexivity.
           ++ destruct (IH2 b r w0 ws0 eq_refl Hb eq_refl) as [post Hpost].
              split.
              ** intros word [<-|Hin].
                 --- exists "", post. cbn. rewrite <- Hpost. reflexivity.
                 --- destruct (IH1 word (or_intror Hin)) as (pre & post' & ->).
                     exists (String a pre), post'. reflexivity.
              ** intros a' r' word ws _ _ H. injection H as <- _.
                 exists post. cbn. rewrite <- Hpost. reflexivity.
Qed.

(** A word as long as its line is the line. *)
Lemma py_split_whole (line word : string) :
  In word (py_split line) -> len word <= len line /\ (len line <= len word -> line = word).
Proof.
  intros Hin. destruct (proj1 (py_split_within line) word Hin) as (pre & post & ->).
  rewrite !len_append. pose proof (len_nonneg pre). pose proof (len_nonneg post).
  split; [lia|]. intros H1.
  rewrite (len_zero pre), (len_zero post) by lia. cbn. apply append_empty_r.
Qed.

(* ================================================================= *)
(** ** The greedy word wrap *)

(** The inner loop returns, and it draws on a line of its own every word that
    overflows the panel, as well as the pending line if that one overflows. *)
Lemma wrap_words_spec (text_width : Z) (words : list string) :
  Forall (fun word => nonempty word = true) words ->
  forall current_line y_position,
    len current_line + total_width words < 2 ^ 50 ->
    exists lines y',
      wrap_words text_width words current_line y_position = Ret (lines, y') /\
      (forall word, In word words -> overflows text_width (len word) ->
         In word (map snd lines)) /\
      (nonempty current_line = true -> overflows text_width (len current_line) ->
         In current_line (map snd lines)).
Proof.
  induction 1 as [|word rest Hword Hrest IH]; intros current_line y Hlen; cbn [wrap_words].
  - destruct (nonempty current_line) eqn:Hcur.
    + eexists _, _. split; [reflexivity|]. split; [intros word []|]. intros _ _. left. reflexivity.
    + eexists _, _. split; [reflexivity|]. split; [intros word []|]. discriminate.
  - cbn [total_width fold_right] in Hlen. fold (total_width rest) in Hlen.
    pose proof (len_nonneg current_line) as Hc0. pose proof (len_nonneg word) as Hw0.
    assert (Ht0 : 0 <= total_width rest).
    { clear. induction rest as [|x l IHl]; cbn; [lia|]. 
      fold (total_width l). pose proof (len_nonneg x). lia. }
    set (test_line := if nonempty current_line then current_line ^^ " " ^^ word else word).
    assert (Htest : len word <= len test_line <= len current_line + 1 + len word /\
                    (nonempty current_line = true -> len current_line < len test_line)).
    { unfold test_line. destruct (nonempty current_line).
      - rewrite !len_append. change (len " ") with 1. split; [lia|]. intros _. lia.
      - split; [lia|]. discriminate. }
    destruct Htest as [Htest Hgrow].
    unfold text_px.
    destruct (estimate_total (len test_line) ltac:(lia)) as [px Hpx]. rewrite Hpx. cbn [bind].
    destruct (Z.ltb_spec px (text_width - 20)) as [Hfit|Hover].
    + destruct (IH test_line y ltac:(lia)) as (lines & y' & Heq & Hwords & Hcur).
      exists lines, y'. split; [exact Heq|]. split.
      * intros w [<-|Hin] Hw; [|apply Hwords; assumption].
        exfalso. destruct Hw as (pw & Hpw & Hw).
        pose proof (estimate_monotone (len word) (len test_line) pw px
                      ltac:(lia) ltac:(lia) ltac:(lia) Hpw Hpx). lia.
      * intros Hne (pc & Hpc & Hc). exfalso.
        pose proof (estimate_monotone (len current_line) (len test_line) pc px
                      ltac:(lia) ltac:(specialize (Hgrow Hne); lia) ltac:(lia) Hpc Hpx). lia.
    + destruct (IH word (y + line_height) ltac:(lia)) as (lines & y' & Heq & Hwords & Hcur).
      rewrite Heq. cbn [bind]. eexists _, _. split; [reflexivity|]. cbn [map snd]. split.
      * intros w [<-|Hin] Hw; right; [apply Hcur; assumption|apply Hwords; assumption].
      * intros _ _. left. reflexivity.
Qed.

(** A line is drawn without an error, and a word of it that overflows the panel
    is drawn alone. *)
Lemma draw_line_spec (text_width : Z) (line : string) (y_position : Z) :
  len line + 1 < 2 ^ 50 ->
  exists lines y',
    draw_line text_width line y_position = Ret (lines, y') /\
    (forall word, In word (py_split line) -> overflows text_width (len word) ->
       In word (map snd lines)).
Proof.
  intros Hlen. unfold draw_line, text_px.
  pose proof (len_nonneg line) as Hl0.
  destruct (estimate_total (len line) ltac:(lia)) as [px Hpx]. rewrite Hpx. cbn [bind].
  destruct (Z.gtb_spec px (text_width - 20)) as [Hwrap|Hplain].
  - destruct (wrap_words_spec text_width (py_split line) (py_split_nonempty line)
                EmptyString y_position) as (lines & y' & Heq & Hwords & _).
    { pose proof (proj1 (py_split_total line)). change (len "") with 0. lia. }
    exists lines, y'. split; [exact Heq|exact Hwords].
  - eexists _, _. split; [reflexivity|]. cbn [map snd].
    intros word Hin (pw & Hpw & Hw). left.
    destruct (py_split_whole line word Hin) as [Hle Hwhole].
    apply Hwhole. destruct (Z_lt_le_dec (len word) (len line)) as [Hlt|Hge]; [|exact Hge].
    pose proof (len_nonneg word).
    pose proof (estimate_increasing (len word) (len line) pw px
                  ltac:(lia) Hlt ltac:(lia) Hpw Hpx). lia.
Qed.

Lemma draw_lines_spec (text_width : Z) (lines : list string) :
  Forall (fun line => len line + 1 < 2 ^ 50) lines ->
  forall y_position,
  exists drawn y',
    draw_lines text_width lines y_position = Ret (drawn, y') /\
    (forall line word, In line lines -> In word (py_split line) ->
       overflows text_width (len word) -> In word (map snd drawn)).
Proof.
  induction 1 as [|line rest Hline Hrest IH]; intros y; cbn [draw_lines].
  - eexists _, _. split; [reflexivity|]. intros line word [].
  - destruct (draw_line_spec text_width line y Hline) as (first & y1 & -> & Hfirst).
    cbn [bind]. destruct (IH y1) as (more & y2 & -> & Hmore). cbn [bind].
    eexists _, _. split; [reflexivity|].
    intros l word [<-|Hin] Hword Hover; rewrite map_app; apply in_or_app.
    + left. apply Hfirst; assumption.
    + right. apply (Hmore l); assumption.
Qed.

Lemma line_height_value : line_height = 16.
Proof. vm_compute. reflexivity. Qed.

Lemma evenly_spaced_app (y : Z) (l1 l2 : list Z) :
  evenly_spaced y l1 ->
  evenly_spaced (y + line_height * Z.of_nat (List.length l1)) l2 ->
  evenly_spaced y (l1 ++ l2).
Proof.
  revert y. induction l1 as [|a l1 IH]; intros y H1 H2.
  - cbn [List.length app] in *. replace (y + line_height * Z.of_nat 0) with y in H2 by lia.
    exact H2.
  - destruct H1 as [-> H1]. cbn [app evenly_spaced]. split; [reflexivity|].
    apply IH; [exact H1|].
    replace (y + line_height + line_height * Z.of_nat (List.length l1))
      with (y + line_height * Z.of_nat (List.length (y :: l1))); [exact H2|].
    cbn [List.length]. lia.
Qed.

Lemma wrap_words_spaced (text_width : Z) (words : list string) :
  forall current_line y_position lines y',
    wrap_words text_width words current_line y_position = Ret (lines, y') ->
    evenly_spaced y_position (map fst lines) /\
    y' = y_position + line_height * Z.of_nat (List.length lines).
Proof.
  induction words as [|word rest IH]; intros current_line y lines y' H; cbn [wrap_words] in H.
  - destruct (nonempty current_line); injection H as <- <-;
      cbn [map fst evenly_spaced List.length]; split; auto; lia.
  - destruct (text_px _) as [px|e]; cbn [bind] in H; [|discriminate H].
    destruct (px <? text_width - 20); [apply (IH _ _ _ _ H)|].
    destruct (wrap_words text_width rest word (y + line_height)) as [[more y1]|e] eqn:E;
      cbn [bind] in H; [|discriminate H].
    injection H as <- <-. destruct (IH _ _ _ _ E) as [Hs ->].
    cbn [map fst evenly_spaced List.length]. split; [split; [reflexivity|exact Hs]|lia].
Qed.

Lemma draw_lines_spaced (text_width : Z) (lines : list string) :
  forall y_position drawn y',
    draw_lines text_width lines y_position = Ret (drawn, y') ->
    evenly_spaced y_position (map fst drawn) /\
    y' = y_position + line_height * Z.of_nat (List.length drawn).
Proof.
  induction lines as [|line rest IH]; intros y drawn y' H; cbn [draw_lines] in H.
  - injection H as <- <-. cbn [map fst evenly_spaced List.length]. split; [exact I|lia].
  - destruct (draw_line text_width line y) as [[first y1]|e] eqn:E1;
      cbn [bind] in H; [|discriminate H].
    destruct (draw_lines text_width rest y1) as [[more y2]|e] eqn:E2;
      cbn [bind] in H; [|discriminate H].
    injection H as <- <-. destruct (IH _ _ _ E2) as [Hmore ->].
    assert (Hfirst : evenly_spaced y (map fst first) /\
                     y1 = y + line_height * Z.of_nat (List.length first)).
    { unfold draw_line in E1.
      destruct (text_px line) as [px|e]; cbn [bind] in E1; [|discriminate E1].
      destruct (px >? text_width - 20); [apply (wrap_words_spaced _ _ _ _ _ _ E1)|].
      injection E1 as <- <-. cbn [map fst evenly_spaced List.length]. split; [auto|lia]. }
    destruct Hfirst as [Hfirst ->]. rewrite map_app, length_app. split.
    + apply evenly_spaced_app; [exact Hfirst|]. rewrite length_map. exact Hmore.
    + lia.
Qed.

(** Texts that are evenly spaced lie at increasing ordinates. *)
Lemma evenly_spaced_from (y : Z) (ys : list Z) :
  evenly_spaced y ys -> Forall (fun b => y <= b) ys.
Proof.
  revert y. induction ys as [|a ys IH]; intros y H; [constructor|].
  destruct H as [-> H]. constructor; [lia|].
  apply IH in H. apply (Forall_impl _ (P := fun b => y + line_height <= b)); [|exact H].
  intros b Hb. rewrite line_height_value in Hb. lia.
Qed.

Lemma evenly_spaced_middle (y a : Z) (l1 l2 : list Z) :
  evenly_spaced y (l1 ++ a :: l2) ->
  a = y + line_height * Z.of_nat (List.length l1) /\
  Forall (fun b => b < a) l1 /\ Forall (fun b => a < b) l2.
Proof.
  revert y. induction l1 as [|c l1 IH]; intros y H; cbn [app evenly_spaced] in H.
  - destruct H as [-> H]. cbn [List.length]. split; [lia|]. split; [constructor|].
    apply evenly_spaced_from in H.
    apply (Forall_impl _ (P := fun b => y + line_height <= b)); [|exact H].
    intros b Hb. rewrite line_height_value in Hb. lia.
  - destruct H as [-> H]. destruct (IH _ H) as (Ha & H1 & H2).
    assert (Hstep : line_height = 16) by apply line_height_value.
    split; [rewrite Ha; cbn [List.length]; lia|].
    split; [|exact H2]. constructor; [|exact H1]. lia.
Qed.

(** C8. When the panel takes [N] characters on a line, a word of the response
    longer than [N] is drawn alone on a line of its own, whole: it is the text
    of one of the lines drawn, the texts drawn before it lie above that line
    and the texts drawn after it below; and drawing the response raises no
    error. *)
Theorem C8_long_word_alone (text_width N : Z) (response line word : string) (y_position : Z) :
  len response < 2 ^ 49 ->
  usable_chars text_width N ->
  In line (split_on newline response) ->
  In word (py_split line) ->
  N < len word ->
  exists drawn y' above y below,
    draw_lines text_width (split_on newline response) y_position = Ret (drawn, y') /\
    In word (map snd drawn) /\
    drawn = above ++ (y, word) :: below /\
    y = y_position + 16 * Z.of_nat (List.length above) /\
    Forall (fun text => fst text < y) above /\
    Forall (fun text => y < fst text) below.
Proof.
  intros Hlen (HN & _ & Hover) Hline Hword Hlong.
  assert (P : 2 ^ 49 + 1 < 2 ^ 50) by reflexivity.
  assert (Hall : Forall (fun l => len l + 1 < 2 ^ 50) (split_on newline response)).
  { apply Forall_forall. intros l Hl. pose proof (split_on_len newline response l Hl). lia. }
  destruct (draw_lines_spec text_width (split_on newline response) Hall y_position)
    as (drawn & y' & Heq & Hdrawn).
  assert (Hin : In word (map snd drawn)).
  { apply (Hdrawn line word Hline Hword).
    pose proof (split_on_len newline response line Hline).
    destruct (py_split_whole line word Hword) as [Hle _].
    apply (overflows_longer text_width (N + 1) (len word)); [lia|lia|lia|exact Hover]. }
  pose proof Hin as Hin'. apply in_map_iff in Hin'. destruct Hin' as ([y t] & Et & Hat).
  cbn [snd] in Et. subst t.
  apply in_split in Hat. destruct Hat as (above & below & Esplit).
  destruct (draw_lines_spaced _ _ _ _ _ Heq) as [Hspaced _].
  rewrite Esplit, map_app in Hspaced. cbn [map fst] in Hspaced.
  apply evenly_spaced_middle in Hspaced. destruct Hspaced as (Hy & Habove & Hbelow).
  rewrite length_map, line_height_value in Hy.
  exists drawn, y', above, y, below.
  split; [exact Heq|]. split; [exact Hin|]. split; [exact Esplit|]. split; [exact Hy|].
  split.
  - exact (proj1 (Forall_map fst (fun b => b < y) above) Habove).
  - exact (proj1 (Forall_map fst (fun b => y < b) below) Hbelow).
Qed.

(** C8 at a panel of width 298, which takes 33 characters, and a word of 46. *)
Lemma C8_long_word_alone_witness :
  exists drawn y' above y below,
    draw_lines 298
      (split_on newline "a cat on a supercalifragilisticexpialidociousandmorewords mat") 114
      = Ret (drawn, y') /\
    In "supercalifragilisticexpialidociousandmorewords" (map snd drawn) /\
    drawn = above ++ (y, "supercalifragilisticexpialidociousandmorewords") :: below /\
    y = 114 + 16 * Z.of_nat (List.length above) /\
    Forall (fun text => fst text < y) above /\
    Forall (fun text => y < fst text) below.
Proof.
  apply (C8_long_word_alone 298 33
           "a cat on a supercalifragilisticexpialidociousandmorewords mat"
           "a cat on a supercalifragilisticexpialidociousandmorewords mat"
           "supercalifragilisticexpialidociousandmorewords" 114).
  - vm_compute. reflexivity.
  - split; [lia|]. split.
    + exists 277. split; [vm_compute; reflexivity|lia].
    + exists 285. split; [vm_compute; reflexivity|lia].
  - vm_compute. left. reflexivity.
  - vm_compute. right. right. right. right. left. reflexivity.
  - vm_compute. reflexivity.
Defined.

(* ================================================================= *)
(** ** More on the resize arithmetic *)

(** The computed size, side by side: never negative, never above the bound,
    never above the side it replaces. *)
Lemma constrain_size_sides (width height bound : Z) :
  0 < width < 2 ^ 31 -> 0 < height < 2 ^ 31 -> 0 < bound < 2 ^ 20 ->
  exists new_width new_height,
    constrain_size width height bound = Ret (new_width, new_height) /\
    0 <= new_width <= Z.min width bound /\
    0 <= new_height <= Z.min height bound.
Proof.
  intros Hw Hh Hb.
  destruct (Z_lt_le_dec bound (Z.max width height)) as [Hlong|Hfit].
  - destruct (constrain_size_resized width height bound Hw Hh Hb Hlong) as (k & Hk & Bk).
    destruct (Z.gtb_spec width height) as [G|G].
    + rewrite Z.max_l, Z.min_r in * by lia. exists bound, k. split; [exact Hk|].
      split; [lia|]. split; [nia|]. apply Z.min_glb; nia.
    + rewrite Z.max_r, Z.min_l in * by lia. exists k, bound. split; [exact Hk|].
      split; [|lia]. split; [nia|]. apply Z.min_glb; nia.
  - exists width, height. unfold constrain_size.
    replace ((width >? bound) || (height >? bound)) with false.
    2:{ destruct (Z.gtb_spec width bound), (Z.gtb_spec height bound); try reflexivity; lia. }
    split; [reflexivity|]. lia.
Qed.

(** X1. The resize never enlarges: each side of the computed size is at most
    the side of the image it replaces, and none is negative. *)
Theorem constrain_size_never_enlarges (width height bound : Z) :
  0 < width < 2 ^ 31 -> 0 < height < 2 ^ 31 -> 0 < bound < 2 ^ 20 ->
  exists new_width new_height,
    constrain_size width height bound = Ret (new_width, new_height) /\
    0 <= new_width <= width /\ 0 <= new_height <= height.
Proof.
  intros Hw Hh Hb.
  destruct (constrain_size_sides width height bound Hw Hh Hb) as (nw & nh & Heq & Bw & Bh).
  exists nw, nh. split; [exact Heq|]. lia.
Qed.

(** X1 at a 1920x1080 image and the bound 298. *)
Lemma constrain_size_never_enlarges_witness :
  exists new_width new_height,
    constrain_size 1920 1080 298 = Ret (new_width, new_height) /\
    0 <= new_width <= 1920 /\ 0 <= new_height <= 1080.
Proof.
  apply (constrain_size_never_enlarges 1920 1080 298); cbn; lia.
Defined.

(** X2. Resizing is idempotent: the size computed for an image is left as it
    is when it is constrained to the same bound again. *)
Theorem constrain_size_idempotent (width height bound : Z) :
  0 < width < 2 ^ 31 -> 0 < height < 2 ^ 31 -> 0 < bound < 2 ^ 20 ->
  exists size,
    constrain_size width height bound = Ret size /\
    constrain_size (fst size) (snd size) bound = Ret size.
Proof.
  intros Hw Hh Hb.
  destruct (constrain_size_sides width height bound Hw Hh Hb) as (nw & nh & Heq & Bw & Bh).
  exists (nw, nh). split; [exact Heq|]. cbn [fst snd]. unfold constrain_size.
  replace ((nw >? bound) || (nh >? bound)) with false; [reflexivity|].
  destruct (Z.gtb_spec nw bound), (Z.gtb_spec nh bound); try reflexivity; lia.
Qed.

(** X2 at a 1920x1080 image and the bound 298. *)
Lemma constrain_size_idempotent_witness :
  exists size,
    constrain_size 1920 1080 298 = Ret size /\
    constrain_size (fst size) (snd size) 298 = Ret size.
Proof.
  apply (constrain_size_idempotent 1920 1080 298); cbn; lia.
Defined.

(** X3. No minimum of one pixel is kept: when the long side of an image exceeds
    its short side times the bound, the short side of the computed size is 0. *)
Theorem constrain_size_zero_side (width height bound : Z) :
  0 < width < 2 ^ 31 -> 0 < height < 2 ^ 31 -> 0 < bound < 2 ^ 20 ->
  Z.min width height * bound < Z.max width height ->
  constrain_size width height bound
    = Ret (if width >? height then (bound, 0) else (0, bound)).
Proof.
  intros Hw Hh Hb Hthin.
  assert (Hlong : bound < Z.max width height) by nia.
  destruct (constrain_size_resized width height bound Hw Hh Hb Hlong) as (k & Hk & Bk).
  assert (k = 0) by nia. subst k. exact Hk.
Qed.

(** X3 at a 4000x10 strip and the bound 298. *)
Lemma constrain_size_zero_side_witness :
  constrain_size 4000 10 298 = Ret (if 4000 >? 10 then (298, 0) else (0, 298)).
Proof.
  apply (constrain_size_zero_side 4000 10 298); cbn; lia.
Defined.

(* ================================================================= *)
(** ** More on [process_image] *)

(** What a successful [process_image] went through. *)
Lemma process_image_inv (w : World) (max_dimension : Z) (file_path : string) (quality : Z)
    (scale_factor : float) (image_base64 output_path : string) :
  process_image w max_dimension file_path quality scale_factor
    = Some (image_base64, output_path) ->
  exists width height bound size,
    w_open w file_path = Ret (width, height) /\
    effective_max_dimension max_dimension scale_factor = Ret bound /\
    constrain_size width height bound = Ret size /\
    w_encode w file_path size quality = Ret image_base64 /\
    output_path_of file_path quality scale_factor = Ret output_path.
Proof.
  unfold process_image, process_image_body. intros H.
  destruct (w_open w file_path) as [[width height]|e] eqn:Hopen; cbn [bind] in H; [|discriminate H].
  destruct (effective_max_dimension max_dimension scale_factor) as [bound|e] eqn:Hbound;
    cbn [bind] in H; [|discriminate H].
  destruct (constrain_size width height bound) as [size|e] eqn:Hsize; cbn [bind] in H; [|discriminate H].
  destruct (w_encode w file_path size quality) as [b64|e] eqn:Henc;
    cbn [bind] in H; [|discriminate H].
  destruct (output_path_of file_path quality scale_factor) as [path|e] eqn:Hpath;
    cbn [bind] in H; [|discriminate H].
  injection H as <- <-. exists width, height, bound, size. repeat split; assumption || reflexivity.
Qed.

Lemma effective_bound_of_scales (scale_factor : float) :
  In scale_factor scales ->
  exists bound, effective_max_dimension 896 scale_factor = Ret bound /\ 0 < bound <= 896.
Proof.
  intros [<-|[<-|[<-|[]]]]; eexists; (split; [vm_compute; reflexivity|lia]).
Qed.

(** X4. At the scales of the sweep, the image that is encoded and sent is at
    most 896 pixels on each side and no larger than the source image. *)
Theorem encoded_image_within_bound (w : World) (file_path : string) (quality : Z)
    (scale_factor : float) (image_base64 output_path : string) (width height : Z) :
  In scale_factor scales ->
  w_open w file_path = Ret (width, height) ->
  0 < width < 2 ^ 31 -> 0 < height < 2 ^ 31 ->
  process_image w 896 file_path quality scale_factor = Some (image_base64, output_path) ->
  exists new_width new_height,
    w_encode w file_path (new_width, new_height) quality = Ret image_base64 /\
    0 <= new_width <= Z.min width 896 /\ 0 <= new_height <= Z.min height 896.
Proof.
  intros Hs Hopen Hw Hh Himg.
  destruct (process_image_inv _ _ _ _ _ _ _ Himg)
    as (width' & height' & bound & size & Hopen' & Hbound & Hsize & Henc & _).
  rewrite Hopen in Hopen'. injection Hopen' as <- <-.
  destruct (effective_bound_of_scales scale_factor Hs) as (bound' & Hbound' & Bb).
  rewrite Hbound in Hbound'. injection Hbound' as <-.
  assert (P : 896 < 2 ^ 20) by reflexivity.
  destruct (constrain_size_sides width height bound Hw Hh ltac:(lia))
    as (nw & nh & Heq & Bw & Bh).
  rewrite Hsize in Heq. injection Heq as ->. exists nw, nh. split; [exact Henc|]. lia.
Qed.

(** X4 at a 1920x1080 image, scale 1/3 and quality 30. *)
Lemma encoded_image_within_bound_witness :
  exists new_width new_height,
    w_encode (answering "") "imgs/name.png" (new_width, new_height) 30 = Ret "/9j/4AAQ" /\
    0 <= new_width <= Z.min 1920 896 /\ 0 <= new_height <= Z.min 1080 896.
Proof.
  apply (encoded_image_within_bound (answering "") "imgs/name.png" 30 (literal 1 3)
           "/9j/4AAQ" "imgs/name_q30_s33.jpg" 1920 1080).
  - right. right. left. reflexivity.
  - reflexivity.
  - cbn; lia.
  - cbn; lia.
  - vm_compute. reflexivity.
Defined.

(* ================================================================= *)
(** ** Reading the reply *)

(** Only the first element of a non-empty [choices] list is read. *)
Lemma extract_response_first (d c : dict) (rest : list value) :
  dict_get d "choices" = Some (VList (VDict c :: rest)) ->
  extract_response (VDict d)
  = match dict_get c "message" with
    | Some message => content <- py_getitem message "content" ;; Ret (Some content)
    | None => Ret (Some (dict_get_default c "text" (VStr "")))
    end.
Proof.
  intros H. unfold extract_response. cbn [py_contains py_getitem bind]. unfold dict_item.
  rewrite H. cbn [bind py_len py_first py_contains List.length].
  replace (Z.of_nat (S (List.length rest)) >? 0) with true
    by (symmetry; apply Z.gtb_lt; lia).
  cbn [bind py_getitem]. unfold dict_item.
  destruct (dict_get c "message") as [message|]; cbn [bind py_get]; reflexivity.
Qed.

(** How [process_file] ends once the image is encoded and the endpoint has
    replied. *)
Lemma process_file_replied (w : World) (file_path : string) (quality : Z) (scale_factor : float)
    (image_base64 output_path : string) (reply : value) :
  process_image w 896 file_path quality scale_factor = Some (image_base64, output_path) ->
  nonempty image_base64 = true ->
  w_post w file_path quality scale_factor (payload_of image_base64) = Ret reply ->
  process_file w file_path quality scale_factor
  = match extract_response reply with
    | Ret response =>
        success_record w file_path output_path image_base64 quality scale_factor
          (match response with Some v => v | None => VNone end)
    | Raise e => failure w (w_str_exn w e) file_path quality scale_factor
    end.
Proof.
  intros Himg Hne Hpost. unfold process_file, request. rewrite Himg, Hne, Hpost.
  cbn [negb bind]. destruct (extract_response reply) as [[v|]|e]; reflexivity.
Qed.

(** X5. A reply whose first choice has a message without [content] makes the
    pair fail, with the missing key as its error, although the endpoint
    answered. *)
Theorem reply_without_content_fails (w : World) (file_path : string) (quality : Z)
    (scale_factor : float) (image_base64 output_path : string)
    (d c m : dict) (rest : list value) :
  process_image w 896 file_path quality scale_factor = Some (image_base64, output_path) ->
  nonempty image_base64 = true ->
  w_post w file_path quality scale_factor (payload_of image_base64) = Ret (VDict d) ->
  dict_get d "choices" = Some (VList (VDict c :: rest)) ->
  dict_get c "message" = Some (VDict m) ->
  dict_get m "content" = None ->
  process_file w file_path quality scale_factor
  = failure w (w_str_exn w (KeyError "content")) file_path quality scale_factor.
Proof.
  intros Himg Hne Hpost Hchoices Hmessage Hcontent.
  rewrite (process_file_replied _ _ _ _ _ _ _ Himg Hne Hpost).
  rewrite (extract_response_first _ _ _ Hchoices), Hmessage.
  cbn [py_getitem]. unfold dict_item. rewrite Hcontent. reflexivity.
Qed.

(** X5 at a reply whose message holds a role only. *)
Lemma reply_without_content_fails_witness :
  let w := replying (VDict [("choices", VList [VDict [("message", VDict [("role", VStr "assistant")])]])]) in
  process_file w "imgs/name.png" 90 (of_int 1)
  = failure w "'content'" "imgs/name.png" 90 (of_int 1).
Proof.
  intros w.
  apply (reply_without_content_fails w "imgs/name.png" 90 (of_int 1)
           "/9j/4AAQ" "imgs/name_q90_s100.jpg"
           [("choices", VList [VDict [("message", VDict [("role", VStr "assistant")])]])]
           [("message", VDict [("role", VStr "assistant")])]
           [("role", VStr "assistant")] []);
    vm_compute; reflexivity.
Defined.

(** X6. When the first choice has a message with a content, that content is
    the response, whatever [text] the choice and whatever the later choices
    hold. *)
Theorem response_is_message_content (w : World) (file_path : string) (quality : Z)
    (scale_factor : float) (image_base64 output_path : string)
    (d c m : dict) (rest : list value) (content : value) :
  process_image w 896 file_path quality scale_factor = Some (image_base64, output_path) ->
  nonempty image_base64 = true ->
  w_post w file_path quality scale_factor (payload_of image_base64) = Ret (VDict d) ->
  dict_get d "choices" = Some (VList (VDict c :: rest)) ->
  dict_get c "message" = Some (VDict m) ->
  dict_get m "content" = Some content ->
  process_file w file_path quality scale_factor
  = success_record w file_path output_path image_base64 quality scale_factor content.
Proof.
  intros Himg Hne Hpost Hchoices Hmessage Hcontent.
  rewrite (process_file_replied _ _ _ _ _ _ _ Himg Hne Hpost).
  rewrite (extract_response_first _ _ _ Hchoices), Hmessage.
  cbn [py_getitem]. unfold dict_item. rewrite Hcontent. reflexivity.
Qed.

(** X6 at a reply with a message, a text and a second choice. *)
Lemma response_is_message_content_witness :
  let reply :=
    VDict [("choices",
            VList [VDict [("text", VStr "old"); ("message", VDict [("content", VStr "a cat")])];
                   VDict [("message", VDict [("content", VStr "a dog")])]])] in
  process_file (replying reply) "imgs/name.png" 90 (of_int 1)
  = success_record (replying reply) "imgs/name.png" "imgs/name_q90_s100.jpg" "/9j/4AAQ"
      90 (of_int 1) (VStr "a cat").
Proof.
  intros reply.
  apply (response_is_message_content (replying reply) "imgs/name.png" 90 (of_int 1)
           "/9j/4AAQ" "imgs/name_q90_s100.jpg"
           [("choices",
             VList [VDict [("text", VStr "old"); ("message", VDict [("content", VStr "a cat")])];
                    VDict [("message", VDict [("content", VStr "a dog")])]])]
           [("text", VStr "old"); ("message", VDict [("content", VStr "a cat")])]
           [("content", VStr "a cat")]
           [VDict [("message", VDict [("content", VStr "a dog")])]]
           (VStr "a cat"));
    vm_compute; reflexivity.
Defined.

(** X7. When the first choice has no message, the response is its [text], or
    the empty string when it has none: the result is a success all the same. *)
Theorem response_is_text_or_empty (w : World) (file_path : string) (quality : Z)
    (scale_factor : float) (image_base64 output_path : string)
    (d c : dict) (rest : list value) :
  process_image w 896 file_path quality scale_factor = Some (image_base64, output_path) ->
  nonempty image_base64 = true ->
  w_post w file_path quality scale_factor (payload_of image_base64) = Ret (VDict d) ->
  dict_get d "choices" = Some (VList (VDict c :: rest)) ->
  dict_get c "message" = None ->
  process_file w file_path quality scale_factor
  = success_record w file_path output_path image_base64 quality scale_factor
      (match dict_get c "text" with Some text => text | None => VStr "" end).
Proof.
  intros Himg Hne Hpost Hchoices Hmessage.
  rewrite (process_file_replied _ _ _ _ _ _ _ Himg Hne Hpost).
  rewrite (extract_response_first _ _ _ Hchoices), Hmessage. reflexivity.
Qed.

(** X7 at a reply whose first choice holds a finish reason only. *)
Lemma response_is_text_or_empty_witness :
  let reply := VDict [("choices", VList [VDict [("finish_reason", VStr "stop")]])] in
  process_file (replying reply) "imgs/name.png" 90 (of_int 1)
  = success_record (replying reply) "imgs/name.png" "imgs/name_q90_s100.jpg" "/9j/4AAQ"
      90 (of_int 1)
      (match dict_get [("finish_reason", VStr "stop")] "text" with
       | Some text => text
       | None => VStr ""
       end).
Proof.
  intros reply.
  apply (response_is_text_or_empty (replying reply) "imgs/name.png" 90 (of_int 1)
           "/9j/4AAQ" "imgs/name_q90_s100.jpg"
           [("choices", VList [VDict [("finish_reason", VStr "stop")]])]
           [("finish_reason", VStr "stop")] []);
    vm_compute; reflexivity.
Defined.

(* ================================================================= *)
(** ** The names of the files of a pair *)

Lemma append_assoc (a b c : string) : (a ^^ b) ^^ c = a ^^ b ^^ c.
Proof. induction a as [|x a IH]; cbn; [reflexivity|]. rewrite IH. reflexivity. Qed.

(** X8. The JSON document and the comparison image of a pair are named alike:
    both names are one base followed by [".json"] and by ["_combined.jpg"];
    and when the scale has no percentage both computations raise the same
    exception. *)
Theorem document_and_artifact_named_alike (w : World) (file_path : string) (quality : Z)
    (scale_factor : float) :
  match json_filename file_path quality scale_factor,
        output_filename w file_path (VFloat scale_factor) (VInt quality) with
  | Ret document, Ret artifact =>
      exists base, document = base ^^ ".json" /\ artifact = base ^^ "_combined.jpg"
  | Raise e, Raise e' => e = e'
  | _, _ => False
  end.
Proof.
  unfold json_filename, output_filename, name_suffix, eq_float, eq_int, py_str.
  change (times_int (w_max_str_digits w) (VFloat scale_factor) 100) with (scale_percent scale_factor).
  destruct (eqb scale_factor (of_int 1)); cbn [andb].
  - destruct (quality =? 100); cbn [bind].
    + exists (stem file_path ^^ "_original"). rewrite !append_assoc. split; reflexivity.
    + exists (stem file_path ^^ "_q" ^^ str_of_int quality).
      rewrite !append_assoc. split; reflexivity.
  - destruct (scale_percent scale_factor) as [pct|e]; cbn [bind]; [|reflexivity].
    exists (stem file_path ^^ "_s" ^^ str_of_int pct ^^ "_q" ^^ str_of_int quality).
    rewrite !append_assoc. split; reflexivity.
Qed.

Lemma not_NoDup_twice {A : Type} (x : A) (l0 l1 l2 : list A) :
  In x l1 -> In x l2 -> ~ NoDup (l0 ++ l1 ++ l2).
Proof.
  intros H1 H2 Hnd. apply NoDup_app_remove_l in Hnd.
  apply in_split in H1. destruct H1 as (a & b & ->).
  rewrite <- app_assoc in Hnd. cbn in Hnd.
  apply NoDup_remove_2 in Hnd. apply Hnd.
  apply in_or_app. right. apply in_or_app. right. exact H2.
Qed.

Lemma json_path_of_stem (f1 f2 output_dir : string) (sq : float * Z) :
  stem f1 = stem f2 -> json_path_of f1 output_dir sq = json_path_of f2 output_dir sq.
Proof. intros H. unfold json_path_of, json_filename. rewrite H. reflexivity. Qed.

Lemma persisted_path_in (w : World) (file_path output_dir : string) (sq : float * Z)
    (l : list (float * Z)) :
  In sq l -> kept w file_path output_dir sq = true ->
  In (json_path_of file_path output_dir sq)
     (map fst (flat_map (persisted w file_path output_dir) l)).
Proof.
  intros Hin Hok. apply in_map_iff.
  exists (document_of w file_path output_dir sq).
  split; [reflexivity|]. apply in_flat_map. exists sq. split; [exact Hin|].
  unfold persisted. rewrite Hok. left. reflexivity.
Qed.

(** X9. The names of the documents depend on the stem of the file alone: when
    two images have the same stem and the document of a pair is written for
    both (the sweep of each reaches the pair, the result is a success and the
    write returns), the sweep of the second writes that document to the path
    the first one was written to. *)
Theorem same_stem_overwrites (w : World) (first second output_dir : string) (st : state)
    (sq : float * Z) :
  stem first = stem second ->
  In sq (entered w first output_dir) ->
  succeeded (result_of w first sq) = true ->
  written w first output_dir sq = true ->
  In sq (entered w second output_dir) ->
  succeeded (result_of w second sq) = true ->
  written w second output_dir sq = true ->
  ~ NoDup (map fst (json_docs (sweep w second output_dir (sweep w first output_dir st)))).
Proof.
  intros Hstem Hin1 Hok1 Hw1 Hin2 Hok2 Hw2.
  destruct (sweep_spec w second output_dir (sweep w first output_dir st)) as (_ & -> & _).
  destruct (sweep_spec w first output_dir st) as (_ & -> & _).
  rewrite <- app_assoc, !map_app.
  apply (not_NoDup_twice (json_path_of first output_dir sq)).
  - apply persisted_path_in; [exact Hin1|]. unfold kept. rewrite Hok1, Hw1. reflexivity.
  - rewrite (json_path_of_stem first second output_dir sq Hstem).
    apply persisted_path_in; [exact Hin2|]. unfold kept. rewrite Hok2, Hw2. reflexivity.
Qed.

(** X9 at two images called [cat] in two directories. *)
Lemma same_stem_overwrites_witness :
  ~ NoDup (map fst (json_docs (sweep (answering "a cat") "imgs/b/cat.jpeg" "out"
                                (sweep (answering "a cat") "imgs/a/cat.PNG" "out" initial)))).
Proof.
  apply (same_stem_overwrites (answering "a cat") "imgs/a/cat.PNG" "imgs/b/cat.jpeg" "out"
           initial (of_int 1, 100)).
  - vm_compute. reflexivity.
  - vm_compute. left. reflexivity.
  - vm_compute. reflexivity.
  - vm_compute. reflexivity.
  - vm_compute. left. reflexivity.
  - vm_compute. reflexivity.
  - vm_compute. reflexivity.
Defined.

(* ================================================================= *)
(** ** More on the word wrap *)

Lemma py_split_starts (a : ascii) (r : string) :
  is_space a = false -> exists word ws, py_split (String a r) = word :: ws.
Proof.
  intros Ha. cbn [py_split]. rewrite Ha. destruct r as [|b r]; [eexists _, _; reflexivity|].
  destruct (is_space b); [eexists _, _; reflexivity|].
  destruct (py_split (String b r)); eexists _, _; reflexivity.
Qed.

(** A space between two texts separates their words. *)
Lemma py_split_app_space (a b : string) (c : ascii) :
  is_space c = true -> py_split (a ^^ String c b) = py_split a ++ py_split b.
Proof.
  intros Hc.
  assert (Hcb : py_split (String c b) = py_split b) by (cbn [py_split]; rewrite Hc; reflexivity).
  induction a as [|x a IH]; [exact Hcb|].
  change (String x a ^^ String c b) with (String x (a ^^ String c b)).
  destruct a as [|y a].
  - change ("" ^^ String c b) with (String c b) in *.
    cbn [py_split]. rewrite Hc. destruct (is_space x); reflexivity.
  - change (String y a ^^ String c b) with (String y (a ^^ String c b)) in *.
    cbn [py_split] in *. destruct (is_space x); [exact IH|].
    destruct (is_space y) eqn:Hy.
    + rewrite IH. reflexivity.
    + fold py_split in *. 
      destruct (py_split_starts y a Hy) as (w0 & ws0 & E).
      cbn [py_split] in E. rewrite Hy in E.
      rewrite IH. rewrite E. reflexivity.
Qed.

Lemma py_split_spaceless (s : string) : Forall (fun word => spaceless word = true) (py_split s).
Proof.
  induction s as [|a rest IH]; cbn [py_split]; [constructor|].
  destruct (is_space a) eqn:Ha; [exact IH|].
  assert (Hone : spaceless (String a "") = true) by (cbn; rewrite Ha; reflexivity).
  destruct rest as [|b r]; [repeat constructor; exact Hone|].
  destruct (is_space b); [constructor; [exact Hone|exact IH]|].
  destruct (py_split (String b r)) as [|w0 ws]; [repeat constructor; exact Hone|].
  inversion IH; subst. constructor; [|assumption].
  cbn [spaceless]. rewrite Ha. cbn. assumption.
Qed.

(** A word splits into itself. *)
Lemma py_split_word (word : string) :
  nonempty word = true -> spaceless word = true -> py_split word = [word].
Proof.
  induction word as [|a rest IH]; [discriminate|]. intros _ Hs.
  cbn [spaceless] in Hs. apply andb_true_iff in Hs. destruct Hs as [Ha Hrest].
  apply negb_true_iff in Ha. cbn [py_split]. rewrite Ha.
  destruct rest as [|b r]; [reflexivity|].
  specialize (IH eq_refl Hrest).
  cbn [spaceless] in Hrest. apply andb_true_iff in Hrest. destruct Hrest as [Hb _].
  apply negb_true_iff in Hb. rewrite Hb, IH. reflexivity.
Qed.

(** The inner loop keeps the words: the lines it draws, split again, are the
    words of the pending line followed by the words it was given. *)
Lemma wrap_words_keeps (text_width : Z) (words : list string) :
  Forall (fun word => nonempty word = true) words ->
  Forall (fun word => spaceless word = true) words ->
  forall current_line y_position lines y',
    wrap_words text_width words current_line y_position = Ret (lines, y') ->
    flat_map py_split (map snd lines) = py_split current_line ++ words.
Proof.
  induction words as [|word rest IH]; intros Hne Hsp current_line y lines y' H;
    cbn [wrap_words] in H.
  - destruct current_line as [|c cur]; cbn [nonempty] in H; injection H as <- <-.
    + reflexivity.
    + cbn [map snd flat_map]. reflexivity.
  - inversion Hne as [|? ? Hword Hrest]; subst. inversion Hsp as [|? ? Hword' Hrest']; subst.
    destruct (text_px _) as [px|e]; cbn [bind] in H; [|discriminate H].
    destruct (px <? text_width - 20).
    + rewrite (IH Hrest Hrest' _ _ _ _ H).
      destruct current_line as [|c cur]; cbn [nonempty].
      * cbn [py_split app]. rewrite (py_split_word word Hword Hword'). reflexivity.
      * change (String c cur ^^ " " ^^ word) with (String c cur ^^ String " " word).
        rewrite py_split_app_space by reflexivity.
        rewrite (py_split_word word Hword Hword'), <- app_assoc. reflexivity.
    + destruct (wrap_words text_width rest word (y + line_height)) as [[more y1]|e] eqn:E;
        cbn [bind] in H; [|discriminate H].
      injection H as <- <-. cbn [map snd flat_map].
      rewrite (IH Hrest Hrest' _ _ _ _ E), (py_split_word word Hword Hword'). reflexivity.
Qed.

Lemma draw_line_keeps (text_width : Z) (line : string) (y_position : Z)
    (lines : list drawn) (y' : Z) :
  draw_line text_width line y_position = Ret (lines, y') ->
  flat_map py_split (map snd lines) = py_split line.
Proof.
  unfold draw_line. intros H.
  destruct (text_px line) as [px|e]; cbn [bind] in H; [|discriminate H].
  destruct (px >? text_width - 20).
  - apply (wrap_words_keeps text_width (py_split line) (py_split_nonempty line)
             (py_split_spaceless line)) in H. exact H.
  - injection H as <- <-. cbn [map snd flat_map]. apply app_nil_r.
Qed.

Lemma draw_lines_keeps (text_width : Z) (lines : list string) :
  forall y_position drawn y',
    draw_lines text_width lines y_position = Ret (drawn, y') ->
    flat_map py_split (map snd drawn) = flat_map py_split lines.
Proof.
  induction lines as [|line rest IH]; intros y drawn y' H; cbn [draw_lines] in H.
  - injection H as <- <-. reflexivity.
  - destruct (draw_line text_width line y) as [[first y1]|e] eqn:E1;
      cbn [bind] in H; [|discriminate H].
    destruct (draw_lines text_width rest y1) as [[more y2]|e] eqn:E2;
      cbn [bind] in H; [|discriminate H].
    injection H as <- <-. rewrite map_app, flat_map_app.
    pose proof (draw_line_keeps _ _ _ _ _ E1) as K1. pose proof (IH _ _ _ E2) as K2.
    unfold drawn in *. rewrite K1, K2. reflexivity.
Qed.

Lemma response_lines_bounded (response : string) :
  len response < 2 ^ 49 ->
  Forall (fun line => len line + 1 < 2 ^ 50) (split_on newline response).
Proof.
  intros Hlen. assert (P : 2 ^ 49 + 1 < 2 ^ 50) by reflexivity.
  apply Forall_forall. intros l Hl. pose proof (split_on_len newline response l Hl). lia.
Qed.

(** X10. Wrapping loses no word and keeps their order: the words of the lines
    drawn for a response are the words of the response, line by line. *)
Theorem wrap_keeps_words (text_width : Z) (response : string) (y_position : Z) :
  len response < 2 ^ 49 ->
  exists drawn y',
    draw_lines text_width (split_on newline response) y_position = Ret (drawn, y') /\
    flat_map py_split (map snd drawn) = flat_map py_split (split_on newline response).
Proof.
  intros Hlen.
  destruct (draw_lines_spec text_width (split_on newline response)
              (response_lines_bounded response Hlen) y_position) as (drawn & y' & Heq & _).
  exists drawn, y'. split; [exact Heq|]. apply (draw_lines_keeps _ _ _ _ _ Heq).
Qed.

(** X10 at a response with a long word, in a panel of width 298. *)
Lemma wrap_keeps_words_witness :
  exists drawn y',
    draw_lines 298 (split_on newline long_response) 114 = Ret (drawn, y') /\
    flat_map py_split (map snd drawn) = flat_map py_split (split_on newline long_response).
Proof.
  apply (wrap_keeps_words 298 long_response 114). vm_compute. reflexivity.
Defined.

Lemma fits_within (text_width n : Z) : fits text_width n -> within text_width n.
Proof. intros (px & Hpx & H). exists px. split; [exact Hpx|lia]. Qed.

(** The inner loop only lets a line overflow when it is a single word: each
    line it draws fits, or is one of the words, or is the empty pending line it
    started from. *)
Lemma wrap_words_fit (text_width : Z) (all : list string) (words : list string) :
  incl words all ->
  forall current_line y_position lines y',
    (current_line = EmptyString \/ In current_line all
     \/ fits text_width (len current_line)) ->
    wrap_words text_width words current_line y_position = Ret (lines, y') ->
    Forall (fun line => line = EmptyString \/ In line all \/ fits text_width (len line))
           (map snd lines).
Proof.
  induction words as [|word rest IH]; intros Hincl current_line y lines y' Hcur H;
    cbn [wrap_words] in H.
  - destruct (nonempty current_line); injection H as <- <-; cbn [map snd].
    + constructor; [exact Hcur|constructor].
    + constructor.
  - assert (Hword : In word all) by (apply Hincl; left; reflexivity).
    assert (Hrest : incl rest all) by (intros x Hx; apply Hincl; right; exact Hx).
    unfold text_px in H.
    destruct (estimate _) as [px|e] eqn:Hpx; cbn [bind] in H; [|discriminate H].
    destruct (Z.ltb_spec px (text_width - 20)) as [Hfit|Hover].
    + apply (IH Hrest _ _ _ _ (or_intror (or_intror (ex_intro _ px (conj Hpx Hfit)))) H).
    + destruct (wrap_words text_width rest word (y + line_height)) as [[more y1]|e] eqn:E;
        cbn [bind] in H; [|discriminate H].
      injection H as <- <-. cbn [map snd]. constructor; [exact Hcur|].
      apply (IH Hrest _ _ _ _ (or_intror (or_introl Hword)) E).
Qed.

Lemma draw_line_fit (text_width : Z) (line : string) (y_position : Z)
    (lines : list drawn) (y' : Z) :
  draw_line text_width line y_position = Ret (lines, y') ->
  Forall (fun text => text = EmptyString \/ In text (py_split line)
                      \/ within text_width (len text))
         (map snd lines).
Proof.
  unfold draw_line, text_px. intros H.
  destruct (estimate (len line)) as [px|e] eqn:Hpx; cbn [bind] in H; [|discriminate H].
  destruct (Z.gtb_spec px (text_width - 20)) as [Hwrap|Hplain].
  - apply (wrap_words_fit text_width (py_split line) (py_split line) (incl_refl _)
             _ _ _ _ (or_introl eq_refl)) in H.
    eapply Forall_impl; [|exact H]. cbn beta.
    intros text [Ht|[Ht|Ht]]; [left; exact Ht|right; left; exact Ht|].
    right. right. apply fits_within. exact Ht.
  - injection H as <- <-. cbn [map snd]. constructor; [|constructor].
    right. right. exists px. split; [exact Hpx|lia].
Qed.

Lemma draw_lines_fit (text_width : Z) (lines : list string) :
  forall y_position drawn y',
    draw_lines text_width lines y_position = Ret (drawn, y') ->
    Forall (fun text => text = EmptyString
                        \/ (exists line, In line lines /\ In text (py_split line))
                        \/ within text_width (len text))
           (map snd drawn).
Proof.
  induction lines as [|line rest IH]; intros y drawn y' H; cbn [draw_lines] in H.
  - injection H as <- <-. constructor.
  - destruct (draw_line text_width line y) as [[first y1]|e] eqn:E1;
      cbn [bind] in H; [|discriminate H].
    destruct (draw_lines text_width rest y1) as [[more y2]|e] eqn:E2;
      cbn [bind] in H; [|discriminate H].
    injection H as <- <-. rewrite map_app. apply Forall_app. split.
    + eapply Forall_impl; [|exact (draw_line_fit _ _ _ _ _ E1)]. cbn beta.
      intros text [Ht|[Ht|Ht]]; [left; exact Ht| |right; right; exact Ht].
      right. left. exists line. split; [left; reflexivity|exact Ht].
    + eapply Forall_impl; [|exact (IH _ _ _ E2)]. cbn beta.
      intros text [Ht|[(l & Hl & Ht)|Ht]]; [left; exact Ht| |right; right; exact Ht].
      right. left. exists l. split; [right; exact Hl|exact Ht].
Qed.

(** X11. A drawn line is wider than the panel only when nothing could be done
    about it: every text drawn for a response is estimated within the usable
    width, or is a single word of the response, or is the empty text drawn
    before a first word that overflows. *)
Theorem drawn_lines_fit (text_width : Z) (response : string) (y_position : Z) :
  len response < 2 ^ 49 ->
  exists drawn y',
    draw_lines text_width (split_on newline response) y_position = Ret (drawn, y') /\
    Forall (fun text =>
              text = EmptyString
              \/ (exists line, In line (split_on newline response) /\ In text (py_split line))
              \/ within text_width (len text))
           (map snd drawn).
Proof.
  intros Hlen.
  destruct (draw_lines_spec text_width (split_on newline response)
              (response_lines_bounded response Hlen) y_position) as (drawn & y' & Heq & _).
  exists drawn, y'. split; [exact Heq|]. apply (draw_lines_fit _ _ _ _ _ Heq).
Qed.

(** X11 at a response with a long word, in a panel of width 298. *)
Lemma drawn_lines_fit_witness :
  exists drawn y',
    draw_lines 298 (split_on newline long_response) 114 = Ret (drawn, y') /\
    Forall (fun text =>
              text = EmptyString
              \/ (exists line, In line (split_on newline long_response)
                               /\ In text (py_split line))
              \/ within 298 (len text))
           (map snd drawn).
Proof.
  apply (drawn_lines_fit 298 long_response 114). vm_compute. reflexivity.
Defined.

(** X12. The texts of a response are drawn one line height, 16 pixels, apart
    from the first ordinate on, without a gap, and the ordinate that is
    returned is the one after the last text. *)
Theorem drawn_lines_evenly_spaced (text_width : Z) (response : string) (y_position : Z) :
  len response < 2 ^ 49 ->
  exists drawn y',
    draw_lines text_width (split_on newline response) y_position = Ret (drawn, y') /\
    evenly_spaced y_position (map fst drawn) /\
    y' = y_position + 16 * Z.of_nat (List.length drawn).
Proof.
  intros Hlen.
  destruct (draw_lines_spec text_width (split_on newline response)
              (response_lines_bounded response Hlen) y_position) as (drawn & y' & Heq & _).
  exists drawn, y'. split; [exact Heq|].
  rewrite <- line_height_value. apply (draw_lines_spaced _ _ _ _ _ Heq).
Qed.

(** X12 at a response with a long word, in a panel of width 298. *)
Lemma drawn_lines_evenly_spaced_witness :
  exists drawn y',
    draw_lines 298 (split_on newline long_response) 114 = Ret (drawn, y') /\
    evenly_spaced 114 (map fst drawn) /\
    y' = 114 + 16 * Z.of_nat (List.length drawn).
Proof.
  apply (drawn_lines_evenly_spaced 298 long_response 114). vm_compute. reflexivity.
Defined.

(* ================================================================= *)
(** ** More on the comparison artifact *)

Lemma draw_settings_spec (lines : list string) (y_position : Z) :
  snd (draw_settings lines y_position)
    = y_position + settings_step * Z.of_nat (List.length lines) /\
  List.length (fst (draw_settings lines y_position)) = List.length lines.
Proof.
  revert y_position. induction lines as [|line rest IH]; intros y; cbn [draw_settings].
  - cbn [snd fst List.length]. split; [lia|reflexivity].
  - destruct (IH (y + settings_step)) as [IH1 IH2].
    destruct (draw_settings rest (y + settings_step)) as [more y1].
    cbn [snd fst List.length] in *. split; [lia|]. rewrite IH2. reflexivity.
Qed.

(** What a successful rendering went through. *)
Lemma render_inv (w : World) (original_path : string) (result : dict) (output_dir : string)
    (path : string) (c : canvas) :
  render w original_path result output_dir = Ret (path, c) ->
  exists width height bound text name y_end,
    w_open w original_path = Ret (width, height) /\
    int_times (w_max_str_digits w) 896 (dict_get_default result "scale_factor" (VFloat (of_int 1))) = Ret bound /\
    display_size width height bound = Ret (c_image c) /\
    dict_get_default result "response" (VStr "No response") = VStr text /\
    output_filename w original_path
      (dict_get_default result "scale_factor" (VFloat (of_int 1)))
      (dict_get_default result "quality" (VInt 100)) = Ret name /\
    path = os_path.join output_dir name /\
    w_compose w original_path (c_image c) path = Ret tt /\
    fst (c_size c) = fst (c_image c) + fst (c_image c) /\
    snd (c_image c) <= snd (c_size c) /\
    c_separator c = 20 + settings_step * Z.of_nat (List.length (c_settings c)) /\
    draw_lines (fst (c_image c)) (split_on newline text) (c_separator c + 10)
      = Ret (c_response c, y_end).
Proof.
  unfold render. intros H.
  destruct (w_open w original_path) as [[width height]|e] eqn:Hopen;
    cbn [bind] in H; [|discriminate H].
  destruct (int_times _ 896 _) as [bound|e] eqn:Hbound; cbn [bind] in H; [|discriminate H].
  destruct (display_size width height bound) as [[img_width img_height]|e] eqn:Hsize;
    cbn [bind] in H; [|discriminate H].
  destruct (times_int _ _ 100) as [pct|e]; cbn [bind] in H; [|discriminate H].
  destruct (dict_item result "payload") as [payload|e]; cbn [bind] in H; [|discriminate H].
  destruct (py_getitem payload "temperature") as [temp|e]; cbn [bind] in H; [|discriminate H].
  destruct (dict_item result "processing_time") as [time|e];
    cbn [bind] in H; [|discriminate H].
  destruct (w_format_2f w time) as [time_text|e]; cbn [bind] in H; [|discriminate H].
  destruct (dict_get_default result "response" (VStr "No response")) as [| | | |text| |]
    eqn:Hresponse; cbn [bind] in H; try discriminate H.
  destruct (int_mul_float _ _) as [x|e]; cbn [bind] in H; [|discriminate H].
  destruct (to_float 200) as [y|e]; cbn [bind] in H; [|discriminate H].
  destruct (py_int (add x y)) as [text_height|e]; cbn [bind] in H; [|discriminate H].
  match type of H with
  | context [draw_settings ?l 10] =>
      pose proof (draw_settings_spec l 10) as [Hy Hn];
      destruct (draw_settings l 10) as [settings y_position]
  end.
  cbn [fst snd] in Hy, Hn.
  destruct (draw_lines img_width _ _) as [[response y_end]|e] eqn:Hdraw;
    cbn [bind] in H; [|discriminate H].
  destruct (output_filename w original_path _ _) as [name|e] eqn:Hname;
    cbn [bind] in H; [|discriminate H].
  destruct (w_compose w original_path _ _) as [[]|e] eqn:Hcompose;
    cbn [bind] in H; [|discriminate H].
  injection H as <- <-. cbn [c_size c_image c_settings c_separator c_response fst snd].
  exists width, height, bound, text, name, y_end.
  repeat (split; [reflexivity || assumption|]).
  split; [lia|]. split; [rewrite Hn; lia|]. exact Hdraw.
Qed.

(** X13. The layout of an artifact: the canvas is twice as wide as the
    displayed image and at least as high; the separator lies 10 pixels under
    the settings, which take 21 pixels each from ordinate 10 on; the response
    starts 10 pixels under the separator and its texts are 16 pixels apart. *)
Theorem artifact_layout (w : World) (original_path : string) (result : dict)
    (output_dir path : string) (c : canvas) :
  render w original_path result output_dir = Ret (path, c) ->
  fst (c_size c) = 2 * fst (c_image c) /\
  snd (c_image c) <= snd (c_size c) /\
  c_separator c = 20 + 21 * Z.of_nat (List.length (c_settings c)) /\
  evenly_spaced (c_separator c + 10) (map fst (c_response c)).
Proof.
  intros H.
  destruct (render_inv _ _ _ _ _ _ H)
    as (width & height & bound & text & name & y_end & _ & _ & _ & _ & _ & _ & _
        & Hw & Hh & Hsep & Hdraw).
  split; [lia|]. split; [exact Hh|]. split.
  - rewrite Hsep. replace settings_step with 21 by (vm_compute; reflexivity). reflexivity.
  - apply (draw_lines_spaced _ _ _ _ _ Hdraw).
Qed.

(** X13 at the artifact of a 1920x1080 image at scale 1/3 and quality 30. *)
Lemma artifact_layout_witness :
  let result := process_file (answering long_response) "imgs/name.png" 30 (literal 1 3) in
  let rendered :=
    returned (EmptyString, blank) (render (answering long_response) "imgs/name.png" result "out") in
  fst (c_size (snd rendered)) = 2 * fst (c_image (snd rendered)) /\
  snd (c_image (snd rendered)) <= snd (c_size (snd rendered)) /\
  c_separator (snd rendered) = 20 + 21 * Z.of_nat (List.length (c_settings (snd rendered))) /\
  evenly_spaced (c_separator (snd rendered) + 10) (map fst (c_response (snd rendered))).
Proof.
  intros result rendered.
  apply (artifact_layout (answering long_response) "imgs/name.png" result "out"
           (fst rendered) (snd rendered)).
  vm_compute. reflexivity.
Defined.

(** X14. The image shown in the artifact of a successful result has the size
    of the variant that was encoded and sent for that result. *)
Theorem artifact_shows_encoded_size (w : World) (file_path : string) (quality : Z)
    (scale_factor : float) (output_dir path : string) (c : canvas) :
  succeeded (process_file w file_path quality scale_factor) = true ->
  render w file_path (process_file w file_path quality scale_factor) output_dir
    = Ret (path, c) ->
  exists image_base64,
    w_encode w file_path (c_image c) quality = Ret image_base64 /\
    dict_get (process_file w file_path quality scale_factor) "payload"
      = Some (payload_of image_base64).
Proof.
  intros Hok Hrender.
  destruct (process_file_cases w file_path quality scale_factor)
    as [[error Heq]|(img & out & reply & response & Himg & _ & _ & _ & Heq)].
  { rewrite Heq, succeeded_failure in Hok. discriminate Hok. }
  destruct (process_image_inv _ _ _ _ _ _ _ Himg)
    as (width & height & bound & size & Hopen & Hbound & Hsize & Henc & _).
  destruct (render_inv _ _ _ _ _ _ Hrender)
    as (width' & height' & bound' & text & name & y_end & Hopen' & Hbound' & Hsize' & _).
  rewrite Hopen in Hopen'. injection Hopen' as <- <-.
  rewrite Heq in Hbound'.
  change (dict_get_default (success_record w file_path out img quality scale_factor
                              match response with Some v => v | None => VNone end)
            "scale_factor" (VFloat (of_int 1))) with (VFloat scale_factor) in Hbound'.
  change (int_times (w_max_str_digits w) 896 (VFloat scale_factor))
    with (effective_max_dimension 896 scale_factor) in Hbound'.
  rewrite Hbound in Hbound'. injection Hbound' as <-.
  rewrite display_size_constrain_size, Hsize in Hsize'. injection Hsize' as <-.
  exists img. split; [exact Henc|]. rewrite Heq. reflexivity.
Qed.

(** X14 at a 1920x1080 image at scale 1/3 and quality 30. *)
Lemma artifact_shows_encoded_size_witness :
  let w := answering long_response in
  let rendered :=
    returned (EmptyString, blank)
      (render w "imgs/name.png" (process_file w "imgs/name.png" 30 (literal 1 3)) "out") in
  exists image_base64,
    w_encode w "imgs/name.png" (c_image (snd rendered)) 30 = Ret image_base64 /\
    dict_get (process_file w "imgs/name.png" 30 (literal 1 3)) "payload"
      = Some (payload_of image_base64).
Proof.
  intros w rendered.
  apply (artifact_shows_encoded_size w "imgs/name.png" 30 (literal 1 3) "out"
           (fst rendered) (snd rendered)); vm_compute; reflexivity.
Defined.

(** X15. An artifact is returned only for a result whose response is a string
    (or that has no response field, for which the placeholder is drawn), and
    its path is the artifact name of the result's scale and quality under the
    output directory. *)
Theorem artifact_needs_text (w : World) (original_path : string) (result : dict)
    (output_dir path : string) :
  create_side_by_side_image w original_path result output_dir = Some path ->
  (exists text, dict_get_default result "response" (VStr "No response") = VStr text) /\
  (exists name,
     output_filename w original_path
       (dict_get_default result "scale_factor" (VFloat (of_int 1)))
       (dict_get_default result "quality" (VInt 100)) = Ret name /\
     path = os_path.join output_dir name).
Proof.
  unfold create_side_by_side_image. intros H.
  destruct (render w original_path result output_dir) as [[p c]|e] eqn:Hrender;
    [|discriminate H].
  injection H as ->.
  destruct (render_inv _ _ _ _ _ _ Hrender)
    as (width & height & bound & text & name & y_end & _ & _ & _ & Htext & Hname & Hpath & _).
  split; [exists text; exact Htext|]. exists name. split; assumption.
Qed.

(** X15 at the artifact of a 1920x1080 image at scale 1/3 and quality 30. *)
Lemma artifact_needs_text_witness :
  let w := answering long_response in
  let result := process_file w "imgs/name.png" 30 (literal 1 3) in
  (exists text, dict_get_default result "response" (VStr "No response") = VStr text) /\
  (exists name,
     output_filename w "imgs/name.png"
       (dict_get_default result "scale_factor" (VFloat (of_int 1)))
       (dict_get_default result "quality" (VInt 100)) = Ret name /\
     "out/name_s33_q30_combined.jpg" = os_path.join "out" name).
Proof.
  intros w result.
  apply (artifact_needs_text w "imgs/name.png" result "out" "out/name_s33_q30_combined.jpg").
  vm_compute. reflexivity.
Defined.

(** A result whose scale is the string ["2"], as a caller may hand in: the
    string is repeated and read as a number, no side exceeds the bound, and
    the name carries the hundred digits. *)
Example artifact_of_string_scale :
  let w := answering "a cat" in
  let result :=
    dict_set (process_file w "imgs/name.png" 100 (of_int 1)) "scale_factor" (VStr "2") in
  create_side_by_side_image w "imgs/name.png" result "out"
    = Some ("out/name_s" ^^ repeat_str 100 "2" ^^ "_q100_combined.jpg") /\
  option_map c_image
    (match render w "imgs/name.png" result "out" with
     | Ret (_, c) => Some c
     | Raise _ => None
     end) = Some (1920, 1080).
Proof. vm_compute. split; reflexivity. Qed.

(* ================================================================= *)
(** ** [main] *)

(** The loop over the images sweeps each of them, in order, and keeps what the
    earlier ones left. *)
Lemma process_images_spec (w : World) (files : list string) (output_dir : string) :
  forall i total st,
    results (process_images w files output_dir i total st)
      = results st ++ results_of_run w output_dir files /\
    json_docs (process_images w files output_dir i total st)
      = json_docs st
        ++ flat_map (fun file_path =>
                       flat_map (persisted w file_path output_dir)
                                (entered w file_path output_dir)) files /\
    directories (process_images w files output_dir i total st) = directories st.
Proof.
  induction files as [|file_path rest IH]; intros i total st; cbn [process_images].
  - cbn. rewrite !app_nil_r. repeat split.
  - destruct (IH (i + 1) total
                (sweep w file_path output_dir
                   (print st ("[" ^^ str_of_int (i + 1) ^^ "/" ^^ str_of_int total
                              ^^ "] Processing " ^^ file_path)))) as (Hr & Hd & Hm).
    rewrite Hr, Hd, Hm.
    destruct (sweep_spec w file_path output_dir
                (print st ("[" ^^ str_of_int (i + 1) ^^ "/" ^^ str_of_int total
                           ^^ "] Processing " ^^ file_path))) as (-> & -> & _ & ->).
    cbn [results json_docs directories print]. unfold results_of_run. cbn [flat_map].
    rewrite <- !app_assoc. repeat split.
Qed.

Lemma reached_length {A : Type} (stops : A -> bool) (l : list A) :
  (List.length (reached stops l) <= List.length l)%nat /\
  (l <> [] -> 1 <= List.length (reached stops l))%nat.
Proof.
  induction l as [|x l [IH _]]; cbn [reached List.length].
  - split; [lia|]. intros H. contradiction H. reflexivity.
  - destruct (stops x); cbn [List.length]; split; intros; lia.
Qed.

Lemma length_results_of (w : World) (files : list string) :
  List.length (results_of w files) = (18 * List.length files)%nat.
Proof.
  induction files as [|f rest IH]; [reflexivity|].
  unfold results_of in *. cbn [flat_map]. rewrite length_app, IH, length_map.
  change (List.length pairs) with 18%nat. cbn [List.length]. lia.
Qed.

Lemma length_results_of_run (w : World) (output_dir : string) (files : list string) :
  (List.length files <= List.length (results_of_run w output_dir files)
   <= 18 * List.length files)%nat.
Proof.
  induction files as [|f rest IH]; [cbn; lia|].
  unfold results_of_run in *. cbn [flat_map]. rewrite length_app, length_map.
  destruct (reached_length (write_fails w f output_dir) pairs) as [Hle Hge].
  fold (entered w f output_dir) in Hle, Hge.
  assert (Hne : pairs <> []) by discriminate. specialize (Hge Hne).
  change (List.length pairs) with 18%nat in Hle. cbn [List.length]. lia.
Qed.

Lemma results_of_run_all (w : World) (output_dir : string) (files : list string) :
  (forall file_path sq, In file_path files -> In sq pairs ->
     succeeded (result_of w file_path sq) = true ->
     written w file_path output_dir sq = true) ->
  results_of_run w output_dir files = results_of w files.
Proof.
  induction files as [|f rest IH]; intros H; [reflexivity|].
  unfold results_of_run, results_of in *. cbn [flat_map].
  rewrite (entered_all w f output_dir); [|intros sq; apply H; left; reflexivity].
  rewrite IH; [reflexivity|]. intros file_path sq Hin. apply H. right. exact Hin.
Qed.

(** X16. The exit status tells whether there was something to do, not how it
    went.  An exception leaves [main] only when the output directory cannot be
    made, before anything is printed or processed.  [main] returns 1 with
    nothing processed when the directory is not one, and then it makes no
    directory; it returns 1 as well when no image file is found, but then the
    output directory has been made.  In every other case it returns 0,
    whatever the results of the pairs and whether or not their documents could
    be written, and the output directory is the only one it has made. *)
Theorem main_exit_code (fs : FileSystem) (w : World) (args : Args) :
  let run := main fs w args in
  let output_dir := output_dir_of args in
  let idle := results (fst run) = [] /\ json_docs (fst run) = [] /\ artifacts (fst run) = [] in
  match snd run with
  | Raise e =>
      fs_isdir fs (arg_dir args) = true /\ fs_makedirs fs output_dir = Raise e /\
      fst run = initial /\ exit_status run = 1
  | Ret code =>
      exit_status run = code /\
      ((code = 1 /\ fs_isdir fs (arg_dir args) = false /\ directories (fst run) = [] /\ idle)
       \/
       (code = 1 /\ fs_isdir fs (arg_dir args) = true /\ fs_makedirs fs output_dir = Ret tt /\
        image_files fs (arg_dir args) = [] /\ directories (fst run) = [output_dir] /\ idle)
       \/
       (code = 0 /\ fs_isdir fs (arg_dir args) = true /\ fs_makedirs fs output_dir = Ret tt /\
        image_files fs (arg_dir args) <> [] /\ directories (fst run) = [output_dir]))
  end.
Proof.
  intros run output_dir idle. subst run output_dir idle. unfold main, exit_status.
  destruct (fs_isdir fs (arg_dir args)); cbn [negb].
  - destruct (fs_makedirs fs (output_dir_of args)) as [[]|e]; cbn [fst snd].
    + destruct (image_files fs (arg_dir args)) as [|file rest] eqn:Hfiles; cbn [fst snd].
      * split; [reflexivity|]. right. left. cbn. repeat split.
      * split; [reflexivity|]. right. right.
        repeat (split; [reflexivity || discriminate|]).
        cbn [print directories].
        destruct (process_images_spec w (file :: rest) (output_dir_of args) 0
                    (Z.of_nat (List.length (file :: rest)))
                    (print (make_directory initial (output_dir_of args))
                       ("Found " ^^ str_of_int (Z.of_nat (List.length (file :: rest)))
                        ^^ " image files to process"))) as (_ & _ & ->).
        reflexivity.
    + repeat split.
  - split; [reflexivity|]. left. cbn. repeat split.
Qed.

(** X17. A run on a directory whose output directory can be made sweeps every
    image file that was found, once and in the order found, each up to the
    first pair whose document cannot be written, so that a write error in the
    sweep of one image does not keep the later images from being swept: there
    are between one and 18 results for each file, and 18 for each file when
    every document of a successful pair can be written. *)
Theorem main_sweeps_every_image (fs : FileSystem) (w : World) (args : Args) :
  fs_isdir fs (arg_dir args) = true ->
  fs_makedirs fs (output_dir_of args) = Ret tt ->
  let files := image_files fs (arg_dir args) in
  let produced := results (fst (main fs w args)) in
  produced = results_of_run w (output_dir_of args) files /\
  (List.length files <= List.length produced <= 18 * List.length files)%nat /\
  ((forall file_path sq, In file_path files -> In sq pairs ->
      succeeded (result_of w file_path sq) = true ->
      written w file_path (output_dir_of args) sq = true) ->
   produced = results_of w files /\
   List.length produced = (18 * List.length files)%nat).
Proof.
  intros Hdir Hmake files produced.
  assert (H : produced = results_of_run w (output_dir_of args) files).
  { unfold produced, files, main. rewrite Hdir, Hmake. cbn [negb].
    destruct (image_files fs (arg_dir args)) as [|file rest] eqn:E; [reflexivity|].
    cbn [fst]. cbn [results print].
    destruct (process_images_spec w (file :: rest) (output_dir_of args) 0
                (Z.of_nat (List.length (file :: rest)))
                (print (make_directory initial (output_dir_of args))
                   ("Found " ^^ str_of_int (Z.of_nat (List.length (file :: rest)))
                    ^^ " image files to process"))) as (-> & _).
    reflexivity. }
  split; [exact H|]. split; [rewrite H; apply length_results_of_run|].
  intros Hall. rewrite H, (results_of_run_all w (output_dir_of args) files Hall).
  split; [reflexivity|apply length_results_of].
Qed.

(** X17 at a directory with two images and a text file. *)
Lemma main_sweeps_every_image_witness :
  let files := image_files two_images (arg_dir plain_args) in
  let produced := results (fst (main two_images (answering "a cat") plain_args)) in
  produced = results_of_run (answering "a cat") (output_dir_of plain_args) files /\
  (List.length files <= List.length produced <= 18 * List.length files)%nat /\
  ((forall file_path sq, In file_path files -> In sq pairs ->
      succeeded (result_of (answering "a cat") file_path sq) = true ->
      written (answering "a cat") file_path (output_dir_of plain_args) sq = true) ->
   produced = results_of (answering "a cat") files /\
   List.length produced = (18 * List.length files)%nat).
Proof.
  apply (main_sweeps_every_image two_images (answering "a cat") plain_args); reflexivity.
Defined.

(* ================================================================= *)
(** ** The file filter and the stem *)

Lemma split_last_lacks (c : ascii) (s : string) :
  lacks c s = true -> split_last c s = (EmptyString, s).
Proof.
  induction s as [|a rest IH]; [reflexivity|]. cbn [lacks split_last].
  intros H. apply andb_true_iff in H. destruct H as [Ha Hrest].
  rewrite (IH Hrest). apply negb_true_iff in Ha. rewrite Ha. reflexivity.
Qed.

Lemma split_last_app (c : ascii) (root tail : string) :
  lacks c tail = true ->
  split_last c (root ^^ String c tail) = (root ^^ String c EmptyString, tail).
Proof.
  intros Htail. induction root as [|a root IH]; cbn [String.append split_last].
  - rewrite (split_last_lacks c tail Htail), Ascii.eqb_refl. reflexivity.
  - rewrite IH. destruct root; reflexivity.
Qed.

Lemma drop_last_app (c : ascii) (root : string) :
  drop_last (root ^^ String c EmptyString) = root.
Proof.
  induction root as [|a root IH]; [reflexivity|].
  cbn [String.append drop_last]. rewrite IH. destruct root; reflexivity.
Qed.

(** A text whose lower case ends with [suffix] ends with a text whose lower case
    is [suffix]. *)
Lemma endswith_lower (name suffix : string) :
  endswith (lower name) suffix = true ->
  exists root ext, name = root ^^ ext /\ lower ext = suffix.
Proof.
  induction name as [|a rest IH]; cbn [lower endswith]; intros H.
  - exists "", "". split; [reflexivity|].
    apply orb_true_iff in H. destruct H as [H|H]; [|discriminate H].
    apply String.eqb_eq in H. exact H.
  - apply orb_true_iff in H. destruct H as [H|H].
    + apply String.eqb_eq in H. exists "", (String a rest). split; [reflexivity|exact H].
    + destruct (IH H) as (root & ext & -> & Hext). exists (String a root), ext.
      split; [reflexivity|exact Hext].
Qed.

Lemma lower_char_dot (c : ascii) : lower_char c = dot -> c = dot.
Proof.
  destruct c as [[] [] [] [] [] [] [] []]; vm_compute; intros H;
    first [reflexivity | discriminate H].
Qed.

Lemma lower_char_letter (c : ascii) :
  In (lower_char c) ["p"; "n"; "g"; "j"; "e"]%char -> Ascii.eqb c dot = false.
Proof.
  intros H. destruct (Ascii.eqb_spec c dot) as [->|]; [|reflexivity].
  exfalso. cbn in H. repeat (destruct H as [H|H]; [discriminate H|]). exact H.
Qed.

(** An extension, in any case, is a dot followed by letters. *)
Lemma extension_shape (ext : string) :
  In (lower ext) image_extensions ->
  exists tail, ext = String dot tail /\ lacks dot tail = true.
Proof.
  intros [H|[H|[H|[]]]];
    repeat (destruct ext as [|? ext]; cbn [lower] in H; try discriminate H);
    injection H; intros;
    repeat match goal with
           | Hd : dot = lower_char ?c |- _ =>
               symmetry in Hd; apply lower_char_dot in Hd; subst c
           | Hd : "."%char = lower_char ?c |- _ =>
               symmetry in Hd; apply lower_char_dot in Hd; subst c
           end;
    eexists; (split; [reflexivity|]); cbn [lacks];
    repeat (rewrite lower_char_letter
              by (match goal with Hc : _ = lower_char ?c |- In (lower_char ?c) _ =>
                    rewrite <- Hc; cbn; tauto end));
    reflexivity.
Qed.

Lemma ends_with_app (c : ascii) (s : string) :
  ends_with c s = true -> exists r, s = r ^^ String c EmptyString.
Proof.
  induction s as [|a rest IH]; [discriminate|]. cbn [ends_with]. destruct rest as [|b rest].
  - intros H. apply Ascii.eqb_eq in H. subst a. exists "". reflexivity.
  - intros H. destruct (IH H) as [r ->]. exists (String a r). reflexivity.
Qed.

(** The last component of a directory joined with a name is that name. *)
Lemma basename_join (root name : string) :
  lacks slash name = true -> os_path.basename (os_path.join root name) = name.
Proof.
  intros Hname. unfold os_path.basename, os_path.join.
  assert (Hstart : starts_with slash name = false).
  { destruct name as [|a rest]; [reflexivity|]. cbn [lacks starts_with] in *.
    apply andb_true_iff in Hname. destruct Hname as [Ha _].
    apply negb_true_iff in Ha. exact Ha. }
  rewrite Hstart. destruct root as [|a root]; cbn [nonempty negb orb].
  - cbn [String.append]. rewrite (split_last_lacks slash name Hname). reflexivity.
  - destruct (ends_with slash (String a root)) eqn:Hend.
    + destruct (ends_with_app _ _ Hend) as [r ->].
      rewrite append_assoc. cbn [String.append].
      rewrite (split_last_app slash r name Hname). reflexivity.
    + change (String a root ^^ "/" ^^ name) with (String a root ^^ String slash name).
      rewrite (split_last_app slash (String a root) name Hname). reflexivity.
Qed.

(** X18. The stem that names every output of an image is the name of the file
    without the extension that made [main] take it, in whatever case it is
    written and whatever the directory; a name that is nothing but dots before
    that extension, like [.png], is its own stem. *)
Theorem stem_drops_image_extension (root_dir name : string) :
  is_image_file name = true ->
  lacks slash name = true ->
  exists root ext,
    name = root ^^ ext /\
    In (lower ext) image_extensions /\
    stem (os_path.join root_dir name) = if all_char dot root then name else root.
Proof.
  intros Himg Hslash.
  assert (Hext : exists root ext, name = root ^^ ext /\ In (lower ext) image_extensions).
  { unfold is_image_file in Himg.
    apply orb_true_iff in Himg. destruct Himg as [Himg|Himg];
      [apply orb_true_iff in Himg; destruct Himg as [Himg|Himg]|];
      destruct (endswith_lower _ _ Himg) as (root & ext & Hname & Hlow);
      exists root, ext; (split; [exact Hname|]); rewrite Hlow; cbn; tauto. }
  unfold stem. rewrite (basename_join root_dir name Hslash).
  destruct Hext as (root & ext & -> & Hin). exists root, ext.
  split; [reflexivity|]. split; [exact Hin|].
  destruct (extension_shape ext Hin) as (tail & -> & Htail).
  unfold os_path.splitext.
  rewrite (split_last_lacks slash _ Hslash).
  rewrite (split_last_app dot root tail Htail).
  destruct (root ^^ String dot "") as [|a pre] eqn:Epre.
  { destruct root; discriminate Epre. }
  rewrite <- Epre, drop_last_app.
  destruct (all_char dot root); reflexivity.
Qed.

(** X18 at a name written in capitals. *)
Lemma stem_drops_image_extension_witness :
  exists root ext,
    "Holiday.Photo.JPG" = root ^^ ext /\
    In (lower ext) image_extensions /\
    stem (os_path.join "imgs/2024" "Holiday.Photo.JPG")
      = if all_char dot root then "Holiday.Photo.JPG" else root.
Proof.
  apply (stem_drops_image_extension "imgs/2024" "Holiday.Photo.JPG"); vm_compute; reflexivity.
Defined.

(* ================================================================= *)
(** ** The artifacts of a sweep *)

Lemma length_rendering (w : World) (file_path output_dir : string) (l : list (float * Z)) :
  (List.length (flat_map (rendering w file_path output_dir) l) <= List.length l)%nat.
Proof.
  induction l as [|sq l IH]; [cbn; lia|].
  cbn [flat_map List.length]. rewrite length_app. unfold rendering at 1.
  destruct (render w file_path (result_of w file_path sq) output_dir);
    cbn [List.length]; lia.
Qed.

(** X19. A sweep never saves an artifact for a pair without having written its
    document: the artifacts it saves are those of the pairs whose document was
    written and whose rendering returned, in the order of the pairs.  So a pair
    whose document cannot be written leaves no artifact, nor does any pair
    after it, and the artifacts are at most as many as the documents, and at
    most 18. *)
Theorem artifacts_follow_documents (w : World) (file_path output_dir : string) (st : state) :
  let recorded := documented w file_path output_dir in
  exists new_artifacts new_docs,
    artifacts (sweep w file_path output_dir st) = artifacts st ++ new_artifacts /\
    json_docs (sweep w file_path output_dir st) = json_docs st ++ new_docs /\
    new_docs = map (document_of w file_path output_dir) recorded /\
    new_artifacts = flat_map (rendering w file_path output_dir) recorded /\
    (List.length new_artifacts <= List.length new_docs <= 18)%nat.
Proof.
  intros recorded.
  destruct (sweep_spec w file_path output_dir st) as (_ & Hd & Ha & _).
  exists (flat_map (rendering w file_path output_dir) recorded),
         (map (document_of w file_path output_dir) recorded).
  split; [rewrite Ha, flat_map_saved; reflexivity|].
  split; [rewrite Hd, flat_map_persisted; reflexivity|].
  split; [reflexivity|]. split; [reflexivity|].
  rewrite length_map. split; [apply length_rendering|].
  unfold recorded, documented.
  pose proof (filter_length_le (kept w file_path output_dir) (entered w file_path output_dir)).
  destruct (reached_length (write_fails w file_path output_dir) pairs) as [Hle _].
  fold (entered w file_path output_dir) in Hle.
  change (List.length pairs) with 18%nat in Hle. lia.
Qed.

(** In a world where no document can be written, a sweep leaves a successful
    result, no document and no artifact. *)
Example nothing_saved_unwritten :
  let st := sweep unwritable "imgs/name.png" "out" initial in
  map succeeded (results st) = [true] /\ json_docs st = [] /\ artifacts st = [] /\
  console st
  = [ String newline "===== Processing scale: original (896px) =====";
      "  Processing quality: 100%";
      "Error processing imgs/name.png: error" ].
Proof. vm_compute. repeat split. Qed.
